(** * JarNox Command Copilot: response normalisation and action dispatch

    A shallow embedding of the pure helpers of [src/utils/textProcessor.ts],
    [src/lib/textUtils.ts] and [src/services/modelActions.ts], and of the
    dispatch code of [src/ui/webviewProvider.ts], together with the
    properties the specification states about them.

    JavaScript strings are sequences of UTF-16 code units; a code unit is
    a number of type [N].  The host functions the code calls but does not
    define ([JSON.parse], [vscode.Uri.joinPath]) are the fields of the
    class [Host]; the editor, the workspace and the file system are the
    fields of the record [World], threaded through the effectful code. *)

From Stdlib Require Import NArith String Ascii Bool Lia.
From stdpp Require Import base option list gmap.

Local Open Scope N_scope.

(** ** JavaScript strings *)

Abbreviation jsstring := (list N).

(** [js "abc"] is the JavaScript string with the code units of the
    literal. *)
Definition js (s : string) : jsstring :=
  map N_of_ascii (list_ascii_of_string s).
Arguments js _%_string.

(** [jsq] is [js] with every apostrophe of the literal read as a double
    quote (code unit 34), for JSON texts. *)
Definition jsq (s : string) : jsstring :=
  map (fun c => if c =? 39 then 34 else c) (js s).
Arguments jsq _%_string.

Definition LF : N := 10.
Definition CR : N := 13.

(** The characters of the regular-expression class [\s], which are also
    the ones [String.prototype.trim] removes. *)
Definition isWhiteSpace (c : N) : bool :=
  ((9 <=? c) && (c <=? 13)) || (c =? 32) || (c =? 160) || (c =? 5760)
  || ((8192 <=? c) && (c <=? 8202)) || (c =? 8232) || (c =? 8233)
  || (c =? 8239) || (c =? 8287) || (c =? 12288) || (c =? 65279).

(** The line terminators: [.] matches none of them, and with the [m] flag
    [^] matches after one and [$] before one. *)
Definition isLineTerminator (c : N) : bool :=
  (c =? 10) || (c =? 13) || (c =? 8232) || (c =? 8233).

Fixpoint dropWhile (p : N -> bool) (s : jsstring) : jsstring :=
  match s with
  | [] => []
  | c :: s' => if p c then dropWhile p s' else s
  end.

Fixpoint takeWhile (p : N -> bool) (s : jsstring) : jsstring :=
  match s with
  | [] => []
  | c :: s' => if p c then c :: takeWhile p s' else []
  end.

Definition isEmpty (s : jsstring) : bool :=
  match s with [] => true | _ => false end.

Definition trimStart (s : jsstring) : jsstring := dropWhile isWhiteSpace s.

(** [s.replace(/\s+$/g, '')], which is also [s.trimEnd()]. *)
Fixpoint trimEnd (s : jsstring) : jsstring :=
  match s with
  | [] => []
  | c :: s' =>
      let r := trimEnd s' in
      if isWhiteSpace c && isEmpty r then [] else c :: r
  end.

Definition trim (s : jsstring) : jsstring := trimStart (trimEnd s).

Fixpoint jsEqb (a b : jsstring) : bool :=
  match a, b with
  | [], [] => true
  | x :: a', y :: b' => (x =? y) && jsEqb a' b'
  | _, _ => false
  end.

Fixpoint startsWith (pre s : jsstring) : bool :=
  match pre, s with
  | [], _ => true
  | x :: pre', y :: s' => (x =? y) && startsWith pre' s'
  | _ :: _, [] => false
  end.

Definition endsWith (suf s : jsstring) : bool :=
  startsWith (reverse suf) (reverse s).

(** [s.indexOf(needle)] and [s.lastIndexOf(needle)]; [None] is the
    source's [-1]. *)
Fixpoint indexOf (needle s : jsstring) : option nat :=
  if startsWith needle s then Some 0%nat
  else match s with
       | [] => None
       | _ :: s' => S <$> indexOf needle s'
       end.

Fixpoint lastIndexOf (needle s : jsstring) : option nat :=
  match s with
  | [] => if startsWith needle [] then Some 0%nat else None
  | _ :: s' =>
      match lastIndexOf needle s' with
      | Some i => Some (S i)
      | None => if startsWith needle s then Some 0%nat else None
      end
  end.

(** [s.slice(a, b)] for indices that are not negative. *)
Definition slice (a b : nat) (s : jsstring) : jsstring :=
  take (b - a) (drop a s).

(** [lines.join(sep)]. *)
Fixpoint join (sep : jsstring) (l : list jsstring) : jsstring :=
  match l with
  | [] => []
  | [x] => x
  | x :: l' => x ++ sep ++ join sep l'
  end.

(** ** [src/utils/textProcessor.ts] *)

Definition getCommentPrefix (langId : jsstring) : jsstring :=
  if jsEqb langId (js "python") || jsEqb langId (js "shellscript")
     || jsEqb langId (js "yaml")
  then js "# "
  else if jsEqb langId (js "html") then js "<!-- "
  else js "// ".

Definition getCommentSuffix (langId : jsstring) : jsstring :=
  if jsEqb langId (js "html") then js " -->" else [].

Definition fenceMarker : jsstring := js "```".

(** The class [[A-Za-z0-9_+#.\-]]. *)
Definition isTagChar (c : N) : bool :=
  ((65 <=? c) && (c <=? 90)) || ((97 <=? c) && (c <=? 122))
  || ((48 <=? c) && (c <=? 57))
  || (c =? 95) || (c =? 43) || (c =? 35) || (c =? 46) || (c =? 45).

(** [codeContent.replace(/^\s*[A-Za-z0-9_+#.\-]*\s*\n/, '')].

    The expression is anchored at index 0 and has no [m] flag, so there is
    at most one match and it starts at 0.  Write the text as
    [w1 ++ tag ++ w2 ++ r3] with [w1] the longest run of white space,
    [tag] the longest run of tag characters after it and [w2] the longest
    run of white space after that.  The backtracking matcher tries the
    longest first [\s*] first: with it the match ends behind the last line
    feed of [w2].  When [w2] has none, a shorter first [\s*] leaves a white
    space character in front of the tag class, which then matches nothing,
    and the second [\s*] runs over the rest of [w1]: the match ends behind
    the last line feed of [w1].  Without a line feed in either run there is
    no match and the text is unchanged. *)
Definition stripLanguageTag (codeContent : jsstring) : jsstring :=
  let w1 := takeWhile isWhiteSpace codeContent in
  let r1 := dropWhile isWhiteSpace codeContent in
  let r2 := dropWhile isTagChar r1 in
  let w2 := takeWhile isWhiteSpace r2 in
  let r3 := dropWhile isWhiteSpace r2 in
  match lastIndexOf [LF] w2 with
  | Some k => drop (S k) w2 ++ r3
  | None =>
      match lastIndexOf [LF] w1 with
      | Some k => drop (S k) codeContent
      | None => codeContent
      end
  end.

Definition unwrapCodeFence (text : jsstring) : jsstring :=
  if isEmpty text then []
  else
    match indexOf fenceMarker text, lastIndexOf fenceMarker text with
    | Some startPos, Some endPos =>
        if (startPos <? endPos)%nat then
          let codeContent :=
            slice (startPos + length fenceMarker) endPos text in
          trim (stripLanguageTag codeContent)
        else trim text
    | _, _ => trim text
    end.

(** [text.replace(/OPEN[\s\S]*?CLOSE/g, '')] for the two literal markers
    [open] and [close].  The scan finds the leftmost [open], then the
    first [close] behind it, deletes both and what lies between, and goes
    on behind the deleted span.  When no [close] follows an [open], none
    follows a later [open] either and the rest of the text is kept.
    [skip] counts the code units of the current match still to delete. *)
Fixpoint removeSpans (open close : jsstring) (skip : nat) (s : jsstring)
  : jsstring :=
  match s with
  | [] => []
  | c :: s' =>
      match skip with
      | S k => removeSpans open close k s'
      | O =>
          if startsWith open s then
            match indexOf close (drop (length open) s) with
            | Some j =>
                removeSpans open close
                  (length open + j + length close - 1) s'
            | None => s
            end
          else c :: removeSpans open close 0 s'
      end
  end.

(** The two comment heads of the line expressions: [\/\/] and
    [#(?!\!)]. *)
Definition isSlashHead (r : jsstring) : bool := startsWith (js "//") r.

Definition isHashHead (r : jsstring) : bool :=
  match r with
  | c :: r' =>
      (c =? 35) && match r' with d :: _ => negb (d =? 33) | [] => true end
  | [] => false
  end.

Definition notLineTerminator (c : N) : bool := negb (isLineTerminator c).

(** [text.replace(/^\s*HEAD.*$/gm, '')].  A match can only start where
    [^] holds: at index 0 or behind a line terminator ([bol]).  There the
    greedy [\s*] takes the whole run of white space, line terminators
    included (a shorter run is followed by white space, never by the
    head); the head must follow, and [.*] then runs to the next line
    terminator or to the end, where [$] holds.  The position behind a
    match is not the start of a line.  [skip] counts the code units of the
    current match still to delete. *)
Fixpoint removeLines (isHead : jsstring -> bool) (bol : bool) (skip : nat)
    (s : jsstring) : jsstring :=
  match s with
  | [] => []
  | c :: s' =>
      match skip with
      | S k => removeLines isHead false k s'
      | O =>
          let r := dropWhile isWhiteSpace s in
          if bol && isHead r then
            removeLines isHead false
              (length (takeWhile isWhiteSpace s)
               + length (takeWhile notLineTerminator r) - 1) s'
          else c :: removeLines isHead (isLineTerminator c) 0 s'
      end
  end.

Definition consHead (c : N) (l : list jsstring) : list jsstring :=
  match l with
  | [] => [[c]]
  | x :: l' => (c :: x) :: l'
  end.

(** [text.split(/\r?\n/)]. *)
Fixpoint splitLines (s : jsstring) : list jsstring :=
  match s with
  | [] => [[]]
  | c :: s' =>
      if c =? LF then [] :: splitLines s'
      else
        match s' with
        | d :: s'' =>
            if (c =? CR) && (d =? LF) then [] :: splitLines s''
            else consHead c (splitLines s')
        | [] => consHead c (splitLines s')
        end
  end.

Definition isBlank (line : jsstring) : bool := isEmpty (trim line).

Definition removeHtmlComments (t : jsstring) : jsstring :=
  removeSpans (js "<!--") (js "-->") 0 t.
Definition removeBlockComments (t : jsstring) : jsstring :=
  removeSpans (js "/*") (js "*/") 0 t.
Definition removeSlashLines (t : jsstring) : jsstring :=
  removeLines isSlashHead true 0 t.
Definition removeHashLines (t : jsstring) : jsstring :=
  removeLines isHashHead true 0 t.

(** The clean-up chain at the end of [stripComments]. *)
Definition cleanUp (t : jsstring) : jsstring :=
  trim (join [LF]
          (List.filter (fun line => negb (isBlank line))
             (map trimEnd (splitLines t)))).

Definition stripComments (text : jsstring) : jsstring :=
  if isEmpty text then []
  else
    cleanUp
      (removeHashLines
         (removeSlashLines (removeBlockComments (removeHtmlComments text)))).

(** *** Predicates for the properties of [stripComments] *)

(** [atLineStart a]: the position behind the prefix [a] of a text is the
    start of a line. *)
Definition atLineStart (a : jsstring) : Prop :=
  a = [] \/ exists a' t, a = a' ++ [t] /\ isLineTerminator t = true.

(** No line of [s] starts, behind optional white space, with the head:
    the line expression of [isHead] has no match in [s].  [bol] tells
    whether [s] itself starts a line. *)
Fixpoint noLineMatch (isHead : jsstring -> bool) (bol : bool) (s : jsstring)
  : Prop :=
  match s with
  | [] => True
  | c :: s' =>
      (bol = true -> isHead (dropWhile isWhiteSpace s) = false)
      /\ noLineMatch isHead (isLineTerminator c) s'
  end.

(** Every line of [s] that starts with the head [h1] also starts with the
    head [h2]. *)
Fixpoint lineMatchCovered (h1 h2 : jsstring -> bool) (bol : bool)
    (s : jsstring) : Prop :=
  match s with
  | [] => True
  | c :: s' =>
      (bol = true ->
       h1 (dropWhile isWhiteSpace s) = false
       \/ h2 (dropWhile isWhiteSpace s) = true)
      /\ lineMatchCovered h1 h2 (isLineTerminator c) s'
  end.

(** A comment head is decided by the first two code units, and a white
    space in second place is as good as the end of the text. *)
Record CommentHead (h : jsstring -> bool) : Prop := {
  head_nil : h [] = false;
  head_two : forall c d x y, h (c :: d :: x) = h (c :: d :: y);
  head_ws : forall c d x, isWhiteSpace d = true -> h (c :: d :: x) = h [c]
}.

(** The text does not end with white space. *)
Definition endsClean (s : jsstring) : Prop :=
  forall c, last s = Some c -> isWhiteSpace c = false.

(** A line of a cleaned text: not empty, without a line feed, ending with
    a character that is not white space. *)
Definition cleanLine (l : jsstring) : Prop :=
  l <> [] /\ Forall (fun c => c <> LF) l /\ endsClean l.

(** The lines of a cleaned text: clean lines, the first of them without
    white space in front. *)
Definition cleanLines (lines : list jsstring) : Prop :=
  Forall cleanLine lines
  /\ match lines with
     | l :: _ => dropWhile isWhiteSpace l = l
     | [] => True
     end.

(** The text is empty or starts with white space. *)
Definition startsBlank (s : jsstring) : Prop :=
  match s with
  | [] => True
  | c :: _ => isWhiteSpace c = true
  end.

(** The lines the clean-up chain keeps. *)
Definition keptLines (t : jsstring) : list jsstring :=
  List.filter (fun line => negb (isBlank line)) (map trimEnd (splitLines t)).

(** The text holds a complete span: the opening marker and, somewhere
    behind it, the closing one.  [hasSpan] decides it. *)
Definition containsSpan (open close s : jsstring) : Prop :=
  exists a b c, s = a ++ open ++ b ++ close ++ c.

Definition hasSpan (open close s : jsstring) : bool :=
  match indexOf open s with
  | Some i =>
      match indexOf close (drop (i + length open) s) with
      | Some _ => true
      | None => false
      end
  | None => false
  end.

(** [spansCut open close s r]: [r] is [s] without its spans, in the
    words of the specification.  A text without a complete span is left
    as it is.  Otherwise the text is [a ++ open ++ b ++ close ++ c],
    with the first opening marker of the text and the first closing
    marker behind it: the span goes, and so do the spans of [c]. *)
Inductive spansCut (open close : jsstring) : jsstring -> jsstring -> Prop :=
| spansCut_none (s : jsstring) :
    ~ containsSpan open close s -> spansCut open close s s
| spansCut_first (a b c r : jsstring) :
    indexOf open (a ++ open ++ b ++ close ++ c) = Some (length a) ->
    indexOf close (b ++ close ++ c) = Some (length b) ->
    spansCut open close c r ->
    spansCut open close (a ++ open ++ b ++ close ++ c) (a ++ r).

(** The text is empty or starts with a line feed or a carriage return. *)
Definition breakStart (s : jsstring) : bool :=
  match s with
  | [] => true
  | c :: _ => (c =? LF) || (c =? CR)
  end.

(** The lines of the text end with a line feed, with carriage returns in
    front of it or without, the last line possibly with carriage returns
    alone: line feed and carriage return are the only line terminators
    of the text, and a carriage return is followed by another one, by a
    line feed or by the end of the text.  Texts with LF and with CR LF
    line ends are of this kind. *)
Fixpoint lineEnds (s : jsstring) : bool :=
  match s with
  | [] => true
  | c :: s' =>
      (negb (isLineTerminator c) || (c =? LF)
       || ((c =? CR) && breakStart s'))
      && lineEnds s'
  end.

(** A line without a line terminator. *)
Definition plainLine (l : jsstring) : Prop :=
  Forall (fun c => isLineTerminator c = false) l.

(** A line as the clean-up chain makes it: without a line feed and
    without white space at its end. *)
Definition tidyLine (l : jsstring) : Prop :=
  Forall (fun c => c <> LF) l /\ endsClean l.

(** A comment line, in the words of the specification: the trimmed
    content of the line starts with [//], or with a [#] that no [!]
    follows. *)
Definition isCommentLine (line : jsstring) : bool :=
  isSlashHead (trim line) || isHashHead (trim line).

(** The lines the specification has the stripper keep: the lines of the
    text, each without the white space at its end, without the blank
    ones and the comment lines, joined by single line feeds, the whole
    trimmed. *)
Definition linesWithoutComments (t : jsstring) : jsstring :=
  trim (join [LF]
          (List.filter
             (fun line => negb (isBlank line) && negb (isCommentLine line))
             (map trimEnd (splitLines t)))).

(** ** [src/lib/textUtils.ts]

    The stand-alone copy of the helpers.  Its [unwrapCodeFence] has the
    code of the one above; its [stripComments] differs in the filter of
    the clean-up chain, which keeps a blank line that follows a line that
    is not blank. *)
Module TextUtils.

Definition unwrapCodeFence (text : jsstring) : jsstring :=
  if isEmpty text then []
  else
    let fence := js "```" in
    match indexOf fence text, lastIndexOf fence text with
    | Some start, Some end_ =>
        if (start <? end_)%nat then
          let inner := slice (start + length fence) end_ text in
          trim (stripLanguageTag inner)
        else trim text
    | _, _ => trim text
    end.

(** [arr.filter((l, i, arr) => l.trim() !== '' ||
    (i > 0 && arr[i - 1].trim() !== ''))]; [prevBlank] is true at
    index 0. *)
Fixpoint filterBlankRuns (prevBlank : bool) (arr : list jsstring)
  : list jsstring :=
  match arr with
  | [] => []
  | l :: arr' =>
      if negb (isBlank l) || negb prevBlank
      then l :: filterBlankRuns (isBlank l) arr'
      else filterBlankRuns (isBlank l) arr'
  end.

Definition stripComments (text : jsstring) : jsstring :=
  if isEmpty text then []
  else
    let out :=
      removeHashLines
        (removeSlashLines (removeBlockComments (removeHtmlComments text)))
    in
    trim (join [LF] (filterBlankRuns true (map trimEnd (splitLines out)))).

End TextUtils.

(** ** Values of [JSON.parse] *)

(** A number keeps its literal: the code under study never computes with
    one. *)
#[local] Unset Elimination Schemes.
Inductive JValue : Type :=
| JNull
| JBool (b : bool)
| JNumber (literal : jsstring)
| JString (s : jsstring)
| JArray (items : list JValue)
| JObject (members : list (jsstring * JValue)).
#[local] Set Elimination Schemes.

(** A later member of an object text overrides an earlier one with the
    same key. *)
Fixpoint lookupLast (key : jsstring) (members : list (jsstring * JValue))
  : option JValue :=
  match members with
  | [] => None
  | (k, v) :: members' =>
      match lookupLast key members' with
      | Some v' => Some v'
      | None => if jsEqb k key then Some v else None
      end
  end.

(** [value?.key] for the keys the code reads ([action], [path],
    [content]): [None] is [undefined].  Only an object can have such a
    property. *)
Definition getProperty (value : JValue) (key : jsstring) : option JValue :=
  match value with
  | JObject members => lookupLast key members
  | _ => None
  end.

(** [typeof v === 'string'], with the string. *)
Definition asString (v : option JValue) : option jsstring :=
  match v with
  | Some (JString s) => Some s
  | _ => None
  end.

(** ** The host: VS Code and the JavaScript runtime *)

(** [vscode.Uri]; the code reads its [path] component only. *)
Record Uri : Type := mkUri { uri_path : jsstring }.

#[global] Instance Uri_eq_dec : EqDecision Uri.
Proof. solve_decision. Defined.

#[global] Instance Uri_countable : Countable Uri.
Proof. apply (inj_countable' uri_path mkUri). by intros []. Defined.

(** [Uint8Array]: the bytes of a file. *)
Abbreviation bytes := (list N).

(** The functions of the host whose code is not part of the repository,
    and the call to the generation backend.
    - [JSON_parse s] is [None] when [JSON.parse(s)] throws;
    - [joinPath base segments] is [vscode.Uri.joinPath(base, ...segments)];
    - [generateResponseForUser prompt model] is [None] when the request
      fails;
    - [TextEncoder_encode s] is [new TextEncoder().encode(s)] and
      [TextDecoder_decode data] is [new TextDecoder().decode(data)]. *)
Class Host : Type := {
  JSON_parse : jsstring -> option JValue;
  joinPath : Uri -> list jsstring -> Uri;
  generateResponseForUser : jsstring -> jsstring -> option jsstring;
  TextEncoder_encode : jsstring -> bytes;
  TextDecoder_decode : bytes -> jsstring
}.

Record Position : Type := mkPosition { line : nat; character : nat }.

Record Selection : Type := mkSelection { anchor : Position; active : Position }.

(** [vscode.TextEditor]: the code reads its [selections]. *)
Record TextEditor : Type := mkTextEditor { selections : list Selection }.

(** The calls on [vscode.workspace.fs]. *)
Inductive FsCall : Type :=
| CreateDirectory (uri : Uri)
| ReadFile (uri : Uri)
| WriteFile (uri : Uri) (content : bytes).

Inductive Severity : Type := Information | Warning | Error.

(** The messages the code shows, by their text in the source. *)
Inductive Message : Type :=
| MsgOpenFileToInsert
    (* 'Please open a file in the editor to insert code.' *)
| MsgNoCodeToInsert
    (* 'No code content to insert.' *)
| MsgInserted (characters : nat)
    (* `Inserted ${n} characters of code.` *)
| MsgNoWorkspace
    (* 'No workspace folder is open. Cannot perform file operations. ...' *)
| MsgNoFilePath
    (* 'No file path specified for file operation.' *)
| MsgRefusedOutsideWorkspace
    (* 'Refused to create file outside the workspace for security reasons.' *)
| MsgCreatedFile (name : jsstring)
    (* `Created file: ${name}` *)
| MsgAppendedTo (name : jsstring)
    (* `Appended content to: ${name}` *)
| MsgNoFileOpen
    (* 'No file is open. Please open a file to insert code.' *)
| MsgNoCodeReceived
    (* 'No code content received from AI.' *)
| MsgEnterPrompt
    (* 'Please enter a prompt before applying.' *)
| MsgGenerationFailed
    (* the text of [formatErrorMessage(error)], for the error of the
       request to the backend *)
| MsgActionFailed (call : FsCall).
    (* the text of [formatErrorMessage(error)], for the error with which
       the call on the file system rejected *)

(** The state the effectful code reads and changes.  [files] holds the
    bytes of every file of the file system.  [rejects] tells which calls
    on [vscode.workspace.fs] reject (a directory in the place of the
    file, a missing permission, a full disk), and [cannotShow] for which
    documents [openTextDocument] or [showTextDocument] rejects; the code
    cannot change either.  [fsCalls], [edits], [notices], [opened] and
    [posted] record, oldest first, the calls on [vscode.workspace.fs],
    the [editBuilder.insert] calls on the active editor, the
    [vscode.window.show...Message] calls, the documents shown, and the
    [applied] messages posted to the webview with their [rawResponse]. *)
Record World : Type := mkWorld {
  activeTextEditor : option TextEditor;
  workspaceFolders : option (list Uri);
  files : gmap Uri bytes;
  rejects : FsCall -> bool;
  cannotShow : Uri -> bool;
  fsCalls : list FsCall;
  edits : list (Position * jsstring);
  notices : list (Severity * Message);
  opened : list Uri;
  posted : list jsstring
}.

Definition setFiles (f : gmap Uri bytes) (w : World) : World :=
  mkWorld (activeTextEditor w) (workspaceFolders w) f (rejects w)
    (cannotShow w) (fsCalls w) (edits w) (notices w) (opened w) (posted w).

Definition logFsCall (c : FsCall) (w : World) : World :=
  mkWorld (activeTextEditor w) (workspaceFolders w) (files w) (rejects w)
    (cannotShow w) (fsCalls w ++ [c]) (edits w) (notices w) (opened w)
    (posted w).

Definition logEdits (e : list (Position * jsstring)) (w : World) : World :=
  mkWorld (activeTextEditor w) (workspaceFolders w) (files w) (rejects w)
    (cannotShow w) (fsCalls w) (edits w ++ e) (notices w) (opened w)
    (posted w).

Definition showMessage (s : Severity) (m : Message) (w : World) : World :=
  mkWorld (activeTextEditor w) (workspaceFolders w) (files w) (rejects w)
    (cannotShow w) (fsCalls w) (edits w) (notices w ++ [(s, m)]) (opened w)
    (posted w).

Definition showInformationMessage := showMessage Information.
Definition showWarningMessage := showMessage Warning.
Definition showErrorMessage := showMessage Error.

(** [openTextDocument] and [showTextDocument], in the [try] of
    [handleFileOperation]: a failure is caught and logged by the code and
    changes nothing else. *)
Definition showTextDocument (uri : Uri) (w : World) : World :=
  if cannotShow w uri then w
  else
    mkWorld (activeTextEditor w) (workspaceFolders w) (files w) (rejects w)
      (cannotShow w) (fsCalls w) (edits w) (notices w) (opened w ++ [uri])
      (posted w).

Definition postMessage (rawResponse : jsstring) (w : World) : World :=
  mkWorld (activeTextEditor w) (workspaceFolders w) (files w) (rejects w)
    (cannotShow w) (fsCalls w) (edits w) (notices w) (opened w)
    (posted w ++ [rawResponse]).

(** How an awaited call ends: it returns, or it throws the error of the
    call on the file system that rejected.  Either way it leaves a
    state. *)
Inductive Completion : Type :=
| Returned (w : World)
| Thrown (call : FsCall) (w : World).

Definition worldOf (c : Completion) : World :=
  match c with
  | Returned w => w
  | Thrown _ w => w
  end.

(** [await c; k]: an error thrown by [c] is thrown on. *)
Definition andThen (c : Completion) (k : World -> Completion) : Completion :=
  match c with
  | Returned w => k w
  | Thrown call w => Thrown call w
  end.

Notation "'await' c 'as' w 'in' k" := (andThen c (fun w => k))
  (at level 10, w name, c at level 100, k at level 200,
   format "'[v' 'await'  c  'as'  w  'in' '/' k ']'").

(** [vscode.workspace.fs.createDirectory], [readFile] and [writeFile].
    [readFile] rejects also when there is no file; its only caller catches
    the error, so the rejected read is [None].  A rejected write changes
    no file. *)
Definition createDirectory (uri : Uri) (w : World) : Completion :=
  let w' := logFsCall (CreateDirectory uri) w in
  if rejects w (CreateDirectory uri) then Thrown (CreateDirectory uri) w'
  else Returned w'.

Definition readFile (uri : Uri) (w : World) : option bytes * World :=
  (if rejects w (ReadFile uri) then None else files w !! uri,
   logFsCall (ReadFile uri) w).

Definition writeFile (uri : Uri) (content : bytes) (w : World)
  : Completion :=
  let w' := logFsCall (WriteFile uri content) w in
  if rejects w (WriteFile uri content) then Thrown (WriteFile uri content) w'
  else Returned (setFiles (<[uri := content]> (files w)) w').

(** [insertTextAtCursors] of [src/utils/textProcessor.ts]. *)
Definition insertTextAtCursors (editor : TextEditor) (text : jsstring)
    (w : World) : World :=
  let textToInsert := if endsWith [LF] text then text else text ++ [LF] in
  logEdits (map (fun selection => (active selection, textToInsert))
              (selections editor)) w.

(** ** [src/services/modelActions.ts] *)

Inductive ActionKind : Type := create_file | append_file | insert_code.

#[global] Instance ActionKind_eq_dec : EqDecision ActionKind.
Proof. solve_decision. Defined.

(** [ModelAction]; an optional field that is absent is [None]. *)
Record ModelAction : Type := mkModelAction {
  action : ActionKind;
  path : option jsstring;
  content : option jsstring
}.

(** [validActions.includes(actionType)], with the member found. *)
Definition validAction (actionType : jsstring) : option ActionKind :=
  if jsEqb actionType (js "create_file") then Some create_file
  else if jsEqb actionType (js "append_file") then Some append_file
  else if jsEqb actionType (js "insert_code") then Some insert_code
  else None.

Definition isSlash (c : N) : bool := (c =? 47) || (c =? 92).

(** [path.replace(/^([/\\])+/, '')]. *)
Definition sanitizeFilePath (path : jsstring) : jsstring :=
  dropWhile isSlash path.

(** [sanitizedPath.split(/[\/\\]+/)]; [inSeparator] holds behind a slash or
    backslash. *)
Fixpoint splitOnSlashes (inSeparator : bool) (s : jsstring)
  : list jsstring :=
  match s with
  | [] => [[]]
  | c :: s' =>
      if isSlash c then
        if inSeparator then splitOnSlashes true s'
        else [] :: splitOnSlashes true s'
      else consHead c (splitOnSlashes false s')
  end.

(** [sanitizedPath.split(/[\/\\]+/).filter(Boolean)]. *)
Definition pathSegmentsOf (sanitizedPath : jsstring) : list jsstring :=
  List.filter (fun segment => negb (isEmpty segment))
    (splitOnSlashes false sanitizedPath).

Definition workspaceRootPath (workspaceRoot : Uri) : jsstring :=
  if endsWith (js "/") (uri_path workspaceRoot)
  then uri_path workspaceRoot
  else uri_path workspaceRoot ++ js "/".

Definition isPathWithinWorkspace (filePath workspaceRoot : Uri) : bool :=
  startsWith (workspaceRootPath workspaceRoot) (uri_path filePath).

(** [s.split('/')]. *)
Fixpoint splitChar (d : N) (s : jsstring) : list jsstring :=
  match s with
  | [] => [[]]
  | c :: s' =>
      if c =? d then [] :: splitChar d s' else consHead c (splitChar d s')
  end.

(** [fileUri.path.split('/').pop()]. *)
Definition fileName (fileUri : Uri) : jsstring :=
  List.last (splitChar 47 (uri_path fileUri)) [].

Definition handleCodeInsertion (content : option jsstring) (w : World)
  : World :=
  match activeTextEditor w with
  | None => showInformationMessage MsgOpenFileToInsert w
  | Some editor =>
      let codeToInsert := default [] content in
      let cleanCode := stripComments (unwrapCodeFence codeToInsert) in
      if isEmpty cleanCode then showWarningMessage MsgNoCodeToInsert w
      else
        let w := insertTextAtCursors editor cleanCode w in
        showInformationMessage (MsgInserted (length cleanCode)) w
  end.

Section ModelActions.
Context `{Host}.

Definition parseModelAction (responseText : jsstring)
  : option ModelAction :=
  let cleanText := trim responseText in
  if isEmpty cleanText then None
  else
    match indexOf (js "{") cleanText, lastIndexOf (js "}") cleanText with
    | Some startBrace, Some endBrace =>
        if (endBrace <=? startBrace)%nat then None
        else
          let jsonCandidate := slice startBrace (endBrace + 1) cleanText in
          match JSON_parse jsonCandidate with
          | None => None
          | Some parsedObject =>
              match asString (getProperty parsedObject (js "action")) with
              | None => None
              | Some actionType =>
                  match validAction actionType with
                  | None => None
                  | Some kind =>
                      Some {|
                        action := kind;
                        path :=
                          asString (getProperty parsedObject (js "path"));
                        content :=
                          asString (getProperty parsedObject (js "content"))
                      |}
                  end
              end
          end
    | _, _ => None
    end.

Definition createNewFile (fileUri : Uri) (content : jsstring) (w : World)
  : Completion :=
  let fileData := TextEncoder_encode content in
  await writeFile fileUri fileData w as w in
  Returned (showInformationMessage (MsgCreatedFile (fileName fileUri)) w).

(** What the [try] of [appendToFile] leaves in [existingContent]. *)
Definition decodeExisting (existingData : option bytes) : jsstring :=
  match existingData with
  | Some data => TextDecoder_decode data
  | None => []
  end.

Definition appendToFile (fileUri : Uri) (content : jsstring) (w : World)
  : Completion :=
  let (existingData, w) := readFile fileUri w in
  let existingContent := decodeExisting existingData in
  let needsNewline :=
    negb (isEmpty existingContent) && negb (endsWith [LF] existingContent) in
  let combinedContent :=
    existingContent ++ (if needsNewline then [LF] else []) ++ content in
  let fileData := TextEncoder_encode combinedContent in
  await writeFile fileUri fileData w as w in
  Returned (showInformationMessage (MsgAppendedTo (fileName fileUri)) w).

(** The text [appendToFile] finds at [target]: what [TextDecoder] makes
    of the bytes [readFile] gives, and nothing when [readFile] rejects, for
    a missing file or otherwise. *)
Definition existingContentOf (w : World) (target : Uri) : jsstring :=
  decodeExisting
    (if rejects w (ReadFile target) then None else files w !! target).

(** The text to write, in the words of the specification: the existing
    text and the content, with one line feed between them unless the
    existing text is empty or ends with one. *)
Definition combinedContentOf (existing added : jsstring) : jsstring :=
  if isEmpty existing || endsWith [LF] existing
  then existing ++ added
  else existing ++ [LF] ++ added.

(** The step of [handleFileOperation] that creates the parent
    directories. *)
Definition parentDirectory (root : Uri) (pathSegments : list jsstring)
    (w : World) : Completion :=
  if (1 <? length pathSegments)%nat
  then createDirectory (joinPath root (removelast pathSegments)) w
  else Returned w.

Definition handleFileOperation (a : ModelAction) (w : World) : Completion :=
  match workspaceFolders w with
  | None | Some [] => Returned (showWarningMessage MsgNoWorkspace w)
  | Some (workspaceRoot :: _) =>
      match path a with
      | None | Some [] => Returned (showWarningMessage MsgNoFilePath w)
      | Some actionPath =>
          let sanitizedPath := sanitizeFilePath actionPath in
          let pathSegments := pathSegmentsOf sanitizedPath in
          let targetFileUri := joinPath workspaceRoot pathSegments in
          if negb (isPathWithinWorkspace targetFileUri workspaceRoot) then
            Returned (showErrorMessage MsgRefusedOutsideWorkspace w)
          else
            await
              (if (1 <? length pathSegments)%nat then
                 let parentDirSegments := removelast pathSegments in
                 createDirectory (joinPath workspaceRoot parentDirSegments) w
               else Returned w) as w in
            await
              match action a with
              | create_file =>
                  createNewFile targetFileUri (default [] (content a)) w
              | append_file =>
                  appendToFile targetFileUri (default [] (content a)) w
              | insert_code => Returned w
              end as w in
            Returned (showTextDocument targetFileUri w)
      end
  end.

Definition executeModelAction (a : ModelAction) (w : World) : Completion :=
  match action a with
  | insert_code => Returned (handleCodeInsertion (content a) w)
  | _ => handleFileOperation a w
  end.

(** ** [src/ui/webviewProvider.ts] *)

Definition insertCodeResponse (response : jsstring) (w : World) : World :=
  match activeTextEditor w with
  | None => showInformationMessage MsgNoFileOpen w
  | Some activeEditor =>
      let cleanedCode := stripComments (unwrapCodeFence response) in
      if isEmpty cleanedCode then showWarningMessage MsgNoCodeReceived w
      else
        let w := insertTextAtCursors activeEditor cleanedCode w in
        showInformationMessage (MsgInserted (length cleanedCode)) w
  end.

(** The [try] of the progress callback: an error thrown by the request
    or by the executor ends in the [catch], which shows it; the message
    to the webview is then not posted. *)
Definition handleUserPrompt (userPrompt modelName : jsstring) (w : World)
  : World :=
  if isEmpty (trim userPrompt) then showWarningMessage MsgEnterPrompt w
  else
    let normalizedPrompt := trim userPrompt in
    match generateResponseForUser normalizedPrompt modelName with
    | None => showErrorMessage MsgGenerationFailed w
    | Some aiResponse =>
        match parseModelAction aiResponse with
        | Some modelAction =>
            match executeModelAction modelAction w with
            | Returned w => postMessage aiResponse w
            | Thrown call w => showErrorMessage (MsgActionFailed call) w
            end
        | None => postMessage aiResponse (insertCodeResponse aiResponse w)
        end
    end.

End ModelActions.

(** ** A reference host

    An executable host for the concrete cases: a parser for the JSON
    grammar (ECMA-404, which [JSON.parse] accepts and nothing more), and
    the POSIX flavour of [Uri.joinPath], which joins the path and the
    segments with [/] and normalises the result ([.] and empty segments
    dropped, [..] resolved). *)
Module ReferenceHost.

Definition isJsonWhiteSpace (c : N) : bool :=
  (c =? 32) || (c =? 9) || (c =? 10) || (c =? 13).

Definition isDigit (c : N) : bool := (48 <=? c) && (c <=? 57).

Definition hexDigit (c : N) : option N :=
  if isDigit c then Some (c - 48)
  else if (97 <=? c) && (c <=? 102) then Some (c - 87)
  else if (65 <=? c) && (c <=? 70) then Some (c - 55)
  else None.

Definition hex4 (a b c d : N) : option N :=
  match hexDigit a, hexDigit b, hexDigit c, hexDigit d with
  | Some a, Some b, Some c, Some d =>
      Some (((a * 16 + b) * 16 + c) * 16 + d)
  | _, _, _, _ => None
  end.

(** The character a one-letter escape stands for. *)
Definition unescape (e : N) : option N :=
  if e =? 34 then Some 34          (* double quote *)
  else if e =? 92 then Some 92     (* backslash *)
  else if e =? 47 then Some 47     (* slash *)
  else if e =? 98 then Some 8      (* b: backspace *)
  else if e =? 102 then Some 12    (* f: form feed *)
  else if e =? 110 then Some 10    (* n: line feed *)
  else if e =? 114 then Some 13    (* r: carriage return *)
  else if e =? 116 then Some 9     (* t: tab *)
  else None.

Definition consChar {B : Type} (c : N) (r : option (jsstring * B))
  : option (jsstring * B) :=
  match r with
  | Some (s, rest) => Some (c :: s, rest)
  | None => None
  end.

(** The text behind an opening quote: the string it denotes and what
    follows the closing quote. *)
Fixpoint parseStringBody (s : jsstring) : option (jsstring * jsstring) :=
  match s with
  | [] => None
  | c :: s' =>
      if c =? 34 then Some ([], s')
      else if c =? 92 then
        match s' with
        | e :: s'' =>
            if e =? 117 then
              match s'' with
              | h1 :: h2 :: h3 :: h4 :: s3 =>
                  match hex4 h1 h2 h3 h4 with
                  | Some u => consChar u (parseStringBody s3)
                  | None => None
                  end
              | _ => None
              end
            else
              match unescape e with
              | Some u => consChar u (parseStringBody s'')
              | None => None
              end
        | [] => None
        end
      else if c <? 32 then None
      else consChar c (parseStringBody s')
  end.

(** [digits+], with the rest. *)
Definition parseDigits (s : jsstring) : option (jsstring * jsstring) :=
  match takeWhile isDigit s with
  | [] => None
  | ds => Some (ds, dropWhile isDigit s)
  end.

Definition parseNumber (s : jsstring) : option (jsstring * jsstring) :=
  let (sign, s1) :=
    match s with
    | c :: s' => if c =? 45 then ([c], s') else ([], s)
    | [] => ([], s)
    end in
  let int :=
    match s1 with
    | c :: s' => if c =? 48 then Some ([c], s') else parseDigits s1
    | [] => None
    end in
  match int with
  | None => None
  | Some (i, s2) =>
      let frac :=
        match s2 with
        | c :: s' =>
            if c =? 46 then
              match parseDigits s' with
              | Some (f, s3) => Some (c :: f, s3)
              | None => None
              end
            else Some ([], s2)
        | [] => Some ([], s2)
        end in
      match frac with
      | None => None
      | Some (f, s3) =>
          let exp :=
            match s3 with
            | c :: s' =>
                if (c =? 101) || (c =? 69) then
                  let (esign, s4) :=
                    match s' with
                    | d :: s'' =>
                        if (d =? 43) || (d =? 45) then ([d], s'')
                        else ([], s')
                    | [] => ([], s')
                    end in
                  match parseDigits s4 with
                  | Some (e, s5) => Some (c :: esign ++ e, s5)
                  | None => None
                  end
                else Some ([], s3)
            | [] => Some ([], s3)
            end in
          match exp with
          | None => None
          | Some (e, s4) => Some (sign ++ i ++ f ++ e, s4)
          end
      end
  end.

Definition skipWs (s : jsstring) : jsstring := dropWhile isJsonWhiteSpace s.

Section Composite.
Variable parseValue : jsstring -> option (JValue * jsstring).

(** Behind an element of an array: [,] and another element, or [[]]]. *)
Fixpoint parseElements (fuel : nat) (s : jsstring)
  : option (list JValue * jsstring) :=
  match fuel with
  | O => None
  | S fuel' =>
      match skipWs s with
      | c :: s' =>
          if c =? 93 then Some ([], s')
          else if c =? 44 then
            match parseValue s' with
            | Some (v, s2) =>
                match parseElements fuel' s2 with
                | Some (vs, s3) => Some (v :: vs, s3)
                | None => None
                end
            | None => None
            end
          else None
      | [] => None
      end
  end.

(** A member [ws string ws : value]. *)
Definition parseMember (s : jsstring)
  : option ((jsstring * JValue) * jsstring) :=
  match skipWs s with
  | c :: s' =>
      if c =? 34 then
        match parseStringBody s' with
        | Some (k, s2) =>
            match skipWs s2 with
            | d :: s3 =>
                if d =? 58 then
                  match parseValue s3 with
                  | Some (v, s4) => Some ((k, v), s4)
                  | None => None
                  end
                else None
            | [] => None
            end
        | None => None
        end
      else None
  | [] => None
  end.

(** Behind a member of an object: [,] and another member, or [}]. *)
Fixpoint parseMembers (fuel : nat) (s : jsstring)
  : option (list (jsstring * JValue) * jsstring) :=
  match fuel with
  | O => None
  | S fuel' =>
      match skipWs s with
      | c :: s' =>
          if c =? 125 then Some ([], s')
          else if c =? 44 then
            match parseMember s' with
            | Some (m, s2) =>
                match parseMembers fuel' s2 with
                | Some (ms, s3) => Some (m :: ms, s3)
                | None => None
                end
            | None => None
            end
          else None
      | [] => None
      end
  end.
End Composite.

Definition parseLiteral (lit : jsstring) (v : JValue) (s : jsstring)
  : option (JValue * jsstring) :=
  if startsWith lit s then Some (v, drop (length lit) s) else None.

(** A value with the white space in front of it, and the rest.  Every
    nested value, element and member consumes a code unit at least, so
    fuel above the length of the text is never used up. *)
Fixpoint parseValue (fuel : nat) (s : jsstring)
  : option (JValue * jsstring) :=
  match fuel with
  | O => None
  | S fuel' =>
      match skipWs s with
      | [] => None
      | c :: s' =>
          if c =? 123 then
            match skipWs s' with
            | d :: s2 =>
                if d =? 125 then Some (JObject [], s2)
                else
                  match parseMember (parseValue fuel') s' with
                  | Some (m, s3) =>
                      match parseMembers (parseValue fuel') fuel' s3 with
                      | Some (ms, s4) => Some (JObject (m :: ms), s4)
                      | None => None
                      end
                  | None => None
                  end
            | [] => None
            end
          else if c =? 91 then
            match skipWs s' with
            | d :: s2 =>
                if d =? 93 then Some (JArray [], s2)
                else
                  match parseValue fuel' s' with
                  | Some (v, s3) =>
                      match parseElements (parseValue fuel') fuel' s3 with
                      | Some (vs, s4) => Some (JArray (v :: vs), s4)
                      | None => None
                      end
                  | None => None
                  end
            | [] => None
            end
          else if c =? 34 then
            match parseStringBody s' with
            | Some (str, s2) => Some (JString str, s2)
            | None => None
            end
          else if startsWith (js "true") (c :: s') then
            parseLiteral (js "true") (JBool true) (c :: s')
          else if startsWith (js "false") (c :: s') then
            parseLiteral (js "false") (JBool false) (c :: s')
          else if startsWith (js "null") (c :: s') then
            parseLiteral (js "null") JNull (c :: s')
          else
            match parseNumber (c :: s') with
            | Some (n, s2) => Some (JNumber n, s2)
            | None => None
            end
      end
  end.

Definition json_parse (s : jsstring) : option JValue :=
  match parseValue (S (length s)) s with
  | Some (v, rest) => if isEmpty (skipWs rest) then Some v else None
  | None => None
  end.

(** [normalizeString] of the path module, on the segments of the path:
    [stack] holds the segments kept so far, last first. *)
Fixpoint normalizeSegments (allowAboveRoot : bool) (stack : list jsstring)
    (segments : list jsstring) : list jsstring :=
  match segments with
  | [] => reverse stack
  | seg :: segments' =>
      if isEmpty seg || jsEqb seg (js ".") then
        normalizeSegments allowAboveRoot stack segments'
      else if jsEqb seg (js "..") then
        match stack with
        | top :: stack' =>
            if jsEqb top (js "..") then
              normalizeSegments allowAboveRoot (seg :: stack) segments'
            else normalizeSegments allowAboveRoot stack' segments'
        | [] =>
            if allowAboveRoot then
              normalizeSegments allowAboveRoot [seg] segments'
            else normalizeSegments allowAboveRoot [] segments'
        end
      else normalizeSegments allowAboveRoot (seg :: stack) segments'
  end.

Definition posixNormalize (p : jsstring) : jsstring :=
  if isEmpty p then js "."
  else
    let isAbsolute := startsWith (js "/") p in
    let trailingSeparator := endsWith (js "/") p in
    let body :=
      join (js "/")
        (normalizeSegments (negb isAbsolute) [] (splitChar 47 p)) in
    if isEmpty body then
      if isAbsolute then js "/"
      else if trailingSeparator then js "./" else js "."
    else
      (if isAbsolute then js "/" else [])
      ++ body ++ (if trailingSeparator then js "/" else []).

Definition posixJoin (parts : list jsstring) : jsstring :=
  let joined :=
    join (js "/") (List.filter (fun p => negb (isEmpty p)) parts) in
  if isEmpty joined then js "." else posixNormalize joined.

Definition posixJoinPath (base : Uri) (segments : list jsstring) : Uri :=
  mkUri (posixJoin (uri_path base :: segments)).

(** [TextEncoder]: UTF-8 of the text, a surrogate without its partner
    replaced by U+FFFD. *)
Definition isHighSurrogate (c : N) : bool := (55296 <=? c) && (c <=? 56319).
Definition isLowSurrogate (c : N) : bool := (56320 <=? c) && (c <=? 57343).

Definition encodeScalar (cp : N) : bytes :=
  if cp <? 128 then [cp]
  else if cp <? 2048 then [192 + cp / 64; 128 + cp mod 64]
  else if cp <? 65536 then
    [224 + cp / 4096; 128 + (cp / 64) mod 64; 128 + cp mod 64]
  else
    [240 + cp / 262144; 128 + (cp / 4096) mod 64; 128 + (cp / 64) mod 64;
     128 + cp mod 64].

Fixpoint utf8Encode (s : jsstring) : bytes :=
  match s with
  | [] => []
  | c :: s' =>
      if isHighSurrogate c then
        match s' with
        | d :: s'' =>
            if isLowSurrogate d then
              encodeScalar (65536 + (c - 55296) * 1024 + (d - 56320))
              ++ utf8Encode s''
            else encodeScalar 65533 ++ utf8Encode s'
        | [] => encodeScalar 65533
        end
      else if isLowSurrogate c then encodeScalar 65533 ++ utf8Encode s'
      else encodeScalar c ++ utf8Encode s'
  end.

(** [TextDecoder]: the UTF-8 decoder of the Encoding standard, which
    replaces what is malformed by U+FFFD, behind a byte order mark that
    is dropped. *)
Record Utf8State : Type := mkUtf8State {
  bytesNeeded : nat;
  codePoint : N;
  lowerBoundary : N;
  upperBoundary : N
}.

Definition utf8Start : Utf8State := mkUtf8State 0 0 128 191.

(** A byte read with no sequence open: the code point it gives, if any,
    and the state behind it. *)
Definition leadByte (b : N) : list N * Utf8State :=
  if b <=? 127 then ([b], utf8Start)
  else if (194 <=? b) && (b <=? 223) then
    ([], mkUtf8State 1 (b mod 32) 128 191)
  else if (224 <=? b) && (b <=? 239) then
    ([], mkUtf8State 2 (b mod 16)
           (if b =? 224 then 160 else 128) (if b =? 237 then 159 else 191))
  else if (240 <=? b) && (b <=? 244) then
    ([], mkUtf8State 3 (b mod 8)
           (if b =? 240 then 144 else 128) (if b =? 244 then 143 else 191))
  else ([65533], utf8Start).

Definition utf8Step (st : Utf8State) (b : N) : list N * Utf8State :=
  match bytesNeeded st with
  | O => leadByte b
  | S k =>
      if (lowerBoundary st <=? b) && (b <=? upperBoundary st) then
        let cp := codePoint st * 64 + b mod 64 in
        match k with
        | O => ([cp], utf8Start)
        | S _ => ([], mkUtf8State k cp 128 191)
        end
      else
        let (out, st') := leadByte b in (65533 :: out, st')
  end.

Fixpoint utf8DecodeFrom (st : Utf8State) (data : bytes) : list N :=
  match data with
  | [] => match bytesNeeded st with O => [] | S _ => [65533] end
  | b :: data' =>
      let (out, st') := utf8Step st b in out ++ utf8DecodeFrom st' data'
  end.

Definition toUtf16 (cp : N) : jsstring :=
  if cp <? 65536 then [cp]
  else [55296 + (cp - 65536) / 1024; 56320 + (cp - 65536) mod 1024].

Definition utf8Decode (data : bytes) : jsstring :=
  let data :=
    match data with
    | 239 :: 187 :: 191 :: data' => data'
    | _ => data
    end in
  concat (map toUtf16 (utf8DecodeFrom utf8Start data)).

(** The backend of the reference host knows no model without a name, and
    answers with the prompt. *)
#[export] Instance referenceHost : Host := {|
  JSON_parse := json_parse;
  joinPath := posixJoinPath;
  generateResponseForUser :=
    fun prompt model => if isEmpty model then None else Some prompt;
  TextEncoder_encode := utf8Encode;
  TextDecoder_decode := utf8Decode
|}.

End ReferenceHost.

Import ReferenceHost.

(** ** Worlds for the concrete cases *)

(** An editor with two cursors, the workspace folder [/ws], and one file,
    [/ws/notes/log.txt], with the text [A].  The folders [/ws] and
    [/ws/notes] cannot be read, written or shown as a file, and no folder
    can be made in the place of the file. *)
Definition sampleEditor : TextEditor :=
  mkTextEditor
    [mkSelection (mkPosition 0 0) (mkPosition 0 0);
     mkSelection (mkPosition 2 4) (mkPosition 3 1)].

Definition sampleRoot : Uri := mkUri (js "/ws").

Definition sampleIsDirectory (uri : Uri) : bool :=
  jsEqb (uri_path uri) (js "/ws") || jsEqb (uri_path uri) (js "/ws/notes").

Definition sampleRejects (call : FsCall) : bool :=
  match call with
  | CreateDirectory uri => jsEqb (uri_path uri) (js "/ws/notes/log.txt")
  | ReadFile uri => sampleIsDirectory uri
  | WriteFile uri _ => sampleIsDirectory uri
  end.

Definition sampleWorld : World :=
  mkWorld (Some sampleEditor) (Some [sampleRoot])
    {[ mkUri (js "/ws/notes/log.txt") := [65] ]}
    sampleRejects sampleIsDirectory [] [] [] [] [].

(** ** [src/ui/webviewProvider.ts]: the summary of a response *)

(** [response.replace(/\\s+/g, ' ')].  The expression of the source is a
    backslash and then one or more letters [s]: each such run becomes one
    space.  [inRun] holds behind the backslash of a match, while its
    letters [s] are passed over. *)
Fixpoint replaceBackslashS (inRun : bool) (s : jsstring) : jsstring :=
  match s with
  | [] => []
  | c :: s' =>
      if inRun && (c =? 115) then replaceBackslashS true s'
      else if (c =? 92) && startsWith [115] s' then
        32 :: replaceBackslashS true s'
      else c :: replaceBackslashS false s'
  end.

Definition summarizeResponse (response : jsstring) : jsstring :=
  let cleaned := trim (replaceBackslashS false response) in
  if (50 <? length cleaned)%nat then take 47 cleaned ++ js "..."
  else cleaned.

(** ** [src/services/llmService.ts] *)

Definition buildPromptForModel (userRequest : jsstring) : jsstring :=
  join [LF]
    [js "You are a VS Code automation agent. Decide the best response format:";
     [];
     js "If the user requests creating or modifying files, respond ONLY with a single JSON object:";
     jsq "{'action':'create_file|append_file|insert_code','path':'relative/path?','content':'string'}";
     js "- create_file: create a new file at path with content";
     js "- append_file: append content to existing file (create if missing)";
     js "- insert_code: insert code into the current editor (no path)";
     js "Rules:";
     js "- Do not include explanations or backticks";
     js "- Use Unix-style forward slashes in paths";
     js "- Keep content exactly as intended (no extra commentary)";
     [];
     js "Otherwise, if the user wants code to paste, reply with ONLY the code (you may use a fenced code block).";
     [];
     js "User request:";
     userRequest].

Section LlmService.
Context `{Host}.

(** What the runtime does with a JSON value that is not a string:
    [jsToString v] is the string [Array.prototype.join] makes of [v], and
    [numberIsZero n] tells whether the number of the literal [n] is
    zero. *)
Variable jsToString : JValue -> jsstring.
Variable numberIsZero : jsstring -> bool.

(** Whether [v || ''] is [v]. *)
Definition isTruthy (v : JValue) : bool :=
  match v with
  | JNull => false
  | JBool b => b
  | JNumber n => negb (numberIsZero n)
  | JString s => negb (isEmpty s)
  | JArray _ | JObject _ => true
  end.

(** One line of a streamed answer, in [callOllamaAPI]:
    [try { return JSON.parse(line).response || '' } catch { return '' }],
    as the string [join('')] makes of it.  Reading a property of [null]
    throws. *)
Definition lineResponse (line : jsstring) : jsstring :=
  match JSON_parse line with
  | None => []
  | Some JNull => []
  | Some parsed =>
      match getProperty parsed (js "response") with
      | Some r =>
          if isTruthy r then
            match r with JString s => s | _ => jsToString r end
          else []
      | None => []
      end
  end.

(** The part of [callOllamaAPI] behind [await response.text()], for a
    response whose status is a success: the answer, or [None] where the
    code throws the error of the unexpected format. *)
Definition parseOllamaResponse (responseText : jsstring) : option jsstring :=
  match
    match JSON_parse responseText with
    | Some jsonResponse => asString (getProperty jsonResponse (js "response"))
    | None => None
    end
  with
  | Some response => Some response
  | None =>
      let lines :=
        List.filter (fun line => negb (isBlank line))
          (splitLines responseText) in
      if (1 <? length lines)%nat then
        let combinedResponse := List.concat (map lineResponse lines) in
        if isEmpty combinedResponse then None else Some combinedResponse
      else None
  end.

End LlmService.

(** ** [src/lib/textUtils.ts]: the prompt *)

Definition buildModelPrompt (user : jsstring) : jsstring :=
  join [LF]
    [js "You are a VS Code automation agent. Decide the best response format:";
     [];
     js "If the user requests creating or modifying files, respond ONLY with a single JSON object:";
     jsq "{'action':'create_file|append_file|insert_code','path':'relative/path?','content':'string'}";
     js "- create_file: create a new file at path with content";
     js "- append_file: append content to existing file (create if missing)";
     js "- insert_code: insert code into the current editor (no path)";
     js "Rules:";
     js "- Do not include explanations or backticks";
     js "- Use Unix-style forward slashes in paths";
     js "- Keep content exactly as intended (no extra commentary)";
     [];
     js "Otherwise, if the user wants code to paste, reply with ONLY the code (you may use a fenced code block).";
     [];
     js "User request:";
     user].

(** * Properties *)

(** ** Strings *)

Lemma jsEqb_eq (a b : jsstring) : jsEqb a b = true <-> a = b.
Proof.
  revert b; induction a as [|x a IH]; intros [|y b]; simpl; try easy.
  rewrite andb_true_iff, N.eqb_eq, IH. split.
  - intros [-> ->]; reflexivity.
  - intros [= -> ->]; auto.
Qed.

Lemma startsWith_spec (pre s : jsstring) :
  startsWith pre s = true <-> exists r, s = pre ++ r.
Proof.
  revert s; induction pre as [|x pre IH]; intros s; simpl.
  - split; eauto.
  - destruct s as [|y s].
    + split; [discriminate | intros [r Hr]; discriminate].
    + rewrite andb_true_iff, N.eqb_eq, IH. split.
      * intros [-> [r ->]]; eauto.
      * intros [r [= -> ->]]; eauto.
Qed.

Lemma startsWith_app (pre r : jsstring) : startsWith pre (pre ++ r) = true.
Proof. apply startsWith_spec; eauto. Qed.

(** No string starts with itself followed by something more. *)
Lemma startsWith_longer (s t : jsstring) (c : N) :
  startsWith (s ++ c :: t) s = false.
Proof.
  apply not_true_is_false; intros [r Hr]%startsWith_spec.
  apply (f_equal length) in Hr. rewrite !length_app in Hr; simpl in Hr. lia.
Qed.

Lemma dropWhile_all (p : N -> bool) (s : jsstring) :
  forallb p s = true -> dropWhile p s = [].
Proof.
  induction s as [|c s IH]; simpl; [reflexivity|].
  intros [-> H]%andb_true_iff; auto.
Qed.

Lemma isLineTerminator_isWhiteSpace (c : N) :
  isLineTerminator c = true -> isWhiteSpace c = true.
Proof.
  unfold isLineTerminator. intros Hc.
  rewrite !orb_true_iff, !N.eqb_eq in Hc.
  destruct Hc as [[[->| ->]| ->]| ->]; reflexivity.
Qed.

Lemma trimEnd_last (s : jsstring) :
  forall c, last (trimEnd s) = Some c -> isWhiteSpace c = false.
Proof.
  induction s as [|d s IH]; simpl; intros c; [discriminate|].
  destruct (trimEnd s) as [|e r] eqn:Hr; simpl.
  - rewrite andb_true_r. destruct (isWhiteSpace d) eqn:Hd; simpl.
    + discriminate.
    + intros [= <-]; exact Hd.
  - rewrite andb_false_r. intros Hc. apply IH. exact Hc.
Qed.

Lemma dropWhile_suffix (p : N -> bool) (s : jsstring) :
  dropWhile p s `suffix_of` s.
Proof.
  induction s as [|c s IH]; simpl; [reflexivity|].
  destruct (p c); [by apply suffix_cons_r | reflexivity].
Qed.

Lemma last_suffix (s t : jsstring) (c : N) :
  t `suffix_of` s -> last t = Some c -> last s = Some c.
Proof.
  intros [k ->] Ht. destruct t as [|d t]; [discriminate|].
  rewrite last_app. rewrite Ht. reflexivity.
Qed.

Lemma trim_last (s : jsstring) :
  forall c, last (trim s) = Some c -> isWhiteSpace c = false.
Proof.
  intros c Hc. apply (trimEnd_last s).
  eapply last_suffix; [apply dropWhile_suffix | exact Hc].
Qed.

Lemma endsWith_char (c : N) (s : jsstring) :
  endsWith [c] s = true <-> last s = Some c.
Proof.
  unfold endsWith. destruct s as [|d s _] using rev_ind.
  - simpl. split; discriminate.
  - rewrite reverse_snoc, last_snoc. simpl.
    change (reverse [c]) with [c]. simpl.
    rewrite andb_true_r, N.eqb_eq. split; [intros ->|intros [= ->]]; auto.
Qed.

Lemma trim_not_endsWith_LF (s : jsstring) : endsWith [LF] (trim s) = false.
Proof.
  apply not_true_is_false. intros Hl%endsWith_char.
  apply trim_last in Hl. discriminate.
Qed.

Lemma stripComments_not_endsWith_LF (text : jsstring) :
  endsWith [LF] (stripComments text) = false.
Proof.
  unfold stripComments. destruct (isEmpty text); [reflexivity|].
  apply trim_not_endsWith_LF.
Qed.

Lemma isEmpty_false (s : jsstring) : isEmpty s = false <-> s <> [].
Proof. destruct s; simpl; split; congruence. Qed.

(** ** The file actions *)

(** The code never changes what the file system accepts. *)
Lemma rejects_logFsCall (c : FsCall) (w : World) :
  rejects (logFsCall c w) = rejects w.
Proof. reflexivity. Qed.

(** One step of a run with its cases: a call that rejects or not, a
    document that can be shown or not. *)
Ltac fs_step :=
  match goal with
  | |- context [if rejects ?w ?c then _ else _] =>
      let R := fresh "Hrej" in destruct (rejects w c) eqn:R
  | |- context [if cannotShow ?w ?u then _ else _] =>
      let R := fresh "Hshow" in destruct (cannotShow w u) eqn:R
  | |- context [if (1 <? ?n)%nat then _ else _] =>
      let R := fresh "Hlen" in destruct (1 <? n)%nat eqn:R
  end.

Ltac fs_simpl :=
  cbn [rejects cannotShow files fsCalls notices opened edits posted
       activeTextEditor workspaceFolders
       logFsCall setFiles showMessage showInformationMessage
       showWarningMessage showErrorMessage worldOf andThen].

Ltac fs_unfold :=
  unfold parentDirectory, createNewFile, appendToFile, createDirectory,
    writeFile, readFile, showTextDocument;
  fs_simpl.

Section FileActions.
Context `{Host}.

Lemma handleFileOperation_refused (a : ModelAction) (p : jsstring)
    (root : Uri) (rest : list Uri) (w : World) :
  workspaceFolders w = Some (root :: rest) ->
  path a = Some p -> p <> [] ->
  isPathWithinWorkspace
    (joinPath root (pathSegmentsOf (sanitizeFilePath p))) root = false ->
  handleFileOperation a w
  = Returned (showErrorMessage MsgRefusedOutsideWorkspace w).
Proof.
  intros Hw Hp Hne Hout. unfold handleFileOperation.
  rewrite Hw, Hp. destruct p as [|c p]; [congruence|].
  rewrite Hout. reflexivity.
Qed.

Lemma executeModelAction_file (a : ModelAction) (w : World) :
  action a <> insert_code ->
  executeModelAction a w = handleFileOperation a w.
Proof. unfold executeModelAction; destruct (action a); congruence. Qed.

(** C1, amended.  A file action with a workspace folder open, whose
    target (the path without its leading slashes and backslashes, split
    on runs of them, empty segments dropped, joined onto the root) does
    not start with the root's path made to end with a separator, or
    whose path is empty: the executor returns after one message, the
    refusal for a path that is not empty and the missing path for the
    empty one, and has done nothing else: no call on the file system, no
    file changed, no document shown. *)
Theorem path_escape_refused_before_io (a : ModelAction) (p : jsstring)
    (root : Uri) (rest : list Uri) (w : World) :
  action a <> insert_code ->
  workspaceFolders w = Some (root :: rest) ->
  path a = Some p ->
  (p <> [] ->
   startsWith (workspaceRootPath root)
     (uri_path (joinPath root (pathSegmentsOf (sanitizeFilePath p))))
   = false) ->
  let w' := worldOf (executeModelAction a w) in
  executeModelAction a w = Returned w'
  /\ (p <> [] ->
      notices w' = notices w ++ [(Error, MsgRefusedOutsideWorkspace)])
  /\ (p = [] -> notices w' = notices w ++ [(Warning, MsgNoFilePath)])
  /\ fsCalls w' = fsCalls w
  /\ files w' = files w
  /\ opened w' = opened w.
Proof.
  intros Ha Hw Hp Hout w'. subst w'.
  rewrite executeModelAction_file by assumption.
  destruct p as [|c p].
  - unfold handleFileOperation. rewrite Hw, Hp.
    repeat split; congruence.
  - rewrite (handleFileOperation_refused a (c :: p) root rest w);
      [|assumption|assumption|discriminate|apply Hout; discriminate].
    repeat split; congruence.
Qed.

(** C10.  A path that is not empty and is made of slashes and
    backslashes only leaves no segment; when joining no segment onto
    the root gives the root, and the root's path does not end with a
    separator, the target is the root and the executor refuses it
    without any call on the file system, and returns. *)
Theorem separator_only_path_refused (a : ModelAction) (p : jsstring)
    (root : Uri) (rest : list Uri) (w : World) :
  action a <> insert_code ->
  workspaceFolders w = Some (root :: rest) ->
  path a = Some p -> p <> [] ->
  forallb isSlash p = true ->
  endsWith (js "/") (uri_path root) = false ->
  joinPath root [] = root ->
  let w' := worldOf (executeModelAction a w) in
  sanitizeFilePath p = []
  /\ pathSegmentsOf (sanitizeFilePath p) = []
  /\ joinPath root (pathSegmentsOf (sanitizeFilePath p)) = root
  /\ notices w' = notices w ++ [(Error, MsgRefusedOutsideWorkspace)]
  /\ fsCalls w' = fsCalls w
  /\ files w' = files w
  /\ executeModelAction a w = Returned w'.
Proof.
  intros Ha Hw Hp Hne Hall Hend Hjoin w'. subst w'.
  assert (Hs : sanitizeFilePath p = [])
    by (apply dropWhile_all; assumption).
  rewrite Hs. change (pathSegmentsOf []) with (@nil jsstring).
  rewrite Hjoin.
  assert (Hout : isPathWithinWorkspace
            (joinPath root (pathSegmentsOf (sanitizeFilePath p))) root
            = false).
  { rewrite Hs. change (pathSegmentsOf []) with (@nil jsstring).
    rewrite Hjoin. unfold isPathWithinWorkspace, workspaceRootPath.
    rewrite Hend. apply startsWith_longer. }
  rewrite executeModelAction_file by assumption.
  rewrite (handleFileOperation_refused a p root rest w) by assumption.
  repeat split.
Qed.

(** The steps of [handleFileOperation] for a target in the workspace. *)
Lemma handleFileOperation_inside (a : ModelAction) (p : jsstring)
    (root : Uri) (rest : list Uri) (w : World) :
  workspaceFolders w = Some (root :: rest) ->
  path a = Some p -> p <> [] ->
  let pathSegments := pathSegmentsOf (sanitizeFilePath p) in
  let target := joinPath root pathSegments in
  isPathWithinWorkspace target root = true ->
  handleFileOperation a w =
  await parentDirectory root pathSegments w as w in
  await
    match action a with
    | create_file => createNewFile target (default [] (content a)) w
    | append_file => appendToFile target (default [] (content a)) w
    | insert_code => Returned w
    end as w in
  Returned (showTextDocument target w).
Proof.
  intros Hw Hp Hne pathSegments target Hin. unfold handleFileOperation.
  rewrite Hw, Hp. destruct p as [|c p]; [congruence|].
  fold pathSegments. fold target. rewrite Hin. reflexivity.
Qed.

Lemma appendToFile_run (fileUri : Uri) (added : jsstring) (w : World) :
  let data :=
    TextEncoder_encode
      (combinedContentOf (existingContentOf w fileUri) added) in
  appendToFile fileUri added w =
  await writeFile fileUri data (logFsCall (ReadFile fileUri) w) as w in
  Returned (showInformationMessage (MsgAppendedTo (fileName fileUri)) w).
Proof.
  unfold appendToFile, readFile, existingContentOf, combinedContentOf.
  cbv zeta.
  destruct (isEmpty (decodeExisting _)), (endsWith [LF] (decodeExisting _));
    reflexivity.
Qed.

(** The ways [handleFileOperation] can go. *)
Lemma handleFileOperation_cases (a : ModelAction) (w : World) :
  (exists m, handleFileOperation a w = Returned (showMessage Warning m w))
  \/ handleFileOperation a w
     = Returned (showErrorMessage MsgRefusedOutsideWorkspace w)
  \/ exists p root rest,
       workspaceFolders w = Some (root :: rest)
       /\ path a = Some p /\ p <> []
       /\ isPathWithinWorkspace
            (joinPath root (pathSegmentsOf (sanitizeFilePath p))) root = true.
Proof.
  destruct (workspaceFolders w) as [[|root rest]|] eqn:Hw;
    try (left; exists MsgNoWorkspace; unfold handleFileOperation;
         rewrite Hw; reflexivity).
  destruct (path a) as [[|c p]|] eqn:Hp;
    try (left; exists MsgNoFilePath; unfold handleFileOperation;
         rewrite Hw, Hp; reflexivity).
  destruct (isPathWithinWorkspace
              (joinPath root (pathSegmentsOf (sanitizeFilePath (c :: p))))
              root) eqn:Hin.
  - right; right. exists (c :: p), root, rest.
    repeat split; auto; discriminate.
  - right; left.
    apply (handleFileOperation_refused a (c :: p) root rest w);
      auto; discriminate.
Qed.

(** The run of a file action on a target in the workspace, step by step:
    the parent directory, the write, the message, the document. *)
Lemma fileAction_run (a : ModelAction) (p : jsstring)
    (root : Uri) (rest : list Uri) (w : World) :
  action a <> insert_code ->
  workspaceFolders w = Some (root :: rest) ->
  path a = Some p -> p <> [] ->
  let pathSegments := pathSegmentsOf (sanitizeFilePath p) in
  let target := joinPath root pathSegments in
  let parent := joinPath root (removelast pathSegments) in
  let mkdir :=
    if (1 <? length pathSegments)%nat then [CreateDirectory parent] else [] in
  let text := default [] (content a) in
  let reads :=
    match action a with append_file => [ReadFile target] | _ => [] end in
  let data :=
    match action a with
    | append_file =>
        TextEncoder_encode
          (combinedContentOf (existingContentOf w target) text)
    | _ => TextEncoder_encode text
    end in
  let message :=
    match action a with
    | append_file => MsgAppendedTo (fileName target)
    | _ => MsgCreatedFile (fileName target)
    end in
  let w1 :=
    mkWorld (activeTextEditor w) (workspaceFolders w) (files w) (rejects w)
      (cannotShow w) (fsCalls w ++ mkdir) (edits w) (notices w) (opened w)
      (posted w) in
  let w2 :=
    mkWorld (activeTextEditor w) (workspaceFolders w) (files w) (rejects w)
      (cannotShow w) (fsCalls w ++ mkdir ++ reads ++ [WriteFile target data])
      (edits w) (notices w) (opened w) (posted w) in
  let w3 :=
    mkWorld (activeTextEditor w) (workspaceFolders w)
      (<[target := data]> (files w)) (rejects w) (cannotShow w)
      (fsCalls w ++ mkdir ++ reads ++ [WriteFile target data])
      (edits w) (notices w ++ [(Information, message)])
      (opened w ++ (if cannotShow w target then [] else [target]))
      (posted w) in
  isPathWithinWorkspace target root = true ->
  executeModelAction a w =
  if existsb (rejects w) mkdir then Thrown (CreateDirectory parent) w1
  else if rejects w (WriteFile target data)
       then Thrown (WriteFile target data) w2
       else Returned w3.
Proof.
  intros Ha Hw Hp Hne pathSegments target parent mkdir text reads data
    message w1 w2 w3 Hin.
  rewrite executeModelAction_file by assumption.
  rewrite (handleFileOperation_inside a p root rest w) by assumption.
  fold pathSegments target text.
  subst w1 w2 w3 mkdir reads data message.
  unfold parentDirectory, createDirectory. fold parent.
  assert (Hwrite : forall (data : bytes) (message : Message) (calls : list FsCall),
    (await
       (await writeFile target data
                (mkWorld (activeTextEditor w) (workspaceFolders w) (files w)
                   (rejects w) (cannotShow w) (fsCalls w ++ calls) (edits w)
                   (notices w) (opened w) (posted w)) as w0 in
        Returned (showInformationMessage message w0)) as w0 in
     Returned (showTextDocument target w0))
    = if rejects w (WriteFile target data)
      then Thrown (WriteFile target data)
             (mkWorld (activeTextEditor w) (workspaceFolders w) (files w)
                (rejects w) (cannotShow w)
                (fsCalls w ++ calls ++ [WriteFile target data]) (edits w)
                (notices w) (opened w) (posted w))
      else Returned
             (mkWorld (activeTextEditor w) (workspaceFolders w)
                (<[target := data]> (files w)) (rejects w) (cannotShow w)
                (fsCalls w ++ calls ++ [WriteFile target data]) (edits w)
                (notices w ++ [(Information, message)])
                (opened w ++ (if cannotShow w target then [] else [target]))
                (posted w))).
  { intros data message calls.
    unfold writeFile, showTextDocument, showInformationMessage, showMessage,
      setFiles, logFsCall.
    fs_simpl.
    destruct (rejects w (WriteFile target data)); fs_simpl.
    - rewrite <- app_assoc. reflexivity.
    - destruct (cannotShow w target);
        rewrite <- ?app_assoc, ?app_nil_r; reflexivity. }
  assert (Hw0 : w = mkWorld (activeTextEditor w) (workspaceFolders w)
                      (files w) (rejects w) (cannotShow w) (fsCalls w ++ [])
                      (edits w) (notices w) (opened w) (posted w)).
  { rewrite app_nil_r. destruct w; reflexivity. }
  destruct (action a) eqn:Hact; [| |congruence].
  - unfold createNewFile.
    destruct (1 <? length pathSegments)%nat; cbn [existsb].
    + destruct (rejects w (CreateDirectory parent)) eqn:Hmk; cbn [orb];
        fs_simpl; [reflexivity|].
      apply (Hwrite (TextEncoder_encode text) _ [CreateDirectory parent]).
    + pose proof (Hwrite (TextEncoder_encode text)
                    (MsgCreatedFile (fileName target)) []) as Hrun.
      rewrite <- Hw0 in Hrun. cbn [andThen app]. exact Hrun.
  - destruct (1 <? length pathSegments)%nat; cbn [existsb].
    + destruct (rejects w (CreateDirectory parent)) eqn:Hmk; cbn [orb];
        fs_simpl; [reflexivity|].
      rewrite appendToFile_run. unfold existingContentOf. fs_simpl.
      fold (existingContentOf w target).
      unfold logFsCall. fs_simpl. rewrite <- app_assoc.
      apply (Hwrite _ _ [CreateDirectory parent; ReadFile target]).
    + cbn [andThen app]. rewrite appendToFile_run.
      unfold logFsCall at 1.
      apply (Hwrite _ _ [ReadFile target]).
Qed.

(** C8, amended.  An [append_file] action whose target lies in the
    workspace.  The text [E] the code finds is what [TextDecoder] makes
    of the bytes at the target, and nothing when there is no file or it
    cannot be read.  The bytes it hands to [writeFile] are those of [E]
    followed by the content when [E] is empty or ends with a line feed,
    and of [E], one line feed and the content otherwise.  When the file
    system accepts the calls, these are the bytes of the file, no other
    file has changed and the extension reports the file appended to;
    when it rejects the directory or the write, the executor throws, no
    file has changed and nothing is reported.  So for [B] appended to no
    file the file is [B], and for [B] appended to a file read as [A] it
    is [A], a line feed, [B]. *)
Theorem append_file_result (a : ModelAction) (p : jsstring)
    (root : Uri) (rest : list Uri) (w : World) :
  action a = append_file ->
  workspaceFolders w = Some (root :: rest) ->
  path a = Some p -> p <> [] ->
  let pathSegments := pathSegmentsOf (sanitizeFilePath p) in
  let target := joinPath root pathSegments in
  let parent := joinPath root (removelast pathSegments) in
  let mkdir :=
    if (1 <? length pathSegments)%nat then [CreateDirectory parent] else [] in
  let added := default [] (content a) in
  let E := existingContentOf w target in
  let data := TextEncoder_encode (combinedContentOf E added) in
  let w' := worldOf (executeModelAction a w) in
  isPathWithinWorkspace target root = true ->
  (existsb (rejects w) mkdir = false ->
   rejects w (WriteFile target data) = false ->
   executeModelAction a w = Returned w'
   /\ files w' = <[target := data]> (files w)
   /\ fsCalls w'
      = fsCalls w ++ mkdir ++ [ReadFile target; WriteFile target data]
   /\ notices w'
      = notices w ++ [(Information, MsgAppendedTo (fileName target))])
  /\ (existsb (rejects w) mkdir = true
      \/ rejects w (WriteFile target data) = true ->
      (exists call, executeModelAction a w = Thrown call w')
      /\ files w' = files w
      /\ notices w' = notices w
      /\ opened w' = opened w)
  /\ (files w !! target = None \/ rejects w (ReadFile target) = true ->
      E = [] /\ data = TextEncoder_encode added)
  /\ (forall existing,
        files w !! target = Some existing ->
        rejects w (ReadFile target) = false ->
        E = TextDecoder_decode existing)
  /\ (E = [] -> added = js "B" -> data = TextEncoder_encode (js "B"))
  /\ (E = js "A" -> added = js "B" ->
      data = TextEncoder_encode (js "A" ++ [LF] ++ js "B")).
Proof.
  intros Ha Hw Hp Hne pathSegments target parent mkdir added E data w' Hin.
  subst w'.
  rewrite (fileAction_run a p root rest w) by (assumption || congruence).
  fold pathSegments target parent mkdir. rewrite Ha.
  fold added E data. cbv zeta.
  split; [|split; [|split; [|split; [|split]]]].
  - intros -> ->. cbn [worldOf files fsCalls notices]. repeat split.
  - intros [Hmk|Hwr].
    + rewrite Hmk. cbn [worldOf files notices opened]. eauto.
    + destruct (existsb _ _); [cbn [worldOf files notices opened]; eauto|].
      rewrite Hwr. cbn [worldOf files notices opened]. eauto.
  - intros Hno. assert (HE : E = []).
    { subst E. unfold existingContentOf.
      destruct Hno as [-> | ->];
        [destruct (rejects w (ReadFile target))|]; reflexivity. }
    split; [exact HE|]. subst data. rewrite HE. reflexivity.
  - intros existing Hsome Hread. subst E. unfold existingContentOf.
    rewrite Hread, Hsome. reflexivity.
  - intros HE ->. subst data. rewrite HE. reflexivity.
  - intros HE ->. subst data. rewrite HE. reflexivity.
Qed.

End FileActions.

(** The claim C1 as the specification states it, for every path string,
    fails at the empty path: the target is the root, which does not start
    with the root's path and a separator, and the executor reports the
    missing path, not a path escape.  It does so without any call on the
    file system. *)
Lemma path_escape_not_reported_for_empty_path :
  let a := mkModelAction create_file (Some []) (Some (js "x")) in
  let w' := worldOf (executeModelAction a sampleWorld) in
  workspaceFolders sampleWorld = Some [sampleRoot]
  /\ startsWith (workspaceRootPath sampleRoot)
       (uri_path (joinPath sampleRoot (pathSegmentsOf (sanitizeFilePath []))))
     = false
  /\ notices w' = [(Warning, MsgNoFilePath)]
  /\ notices w' <> [(Error, MsgRefusedOutsideWorkspace)]
  /\ fsCalls w' = []
  /\ files w' = files sampleWorld
  /\ opened w' = [].
Proof. repeat split; discriminate. Qed.

Lemma path_escape_refused_before_io_witness :
  let escaping :=
    mkModelAction create_file (Some (js "/../outside.txt")) (Some (js "x")) in
  let pathless := mkModelAction append_file (Some []) (Some (js "x")) in
  let w1 := worldOf (executeModelAction escaping sampleWorld) in
  let w2 := worldOf (executeModelAction pathless sampleWorld) in
  (executeModelAction escaping sampleWorld = Returned w1
   /\ notices w1 = notices sampleWorld ++ [(Error, MsgRefusedOutsideWorkspace)]
   /\ fsCalls w1 = fsCalls sampleWorld
   /\ files w1 = files sampleWorld
   /\ opened w1 = opened sampleWorld)
  /\ (executeModelAction pathless sampleWorld = Returned w2
      /\ notices w2 = notices sampleWorld ++ [(Warning, MsgNoFilePath)]
      /\ fsCalls w2 = fsCalls sampleWorld
      /\ files w2 = files sampleWorld
      /\ opened w2 = opened sampleWorld).
Proof.
  intros escaping pathless w1 w2. split.
  - assert (Hout : js "/../outside.txt" <> [] ->
        startsWith (workspaceRootPath sampleRoot)
          (uri_path
             (joinPath sampleRoot
                (pathSegmentsOf (sanitizeFilePath (js "/../outside.txt")))))
        = false) by (intros _; vm_compute; reflexivity).
    destruct (@path_escape_refused_before_io referenceHost escaping
                (js "/../outside.txt") sampleRoot [] sampleWorld
                ltac:(discriminate) eq_refl eq_refl Hout)
      as (Hr & Hn & _ & Hc & Hf & Ho).
    exact (conj Hr (conj (Hn ltac:(discriminate)) (conj Hc (conj Hf Ho)))).
  - destruct (@path_escape_refused_before_io referenceHost pathless
                [] sampleRoot [] sampleWorld
                ltac:(discriminate) eq_refl eq_refl
                ltac:(intros Hne; congruence))
      as (Hr & _ & Hn & Hc & Hf & Ho).
    exact (conj Hr (conj (Hn eq_refl) (conj Hc (conj Hf Ho)))).
Defined.

Lemma separator_only_path_refused_witness :
  let a := mkModelAction append_file (Some (js "/\/")) (Some (js "x")) in
  let w' := worldOf (executeModelAction a sampleWorld) in
  sanitizeFilePath (js "/\/") = []
  /\ pathSegmentsOf (sanitizeFilePath (js "/\/")) = []
  /\ joinPath sampleRoot (pathSegmentsOf (sanitizeFilePath (js "/\/")))
     = sampleRoot
  /\ notices w' = notices sampleWorld ++ [(Error, MsgRefusedOutsideWorkspace)]
  /\ fsCalls w' = fsCalls sampleWorld
  /\ files w' = files sampleWorld
  /\ executeModelAction a sampleWorld = Returned w'.
Proof.
  intros a.
  apply (@separator_only_path_refused referenceHost a (js "/\/")
           sampleRoot [] sampleWorld).
  - discriminate.
  - reflexivity.
  - reflexivity.
  - discriminate.
  - reflexivity.
  - reflexivity.
  - reflexivity.
Defined.

(** The claim C8 as the specification states it, for every existing
    content, fails for a file that starts with a byte order mark:
    [TextDecoder] drops the mark, so the file the executor itself has
    created with the content U+FEFF [A] holds, after [B] is appended,
    the bytes of [A], a line feed and [B], and not those of the
    existing content, a line feed and [B]. *)
Lemma append_file_drops_byte_order_mark :
  let E := [65279; 65] in
  let create := mkModelAction create_file (Some (js "bom.txt")) (Some E) in
  let append :=
    mkModelAction append_file (Some (js "bom.txt")) (Some (js "B")) in
  let target := mkUri (js "/ws/bom.txt") in
  let w1 := worldOf (executeModelAction create sampleWorld) in
  let w2 := worldOf (executeModelAction append w1) in
  files w1 !! target = Some (TextEncoder_encode E)
  /\ TextEncoder_encode E = [239; 187; 191; 65]
  /\ executeModelAction append w1 = Returned w2
  /\ files w2 !! target = Some (TextEncoder_encode (js "A" ++ [LF] ++ js "B"))
  /\ files w2 !! target <> Some (TextEncoder_encode (E ++ [LF] ++ js "B")).
Proof.
  intros E create append target w1 w2.
  assert (H1 : files w1 !! target = Some (TextEncoder_encode E))
    by (vm_compute; reflexivity).
  assert (H2 : files w2 !! target
               = Some (TextEncoder_encode (js "A" ++ [LF] ++ js "B")))
    by (vm_compute; reflexivity).
  split; [exact H1|]. split; [vm_compute; reflexivity|].
  split; [vm_compute; reflexivity|]. split; [exact H2|].
  rewrite H2. vm_compute. discriminate.
Qed.

Lemma append_file_result_witness :
  let a :=
    mkModelAction append_file (Some (js "notes/log.txt")) (Some (js "B")) in
  let target := mkUri (js "/ws/notes/log.txt") in
  let w' := worldOf (executeModelAction a sampleWorld) in
  executeModelAction a sampleWorld = Returned w'
  /\ files w' = <[target := js "A" ++ [LF] ++ js "B"]> (files sampleWorld)
  /\ fsCalls w'
     = [CreateDirectory (mkUri (js "/ws/notes")); ReadFile target;
        WriteFile target (js "A" ++ [LF] ++ js "B")]
  /\ notices w' = [(Information, MsgAppendedTo (js "log.txt"))].
Proof.
  intros a target w'.
  pose proof (@append_file_result referenceHost a (js "notes/log.txt")
                sampleRoot [] sampleWorld eq_refl eq_refl eq_refl
                ltac:(discriminate)) as Hthm.
  cbv zeta in Hthm.
  destruct (Hthm ltac:(vm_compute; reflexivity)) as (Hok & _).
  apply Hok; vm_compute; reflexivity.
Defined.

(** ** Insertion and dispatch *)

Section Dispatch.
Context `{Host}.

(** What both insertion paths do with a cleaned text that is not empty:
    the same text, the cleaned text and one line feed, at the active
    end of every selection. *)
Lemma insertTextAtCursors_clean (editor : TextEditor) (text : jsstring)
    (w : World) :
  let c := stripComments text in
  edits (insertTextAtCursors editor c w) =
  edits w
  ++ map (fun selection => (active selection, c ++ [LF]))
       (selections editor).
Proof.
  intros c. unfold insertTextAtCursors. subst c.
  rewrite stripComments_not_endsWith_LF. reflexivity.
Qed.

(** C9.  An [insert_code] action with an active editor: when the
    content cleans to a text [c] that is not empty, the executor inserts
    at every selection the same text, [c] and one line feed ([c] itself
    never ends with one), and calls nothing on the file system; when
    [c] is empty it inserts nothing and warns that there is no code.
    Either way the executor returns. *)
Theorem insert_code_result (a : ModelAction) (editor : TextEditor)
    (w : World) :
  action a = insert_code ->
  activeTextEditor w = Some editor ->
  let c := stripComments (unwrapCodeFence (default [] (content a))) in
  let w' := worldOf (executeModelAction a w) in
  (c <> [] ->
     edits w' =
       edits w
       ++ map (fun selection => (active selection, c ++ [LF]))
            (selections editor)
     /\ endsWith [LF] c = false
     /\ fsCalls w' = fsCalls w)
  /\ (c = [] ->
      edits w' = edits w
      /\ notices w' = notices w ++ [(Warning, MsgNoCodeToInsert)])
  /\ executeModelAction a w = Returned w'.
Proof.
  intros Ha He c w'. subst w'.
  unfold executeModelAction, handleCodeInsertion. rewrite Ha, He.
  fold c. split; [|split].
  - intros Hc%isEmpty_false. rewrite Hc. split; [|split].
    + apply (insertTextAtCursors_clean editor _ w).
    + apply stripComments_not_endsWith_LF.
    + reflexivity.
  - intros Hc. rewrite Hc. split; reflexivity.
  - destruct (isEmpty c); reflexivity.
Qed.

(** C2.  With a prompt that is not blank and a response [raw] of the
    backend: when [parseModelAction raw] is nothing the handler does
    what [insertCodeResponse raw] does, which with an active editor and
    a text [stripComments (unwrapCodeFence raw)] that is not empty
    inserts that text (and the line feed that ends an insertion) at
    every selection and reports its length, and in every case calls
    nothing on the file system and changes no file; when
    [parseModelAction raw] is an action, that action is what the
    executor is run on: when it returns, the handler posts the response
    to the webview as in the other case, and when it throws, the handler
    shows the error. *)
Theorem response_dispatch (userPrompt modelName raw : jsstring)
    (w : World) :
  isEmpty (trim userPrompt) = false ->
  generateResponseForUser (trim userPrompt) modelName = Some raw ->
  let w' := handleUserPrompt userPrompt modelName w in
  let text := stripComments (unwrapCodeFence raw) in
  match parseModelAction raw with
  | None =>
      w' = postMessage raw (insertCodeResponse raw w)
      /\ fsCalls w' = fsCalls w
      /\ files w' = files w
      /\ opened w' = opened w
      /\ (forall editor,
            activeTextEditor w = Some editor -> text <> [] ->
            edits w' =
              edits w
              ++ map (fun selection => (active selection, text ++ [LF]))
                   (selections editor)
            /\ notices w' =
                 notices w ++ [(Information, MsgInserted (length text))])
      /\ (text = [] -> edits w' = edits w)
  | Some modelAction =>
      w' = match executeModelAction modelAction w with
           | Returned w1 => postMessage raw w1
           | Thrown call w1 => showErrorMessage (MsgActionFailed call) w1
           end
  end.
Proof.
  intros Hp Hg w' text. subst w'. unfold handleUserPrompt.
  rewrite Hp, Hg. destruct (parseModelAction raw) as [modelAction|];
    [reflexivity|].
  split; [reflexivity|]. unfold insertCodeResponse. fold text.
  destruct (activeTextEditor w) as [activeEditor|] eqn:He.
  - destruct (isEmpty text) eqn:Ht.
    + split; [reflexivity|]. split; [reflexivity|].
      split; [reflexivity|]. split; [|reflexivity].
      intros editor _ Hne. destruct text; [congruence|discriminate].
    + split; [reflexivity|]. split; [reflexivity|].
      split; [reflexivity|]. split.
      * intros editor [= <-] _. split; [|reflexivity]. simpl.
        apply (insertTextAtCursors_clean activeEditor _ w).
      * intros Hnil. rewrite Hnil in Ht. discriminate.
  - split; [reflexivity|]. split; [reflexivity|].
    split; [reflexivity|]. split; [|reflexivity].
    intros editor [=].
Qed.

End Dispatch.

Lemma insert_code_result_witness :
  let fenced := js "```ts" ++ [LF] ++ js "let a = 5;  " ++ [LF] ++ js "```" in
  let a := mkModelAction insert_code None (Some fenced) in
  let w' := worldOf (executeModelAction a sampleWorld) in
  edits w' =
    [(mkPosition 0 0, js "let a = 5;" ++ [LF]);
     (mkPosition 3 1, js "let a = 5;" ++ [LF])].
Proof.
  intros fenced a.
  apply (proj1 (@insert_code_result referenceHost a sampleEditor sampleWorld
                  eq_refl eq_refl)).
  discriminate.
Defined.

Lemma response_dispatch_witness :
  let raw := js "```" ++ [LF] ++ js "x = 1 // one" ++ [LF] ++ js "```" in
  handleUserPrompt raw (js "llama3.2:latest") sampleWorld =
  postMessage raw (insertCodeResponse raw sampleWorld).
Proof.
  intros raw.
  pose proof (@response_dispatch referenceHost raw (js "llama3.2:latest") raw
                sampleWorld eq_refl eq_refl) as Hd.
  assert (Hp : @parseModelAction referenceHost raw = None)
    by (vm_compute; reflexivity).
  cbv zeta in Hd. rewrite Hp in Hd. exact (proj1 Hd).
Defined.

(** ** The action parser *)

Lemma asString_Some (v : option JValue) (s : jsstring) :
  asString v = Some s <-> v = Some (JString s).
Proof.
  destruct v as [[]|]; simpl; split; intros Hv; try discriminate;
    inversion Hv; reflexivity.
Qed.

Lemma asString_None (v : option JValue) :
  asString v = None <-> forall s, v <> Some (JString s).
Proof.
  destruct v as [[]|]; simpl; split; try discriminate; try reflexivity;
    try (intros Hs; exfalso; eapply Hs; reflexivity);
    intros [=].
Qed.

Lemma validAction_Some (tag : jsstring) (kind : ActionKind) :
  validAction tag = Some kind ->
  tag = js "create_file" /\ kind = create_file
  \/ tag = js "append_file" /\ kind = append_file
  \/ tag = js "insert_code" /\ kind = insert_code.
Proof.
  unfold validAction.
  destruct (jsEqb tag (js "create_file")) eqn:H1;
    [apply jsEqb_eq in H1; intros [= <-]; auto|].
  destruct (jsEqb tag (js "append_file")) eqn:H2;
    [apply jsEqb_eq in H2; intros [= <-]; auto|].
  destruct (jsEqb tag (js "insert_code")) eqn:H3;
    [apply jsEqb_eq in H3; intros [= <-]; auto|].
  discriminate.
Qed.

Lemma validAction_None (tag : jsstring) :
  validAction tag = None ->
  tag <> js "create_file" /\ tag <> js "append_file"
  /\ tag <> js "insert_code".
Proof.
  unfold validAction.
  destruct (jsEqb tag (js "create_file")) eqn:H1; [discriminate|].
  destruct (jsEqb tag (js "append_file")) eqn:H2; [discriminate|].
  destruct (jsEqb tag (js "insert_code")) eqn:H3; [discriminate|].
  intros _. repeat split; intros ->; discriminate.
Qed.

(** Trimming a text whose middle part starts and ends with characters
    that are not white space. *)
Lemma dropWhile_app_stop (p : N -> bool) (a : jsstring) (c : N)
    (b : jsstring) :
  p c = false -> dropWhile p (a ++ c :: b) = dropWhile p a ++ c :: b.
Proof.
  intros Hc. induction a as [|x a IH]; simpl.
  - rewrite Hc. reflexivity.
  - destruct (p x); [exact IH | reflexivity].
Qed.

Lemma trimEnd_app_stop (a : jsstring) (c : N) (b : jsstring) :
  isWhiteSpace c = false -> trimEnd (a ++ c :: b) = a ++ c :: trimEnd b.
Proof.
  intros Hc. induction a as [|x a IH]; simpl.
  - rewrite Hc. reflexivity.
  - rewrite IH. destruct a; simpl; rewrite andb_false_r; reflexivity.
Qed.

Lemma Forall_dropWhile (P : N -> Prop) (p : N -> bool) (s : jsstring) :
  Forall P s -> Forall P (dropWhile p s).
Proof.
  intros Hs. eapply Forall_impl with (P := P); [|auto].
  destruct (dropWhile_suffix p s) as [k Hk]. rewrite Hk in Hs.
  apply Forall_app in Hs. tauto.
Qed.

Lemma Forall_trimEnd (P : N -> Prop) (s : jsstring) :
  Forall P s -> Forall P (trimEnd s).
Proof.
  induction 1 as [|c s Hc Hs IH]; simpl; [constructor|].
  destruct (isWhiteSpace c && isEmpty (trimEnd s)); constructor; assumption.
Qed.

Lemma startsWith_char_absent (c : N) (s : jsstring) :
  Forall (fun x => x <> c) s -> forall r, startsWith [c] (s ++ r) = true ->
  s = [].
Proof.
  intros Hs r. destruct s as [|x s]; [reflexivity|]. simpl.
  apply Forall_cons in Hs as [Hx _].
  rewrite andb_true_r, N.eqb_eq. congruence.
Qed.

Lemma indexOf_char (c : N) (a b : jsstring) :
  Forall (fun x => x <> c) a -> indexOf [c] (a ++ c :: b) = Some (length a).
Proof.
  induction 1 as [|x a Hx Ha IH]; simpl.
  - rewrite N.eqb_refl. reflexivity.
  - destruct (c =? x) eqn:Hcx; [apply N.eqb_eq in Hcx; congruence|].
    simpl. rewrite IH. reflexivity.
Qed.

Lemma lastIndexOf_char_absent (c : N) (b : jsstring) :
  Forall (fun x => x <> c) b -> lastIndexOf [c] b = None.
Proof.
  induction 1 as [|x b Hx Hb IH]; simpl; [reflexivity|].
  rewrite IH. destruct (c =? x) eqn:Hcx;
    [apply N.eqb_eq in Hcx; congruence|reflexivity].
Qed.

Lemma lastIndexOf_char (c : N) (a b : jsstring) :
  Forall (fun x => x <> c) b ->
  lastIndexOf [c] (a ++ c :: b) = Some (length a).
Proof.
  intros Hb. induction a as [|x a IH]; simpl.
  - rewrite (lastIndexOf_char_absent c b Hb), N.eqb_refl. reflexivity.
  - rewrite IH. reflexivity.
Qed.

Lemma endsWith_snoc (c : N) (s : jsstring) :
  endsWith [c] s = true -> exists s', s = s' ++ [c].
Proof.
  intros Hs%endsWith_char. destruct s as [|d s _] using rev_ind;
    [discriminate|].
  rewrite last_snoc in Hs. injection Hs as ->. eauto.
Qed.

Section Parser.
Context `{Host}.

(** The text between the first opening and the last closing brace of
    [p ++ j ++ s] is [j], when [j] starts and ends with a brace and the
    prose around it has no brace of the same kind. *)
Lemma jsonCandidate_embedded (p j s : jsstring) :
  startsWith (js "{") j = true -> endsWith (js "}") j = true ->
  Forall (fun c => c <> 123) p -> Forall (fun c => c <> 125) s ->
  exists i k t,
    trim (p ++ j ++ s) = t /\ isEmpty t = false
    /\ indexOf (js "{") t = Some i /\ lastIndexOf (js "}") t = Some k
    /\ (k <=? i)%nat = false /\ slice i (k + 1) t = j.
Proof.
  change (js "{") with [123]. change (js "}") with [125].
  intros [j1 Hj1]%startsWith_spec [j2 Hj2]%endsWith_snoc Hp Hs.
  simpl in Hj1.
  destruct j2 as [|o j3]; [rewrite Hj1 in Hj2; discriminate|].
  assert (Ho : o = 123) by (rewrite Hj1 in Hj2; simpl in Hj2; congruence).
  subst o.
  pose (p' := dropWhile isWhiteSpace p). pose (s' := trimEnd s).
  assert (Ht : trim (p ++ j ++ s) = p' ++ j ++ s').
  { unfold trim, trimStart. rewrite Hj2.
    replace (p ++ ((123 :: j3) ++ [125]) ++ s)
      with ((p ++ 123 :: j3) ++ 125 :: s)
      by (rewrite <- !app_assoc; reflexivity).
    rewrite trimEnd_app_stop by reflexivity.
    rewrite <- app_assoc. simpl.
    rewrite dropWhile_app_stop by reflexivity.
    subst p' s'. rewrite <- !app_assoc. reflexivity. }
  assert (Hp' : Forall (fun c => c <> 123) p')
    by (apply Forall_dropWhile; exact Hp).
  assert (Hs' : Forall (fun c => c <> 125) s')
    by (apply Forall_trimEnd; exact Hs).
  exists (length p'), (length p' + S (length j3))%nat, (p' ++ j ++ s').
  split; [exact Ht|]. split.
  { rewrite Hj1. destruct p'; reflexivity. }
  split.
  { rewrite Hj1. simpl. apply indexOf_char. exact Hp'. }
  split.
  { rewrite Hj2.
    replace (p' ++ ((123 :: j3) ++ [125]) ++ s')
      with ((p' ++ 123 :: j3) ++ 125 :: s')
      by (rewrite <- !app_assoc; reflexivity).
    rewrite lastIndexOf_char by exact Hs'.
    rewrite length_app. reflexivity. }
  split.
  { apply Nat.leb_gt. simpl. lia. }
  unfold slice. rewrite drop_app_length.
  replace (length p' + S (length j3) + 1 - length p')%nat
    with (length j) by (rewrite Hj2, length_app; simpl; lia).
  apply take_app_length.
Qed.

(** C3.  [parseModelAction] is a total function.  It gives nothing
    exactly for a reason of the list: the trimmed text is empty; it has
    no opening or no closing brace; the last closing brace is not
    behind the first opening brace; the text between them does not
    parse; the parsed value has no string [action]; the [action] is
    none of the three names.  Otherwise it gives an action whose kind
    is the one the [action] string names, whose [path] is present
    exactly when the value's [path] is a string, and is that string,
    and likewise for [content]. *)
Theorem parseModelAction_validates (text : jsstring) :
  let t := trim text in
  match parseModelAction text with
  | None =>
      t = []
      \/ indexOf (js "{") t = None
      \/ lastIndexOf (js "}") t = None
      \/ exists i j,
           indexOf (js "{") t = Some i /\ lastIndexOf (js "}") t = Some j
           /\ ((j <= i)%nat
               \/ JSON_parse (slice i (j + 1) t) = None
               \/ exists obj,
                    JSON_parse (slice i (j + 1) t) = Some obj
                    /\ ((forall tag,
                           getProperty obj (js "action")
                           <> Some (JString tag))
                        \/ exists tag,
                             getProperty obj (js "action")
                             = Some (JString tag)
                             /\ tag <> js "create_file"
                             /\ tag <> js "append_file"
                             /\ tag <> js "insert_code"))
  | Some a =>
      exists i j obj tag,
        indexOf (js "{") t = Some i /\ lastIndexOf (js "}") t = Some j
        /\ (i < j)%nat
        /\ JSON_parse (slice i (j + 1) t) = Some obj
        /\ getProperty obj (js "action") = Some (JString tag)
        /\ (tag = js "create_file" /\ action a = create_file
            \/ tag = js "append_file" /\ action a = append_file
            \/ tag = js "insert_code" /\ action a = insert_code)
        /\ (forall s, path a = Some s
                      <-> getProperty obj (js "path") = Some (JString s))
        /\ (forall s, content a = Some s
                      <-> getProperty obj (js "content")
                          = Some (JString s))
  end.
Proof.
  intros t. unfold parseModelAction. fold t. clearbody t.
  destruct (isEmpty t) eqn:Ht; [left; destruct t; [reflexivity|discriminate]|].
  destruct (indexOf (js "{") t) as [i|] eqn:Hi; [|right; left; reflexivity].
  destruct (lastIndexOf (js "}") t) as [j|] eqn:Hj;
    [|right; right; left; reflexivity].
  destruct (j <=? i)%nat eqn:Hji.
  { apply Nat.leb_le in Hji. right; right; right. exists i, j. auto. }
  apply Nat.leb_gt in Hji.
  destruct (JSON_parse (slice i (j + 1) t)) as [obj|] eqn:Hparse;
    [|right; right; right; exists i, j; auto].
  destruct (asString (getProperty obj (js "action"))) as [tag|] eqn:Htag.
  2:{ right; right; right. exists i, j. do 2 (split; [reflexivity|]).
      right; right. exists obj. split; [exact Hparse|].
      left. apply asString_None. exact Htag. }
  apply asString_Some in Htag.
  destruct (validAction tag) as [kind|] eqn:Hkind.
  - exists i, j, obj, tag. simpl.
    do 2 (split; [reflexivity|]). split; [exact Hji|].
    split; [exact Hparse|]. split; [exact Htag|].
    split; [apply validAction_Some; exact Hkind|].
    split; intros s; apply asString_Some.
  - right; right; right. exists i, j. do 2 (split; [reflexivity|]).
    right; right. exists obj. split; [exact Hparse|].
    right. exists tag.
    split; [exact Htag|]. apply validAction_None. exact Hkind.
Qed.

Lemma parseModelAction_embedded_general (p j s : jsstring)
    (obj : JValue) (tag : jsstring) (kind : ActionKind) :
  startsWith (js "{") j = true -> endsWith (js "}") j = true ->
  JSON_parse j = Some obj ->
  getProperty obj (js "action") = Some (JString tag) ->
  validAction tag = Some kind ->
  Forall (fun c => c <> 123) p -> Forall (fun c => c <> 125) s ->
  parseModelAction (p ++ j ++ s) =
  Some {| action := kind;
          path := asString (getProperty obj (js "path"));
          content := asString (getProperty obj (js "content")) |}.
Proof.
  intros Hstart Hend Hparse Htag Hkind Hp Hs.
  destruct (jsonCandidate_embedded p j s Hstart Hend Hp Hs)
    as (i & k & t & Ht & Hne & Hi & Hk & Hki & Hslice).
  unfold parseModelAction.
  rewrite Ht, Hne, Hi, Hk, Hki, Hslice, Hparse, Htag. simpl.
  rewrite Hkind. reflexivity.
Qed.

End Parser.

(** C4, amended.  A text [j] that starts with an opening brace, ends with
    a closing brace and parses to an object whose [action] names a
    supported kind is found inside [p ++ j ++ s], and gives the action it
    describes, whenever the prose [p] in front has no opening brace and
    the prose [s] behind has no closing brace; so for the text of the
    specification, which gives a [create_file] action with the path
    [src/new.ts] and the content [x]. *)
Theorem parseModelAction_embedded :
  (forall (H : Host) (p j s : jsstring) (obj : JValue) (tag : jsstring)
          (kind : ActionKind),
      startsWith (js "{") j = true -> endsWith (js "}") j = true ->
      JSON_parse j = Some obj ->
      getProperty obj (js "action") = Some (JString tag) ->
      validAction tag = Some kind ->
      Forall (fun c => c <> 123) p -> Forall (fun c => c <> 125) s ->
      parseModelAction (p ++ j ++ s) =
      Some {| action := kind;
              path := asString (getProperty obj (js "path"));
              content := asString (getProperty obj (js "content")) |})
  /\ @parseModelAction referenceHost
       (jsq "noise {'action':'create_file','path':'src/new.ts','content':'x'} noise")
     = Some (mkModelAction create_file (Some (js "src/new.ts"))
               (Some (js "x"))).
Proof.
  split.
  - intros H. apply parseModelAction_embedded_general.
  - vm_compute. reflexivity.
Qed.

Lemma parseModelAction_embedded_witness :
  @parseModelAction referenceHost
    (js "Sure: "
     ++ jsq "{'action':'append_file','path':'README.md','content':'More docs'}"
     ++ js " (done)")
  = Some (mkModelAction append_file (Some (js "README.md"))
            (Some (js "More docs"))).
Proof.
  apply (proj1 parseModelAction_embedded referenceHost (js "Sure: ")
           (jsq "{'action':'append_file','path':'README.md','content':'More docs'}")
           (js " (done)")
           (JObject [(js "action", JString (js "append_file"));
                     (js "path", JString (js "README.md"));
                     (js "content", JString (js "More docs"))])
           (js "append_file") append_file).
  - reflexivity.
  - reflexivity.
  - vm_compute. reflexivity.
  - reflexivity.
  - reflexivity.
  - repeat constructor; discriminate.
  - repeat constructor; discriminate.
Defined.

(** The claim C4 as the specification states it, for all surrounding
    prose, fails when the prose has a brace: the text between the first
    opening and the last closing brace is then not the object. *)
Lemma parseModelAction_prose_with_braces :
  let j := jsq "{'action':'insert_code','content':'x'}" in
  @parseModelAction referenceHost j
  = Some (mkModelAction insert_code None (Some (js "x")))
  /\ @parseModelAction referenceHost (js "use {braces} " ++ j ++ js " ok")
     = None.
Proof. split; vm_compute; reflexivity. Qed.

(** ** The comment stripper *)

(** *** The line expressions *)

Lemma isSlashHead_cons2 (c d : N) (x : jsstring) :
  isSlashHead (c :: d :: x) = (47 =? c) && (47 =? d).
Proof.
  unfold isSlashHead. change (js "//") with [47; 47].
  cbn [startsWith]. rewrite andb_true_r. reflexivity.
Qed.

Lemma isSlashHead_head : CommentHead isSlashHead.
Proof.
  split; [reflexivity| |].
  - intros c d x y. rewrite !isSlashHead_cons2. reflexivity.
  - intros c d x Hd. rewrite isSlashHead_cons2.
    destruct (47 =? d) eqn:E.
    + apply N.eqb_eq in E. subst d. discriminate.
    + rewrite andb_false_r. unfold isSlashHead. change (js "//") with [47; 47].
      cbn [startsWith]. rewrite andb_false_r. reflexivity.
Qed.

Lemma isHashHead_head : CommentHead isHashHead.
Proof.
  split; [reflexivity|reflexivity|].
  intros c d x Hd. unfold isHashHead.
  destruct (d =? 33) eqn:E; [|reflexivity].
  apply N.eqb_eq in E. subst d. discriminate.
Qed.

Lemma removeLines_skip (h : jsstring -> bool) (k : nat) :
  forall (b : bool) (s : jsstring),
    removeLines h b (S k) s = removeLines h false 0 (drop (S k) s).
Proof.
  induction k as [|k IH]; intros b [|c s]; try reflexivity.
  change (removeLines h b (S (S k)) (c :: s))
    with (removeLines h false (S k) s).
  rewrite IH. reflexivity.
Qed.

Lemma removeLines_keep (h : jsstring -> bool) (b : bool) (c : N)
    (s : jsstring) :
  b && h (dropWhile isWhiteSpace (c :: s)) = false ->
  removeLines h b 0 (c :: s) = c :: removeLines h (isLineTerminator c) 0 s.
Proof. intros Hno. cbn [removeLines]. rewrite Hno. reflexivity. Qed.

Lemma drop_takeWhile (p : N -> bool) (s : jsstring) :
  drop (length (takeWhile p s)) s = dropWhile p s.
Proof.
  induction s as [|c s IH]; simpl; [reflexivity|].
  destruct (p c); simpl; [exact IH|reflexivity].
Qed.

Lemma dropWhile_head (p : N -> bool) (s : jsstring) (c : N) (r : jsstring) :
  dropWhile p s = c :: r -> p c = false.
Proof.
  induction s as [|d s IH]; simpl; [discriminate|].
  destruct (p d) eqn:Hd; [exact IH|]. intros [= -> _]. exact Hd.
Qed.

Lemma dropWhile_length (p : N -> bool) (s : jsstring) :
  (length (dropWhile p s) <= length s)%nat.
Proof.
  induction s as [|c s IH]; simpl; [lia|]. destruct (p c); simpl; lia.
Qed.

(** Behind a match the scan goes on at the end of the line. *)
Lemma removeLines_match (h : jsstring -> bool) (s : jsstring) :
  h (dropWhile isWhiteSpace s) = true -> CommentHead h ->
  let rest := dropWhile notLineTerminator (dropWhile isWhiteSpace s) in
  removeLines h true 0 s = removeLines h false 0 rest
  /\ (length rest < length s)%nat
  /\ exists k, rest = drop k s.
Proof.
  intros Hh Hhead rest. destruct s as [|c s].
  { simpl in Hh. rewrite (head_nil h Hhead) in Hh. discriminate. }
  set (r := dropWhile isWhiteSpace (c :: s)) in *.
  set (n := (length (takeWhile isWhiteSpace (c :: s))
             + length (takeWhile notLineTerminator r))%nat).
  assert (Hrest : rest = drop n (c :: s)).
  { subst rest n. rewrite <- drop_drop.
    rewrite drop_takeWhile. fold r. rewrite drop_takeWhile. reflexivity. }
  assert (Hn : (1 <= n)%nat).
  { subst n. destruct (isWhiteSpace c) eqn:Hc.
    - simpl. rewrite Hc. simpl. lia.
    - assert (Hr : r = c :: s) by (subst r; simpl; rewrite Hc; reflexivity).
      rewrite Hr. simpl.
      assert (Hnl : notLineTerminator c = true).
      { unfold notLineTerminator. destruct (isLineTerminator c) eqn:Hl;
          [|reflexivity].
        apply isLineTerminator_isWhiteSpace in Hl. congruence. }
      rewrite Hnl. simpl. lia. }
  split; [|split].
  - cbn [removeLines]. fold r. rewrite Hh. cbn [andb]. fold n.
    rewrite Hrest. destruct n as [|[|n]]; [lia|reflexivity|].
    replace (S (S n) - 1)%nat with (S n) by lia.
    rewrite removeLines_skip. reflexivity.
  - rewrite Hrest, length_drop. simpl. lia.
  - exists n. exact Hrest.
Qed.

Lemma notLineTerminator_false (c : N) :
  notLineTerminator c = false -> isLineTerminator c = true.
Proof. unfold notLineTerminator. destruct (isLineTerminator c); auto. Qed.

Lemma not_isWhiteSpace_not_isLineTerminator (c : N) :
  isWhiteSpace c = false -> isLineTerminator c = false.
Proof.
  intros Hc. destruct (isLineTerminator c) eqn:Hl; [|reflexivity].
  apply isLineTerminator_isWhiteSpace in Hl. congruence.
Qed.

(** Removing the lines of one head leaves no line of another head in
    the text, when every line that starts with the other head starts
    with the removed one too. *)
Section LineRemoval.
Variables h1 h2 : jsstring -> bool.
Hypothesis Hh1 : CommentHead h1.
Hypothesis Hh2 : CommentHead h2.

Lemma covered_true (b : bool) (s : jsstring) :
  h1 (dropWhile isWhiteSpace s) = false ->
  lineMatchCovered h1 h2 b s -> lineMatchCovered h1 h2 true s.
Proof.
  destruct s as [|c s]; [trivial|]. intros He [_ Hs]. split; auto.
Qed.

Lemma covered_drop (k : nat) :
  forall (b : bool) (s : jsstring) (t : N) (r : jsstring),
    lineMatchCovered h1 h2 b s -> drop k s = t :: r ->
    lineMatchCovered h1 h2 (isLineTerminator t) r.
Proof.
  induction k as [|k IH]; intros b [|c s] t r Hs Hd; try discriminate.
  - injection Hd as -> ->. exact (proj2 Hs).
  - exact (IH _ s t r (proj2 Hs) Hd).
Qed.

(** A kept character that is not white space has the same next
    character in the result as in the text. *)
Lemma head_kept (c : N) (s : jsstring) :
  h1 (c :: s) = false -> h1 (c :: removeLines h2 false 0 s) = false.
Proof.
  destruct s as [|d s]; [trivial|]. intros Hs.
  rewrite removeLines_keep by reflexivity.
  rewrite (head_two h1 Hh1 c d _ s). exact Hs.
Qed.

Lemma removeLines_covered_aux (n : nat) :
  forall s : jsstring, (length s <= n)%nat ->
    (forall b, lineMatchCovered h1 h2 b s ->
               noLineMatch h1 b (removeLines h2 b 0 s))
    /\ (lineMatchCovered h1 h2 true s ->
        forall b, b = true \/ h1 (dropWhile isWhiteSpace s) = false ->
                  h1 (dropWhile isWhiteSpace (removeLines h2 b 0 s))
                  = false).
Proof.
  induction n as [|n IH]; intros [|c s] Hlen;
    try (split; [intros; exact I|intros; apply (head_nil h1 Hh1)]).
  { simpl in Hlen. lia. }
  simpl in Hlen. assert (Hlen' : (length s <= n)%nat) by lia.
  (* the scan behind a match *)
  assert (Hmatch : forall X : Prop,
    h2 (dropWhile isWhiteSpace (c :: s)) = true ->
    lineMatchCovered h1 h2 true (c :: s) ->
    (removeLines h2 true 0 (c :: s) = [] -> X) ->
    (forall t r, isLineTerminator t = true -> (length r <= n)%nat ->
                 lineMatchCovered h1 h2 true r ->
                 removeLines h2 true 0 (c :: s)
                 = t :: removeLines h2 true 0 r -> X) -> X).
  { intros X Hh Hcov Hnil Hcons.
    destruct (removeLines_match h2 (c :: s) Hh Hh2) as (Heq & Hlt & k & Hk).
    destruct (dropWhile notLineTerminator
                (dropWhile isWhiteSpace (c :: s))) as [|t r] eqn:Hrest.
    - apply Hnil. rewrite Heq. reflexivity.
    - assert (Ht : isLineTerminator t = true)
        by (apply notLineTerminator_false;
            exact (dropWhile_head _ _ _ _ Hrest)).
      apply (Hcons t r Ht).
      + simpl in Hlt. lia.
      + rewrite <- Ht. exact (covered_drop k _ _ t r Hcov (eq_sym Hk)).
      + rewrite Heq, removeLines_keep by reflexivity. rewrite Ht.
        reflexivity. }
  (* a kept character *)
  assert (Hkeep :
    lineMatchCovered h1 h2 true (c :: s) ->
    h1 (dropWhile isWhiteSpace (c :: s)) = false ->
    h1 (dropWhile isWhiteSpace
          (c :: removeLines h2 (isLineTerminator c) 0 s)) = false).
  { intros Hcov He. simpl in He |- *.
    destruct (isWhiteSpace c) eqn:Hc.
    - apply (proj2 (IH s Hlen')); [|right; exact He].
      exact (covered_true _ s He (proj2 Hcov)).
    - rewrite (not_isWhiteSpace_not_isLineTerminator c Hc).
      apply head_kept. exact He. }
  assert (HZ : lineMatchCovered h1 h2 true (c :: s) ->
    forall b, b = true \/ h1 (dropWhile isWhiteSpace (c :: s)) = false ->
              h1 (dropWhile isWhiteSpace (removeLines h2 b 0 (c :: s)))
              = false).
  { intros Hcov b Hb.
    destruct (b && h2 (dropWhile isWhiteSpace (c :: s))) eqn:Hm.
    - apply andb_true_iff in Hm as [-> Hh].
      apply (Hmatch _ Hh Hcov).
      + intros ->. apply (head_nil h1 Hh1).
      + intros t r Ht Hr Hcr ->. simpl.
        rewrite (isLineTerminator_isWhiteSpace t Ht).
        apply (proj2 (IH r Hr) Hcr). left; reflexivity.
    - rewrite removeLines_keep by exact Hm. apply Hkeep; [exact Hcov|].
      destruct b; [|destruct Hb; [discriminate|assumption]].
      cbn [andb] in Hm.
      destruct (proj1 Hcov eq_refl); [assumption|congruence]. }
  split; [|exact HZ].
  intros b Hcov.
  destruct (b && h2 (dropWhile isWhiteSpace (c :: s))) eqn:Hm.
  - apply andb_true_iff in Hm as [-> Hh].
    apply (Hmatch _ Hh Hcov).
    + intros ->. exact I.
    + intros t r Ht Hr Hcr ->. split.
      * intros _. simpl. rewrite (isLineTerminator_isWhiteSpace t Ht).
        apply (proj2 (IH r Hr) Hcr). left; reflexivity.
      * rewrite Ht. apply (proj1 (IH r Hr)). exact Hcr.
  - rewrite removeLines_keep by exact Hm. split.
    + intros ->. apply Hkeep; [exact Hcov|].
      cbn [andb] in Hm.
      destruct (proj1 Hcov eq_refl); [assumption|congruence].
    + apply (proj1 (IH s Hlen')). exact (proj2 Hcov).
Qed.

Lemma removeLines_covered (s : jsstring) :
  lineMatchCovered h1 h2 true s ->
  noLineMatch h1 true (removeLines h2 true 0 s).
Proof.
  apply (proj1 (removeLines_covered_aux (length s) s (Nat.le_refl _))).
Qed.

End LineRemoval.

Lemma covered_self (h : jsstring -> bool) (s : jsstring) :
  forall b, lineMatchCovered h h b s.
Proof.
  induction s as [|c s IH]; intros b; simpl; [exact I|].
  split; [|apply IH]. intros _.
  destruct (h _); [right|left]; reflexivity.
Qed.

Lemma covered_of_noLineMatch (h1 h2 : jsstring -> bool) (s : jsstring) :
  forall b, noLineMatch h1 b s -> lineMatchCovered h1 h2 b s.
Proof.
  induction s as [|c s IH]; intros b; simpl; [trivial|].
  intros [Hc Hs]. split; [|apply IH; exact Hs]. intros Hb. left. auto.
Qed.

(** The result of a line expression has no match of it, a text without a
    match is not changed, and no match of another head appears. *)
Lemma removeLines_noLineMatch (h : jsstring -> bool) (s : jsstring) :
  CommentHead h -> noLineMatch h true (removeLines h true 0 s).
Proof.
  intros Hh. apply (removeLines_covered h h Hh Hh). apply covered_self.
Qed.

Lemma removeLines_preserves (h1 h2 : jsstring -> bool) (s : jsstring) :
  CommentHead h1 -> CommentHead h2 ->
  noLineMatch h1 true s -> noLineMatch h1 true (removeLines h2 true 0 s).
Proof.
  intros Hh1 Hh2 Hs. apply (removeLines_covered h1 h2 Hh1 Hh2).
  apply covered_of_noLineMatch. exact Hs.
Qed.

Lemma removeLines_fixed (h : jsstring -> bool) (s : jsstring) :
  forall b, noLineMatch h b s -> removeLines h b 0 s = s.
Proof.
  induction s as [|c s IH]; intros b; [reflexivity|]. intros [Hc Hs].
  rewrite removeLines_keep.
  - rewrite (IH _ Hs). reflexivity.
  - destruct b; [rewrite Hc|]; reflexivity.
Qed.

Lemma noLineMatch_weaken (h : jsstring -> bool) (b : bool) (s : jsstring) :
  noLineMatch h true s -> noLineMatch h b s.
Proof. destruct s as [|c s]; [trivial|]. intros [Hc Hs]. split; auto. Qed.

(** [noLineMatch] read at a position: behind a line start of the text,
    after the white space, the head does not follow. *)
Lemma noLineMatch_at (h : jsstring -> bool) (a : jsstring) :
  CommentHead h ->
  forall (b : bool) (s r : jsstring),
    noLineMatch h b s -> s = a ++ r ->
    (a = [] -> b = true) -> atLineStart a ->
    h (dropWhile isWhiteSpace r) = false.
Proof.
  intros Hh. induction a as [|x a IH]; intros b s r Hs -> Hb Hstart.
  - destruct r as [|c r]; [apply (head_nil h Hh)|].
    apply (proj1 Hs). auto.
  - destruct Hs as [_ Hs]. apply (IH _ _ r Hs eq_refl).
    + intros ->. destruct Hstart as [|(a' & t & Ha & Ht)]; [discriminate|].
      destruct a' as [|y a']; [|destruct a'; discriminate].
      injection Ha as Hx. subst x. exact Ht.
    + destruct Hstart as [|(a' & t & Ha & Ht)]; [discriminate|].
      destruct a' as [|y a'].
      * injection Ha as Hx Ha. subst. left; reflexivity.
      * injection Ha as Hx Ha. subst. right. exists a', t. auto.
Qed.

(** *** The clean-up chain *)

Lemma trimEnd_fixed (s : jsstring) : endsClean s -> trimEnd s = s.
Proof.
  induction s as [|c s IH]; intros Hs; [reflexivity|]. simpl.
  destruct s as [|d s].
  - simpl. rewrite (Hs c eq_refl). reflexivity.
  - rewrite IH by (intros e He; apply Hs; exact He).
    simpl. rewrite andb_false_r. reflexivity.
Qed.

Lemma trimEnd_endsClean (s : jsstring) : endsClean (trimEnd s).
Proof. intros c. apply trimEnd_last. Qed.

Lemma trimEnd_split (s : jsstring) :
  exists w, s = trimEnd s ++ w /\ forallb isWhiteSpace w = true.
Proof.
  induction s as [|c s (w & Hw & Hws)]; [exists []; auto|]. simpl.
  destruct (isWhiteSpace c && isEmpty (trimEnd s)) eqn:Hc.
  - apply andb_true_iff in Hc as [Hc He].
    destruct (trimEnd s); [|discriminate]. simpl in Hw. subst w.
    exists (c :: s). simpl. rewrite Hc. auto.
  - exists w. rewrite Hw at 1. auto.
Qed.

Lemma dropWhile_nonempty_endsClean (s : jsstring) :
  s <> [] -> endsClean s -> dropWhile isWhiteSpace s <> [].
Proof.
  intros Hne Hs Hd.
  destruct s as [|c s _] using rev_ind; [congruence|].
  specialize (Hs c (last_snoc _ _)).
  clear Hne. induction s as [|d s IH]; simpl in Hd.
  - rewrite Hs in Hd. discriminate.
  - destruct (isWhiteSpace d); [auto|discriminate].
Qed.

Lemma dropWhile_app_nonempty (p : N -> bool) (a b : jsstring) :
  dropWhile p a <> [] -> dropWhile p (a ++ b) = dropWhile p a ++ b.
Proof.
  induction a as [|c a IH]; simpl; [congruence|].
  destruct (p c); [exact IH|reflexivity].
Qed.

Lemma head_blank (h : jsstring -> bool) (z : N) (w : jsstring) :
  CommentHead h -> startsBlank w -> h (z :: w) = h [z].
Proof.
  intros Hh Hw. destruct w as [|d w]; [reflexivity|].
  apply (head_ws h Hh). exact Hw.
Qed.

(** What follows a line that does not end with white space does not
    matter to a head in the line, as long as it is white space or
    nothing. *)
Lemma head_ext (h : jsstring -> bool) (l w w2 : jsstring) :
  CommentHead h -> l <> [] -> endsClean l ->
  startsBlank w -> startsBlank w2 ->
  h (dropWhile isWhiteSpace (l ++ w)) = h (dropWhile isWhiteSpace (l ++ w2)).
Proof.
  intros Hh Hne Hl Hw Hw2.
  pose proof (dropWhile_nonempty_endsClean l Hne Hl) as Hd.
  rewrite !dropWhile_app_nonempty by exact Hd.
  destruct (dropWhile isWhiteSpace l) as [|z [|d u]]; [congruence| |].
  - simpl. rewrite (head_blank h z w), (head_blank h z w2) by assumption.
    reflexivity.
  - simpl. apply (head_two h Hh).
Qed.

Lemma endsClean_tail (c d : N) (l : jsstring) :
  endsClean (c :: d :: l) -> endsClean (d :: l).
Proof. intros Hl e He. apply Hl. exact He. Qed.

Lemma endsClean_single (c : N) : endsClean [c] -> isWhiteSpace c = false.
Proof. intros Hl. apply Hl. reflexivity. Qed.

Lemma noLineMatch_app_ext (h : jsstring -> bool) (l w w2 : jsstring) :
  CommentHead h -> startsBlank w -> startsBlank w2 ->
  noLineMatch h false w2 ->
  forall b, l <> [] -> endsClean l ->
            noLineMatch h b (l ++ w) -> noLineMatch h b (l ++ w2).
Proof.
  intros Hh Hw Hw2 Hn2. induction l as [|c l IH]; intros b Hne Hl Hn;
    [congruence|].
  split.
  - intros Hb. change (h (dropWhile isWhiteSpace ((c :: l) ++ w2)) = false).
    rewrite <- (head_ext h (c :: l) w w2) by assumption.
    exact (proj1 Hn Hb).
  - destruct l as [|d l].
    + simpl. apply endsClean_single in Hl.
      rewrite (not_isWhiteSpace_not_isLineTerminator c Hl). exact Hn2.
    + apply IH; [discriminate|exact (endsClean_tail _ _ _ Hl)|].
      exact (proj2 Hn).
Qed.

(** The three cases of [splitLines]. *)
Lemma splitLines_cases (c : N) (t : jsstring) :
  (c = LF /\ splitLines (c :: t) = [] :: splitLines t)
  \/ (c = CR /\ exists t', t = LF :: t'
                          /\ splitLines (c :: t) = [] :: splitLines t')
  \/ (c <> LF /\ (c = CR -> forall t', t <> LF :: t')
      /\ splitLines (c :: t) = consHead c (splitLines t)).
Proof.
  cbn [splitLines]. destruct (c =? LF) eqn:Hc.
  - apply N.eqb_eq in Hc. left. auto.
  - apply N.eqb_neq in Hc. destruct t as [|d t].
    + right; right. repeat split; [exact Hc|discriminate].
    + destruct ((c =? CR) && (d =? LF)) eqn:Hcd.
      * apply andb_true_iff in Hcd as [->%N.eqb_eq ->%N.eqb_eq].
        right; left. eauto.
      * right; right. repeat split; [exact Hc|].
        intros -> t' [= -> _]. discriminate.
Qed.

Lemma splitLines_inv (t : jsstring) :
  exists p ps tail,
    splitLines t = p :: ps /\ t = p ++ tail /\ startsBlank tail
    /\ Forall (fun c => c <> LF) p.
Proof.
  induction t as [|c t (p & ps & tail & Hsplit & Ht & Htail & Hp)].
  - exists [], [], []. repeat split. constructor.
  - destruct (splitLines_cases c t)
      as [[-> Hs]|[[-> (t' & -> & Hs)]|(Hc & _ & Hs)]].
    + exists [], (splitLines t), (LF :: t). rewrite Hs.
      repeat split. constructor.
    + exists [], (splitLines t'), (CR :: LF :: t'). rewrite Hs.
      repeat split. constructor.
    + exists (c :: p), ps, tail. rewrite Hs, Hsplit. simpl.
      rewrite Ht at 1. repeat split; [exact Htail|].
      constructor; assumption.
Qed.

Lemma splitLines_no_LF (t : jsstring) :
  Forall (Forall (fun c => c <> LF)) (splitLines t).
Proof.
  induction t as [|c t IH]; [repeat constructor|].
  destruct (splitLines_cases c t)
    as [[-> Hs]|[[-> (t' & -> & Hs)]|(Hc & _ & Hs)]]; rewrite Hs.
  - constructor; [constructor|exact IH].
  - constructor; [constructor|].
    destruct (splitLines_cases LF t') as [[_ Hs']|[[[=] _]|([] & _)]];
      try reflexivity.
    rewrite Hs' in IH. apply Forall_cons in IH. tauto.
  - destruct (splitLines t) as [|p ps]; simpl; [repeat constructor; exact Hc|].
    apply Forall_cons in IH as [Hp Hps].
    constructor; [constructor; assumption|exact Hps].
Qed.

Lemma isBlank_trimEnd (p : jsstring) : isBlank p = isEmpty (trimEnd p).
Proof.
  unfold isBlank, trim, trimStart.
  destruct (trimEnd p) as [|c r] eqn:Hp; [reflexivity|].
  assert (Hd : dropWhile isWhiteSpace (c :: r) <> []).
  { apply dropWhile_nonempty_endsClean; [discriminate|].
    rewrite <- Hp. apply trimEnd_endsClean. }
  destruct (dropWhile isWhiteSpace (c :: r)); [congruence|reflexivity].
Qed.

Lemma trimEnd_idem (p : jsstring) : trimEnd (trimEnd p) = trimEnd p.
Proof. apply trimEnd_fixed, trimEnd_endsClean. Qed.

Lemma startsBlank_app (w tail : jsstring) :
  forallb isWhiteSpace w = true -> startsBlank tail -> startsBlank (w ++ tail).
Proof.
  destruct w as [|c w]; [trivial|]. simpl.
  intros [Hc _]%andb_true_iff _. exact Hc.
Qed.

(** A text without a match, line by line: every piece of [splitLines]
    that is not blank, with its trailing white space cut and a line feed
    behind it, has no match. *)
Lemma noLineMatch_splitLines (h : jsstring -> bool) (t : jsstring) :
  CommentHead h ->
  forall b, noLineMatch h b t ->
    exists p ps,
      splitLines t = p :: ps
      /\ (isBlank p = false -> noLineMatch h b (trimEnd p ++ [LF]))
      /\ Forall (fun p => isBlank p = false ->
                          noLineMatch h true (trimEnd p ++ [LF])) ps.
Proof.
  intros Hh. induction t as [|c t IH]; intros b Ht.
  { exists [], []. repeat split; [discriminate|constructor]. }
  destruct (splitLines_cases c t)
    as [[-> Hs]|[[-> (t' & -> & Hs)]|(Hc & Hcr & Hs)]].
  - destruct (IH true (proj2 Ht)) as (p & ps & Hsp & Hp & Hps).
    exists [], (splitLines t). rewrite Hs. repeat split; [discriminate|].
    rewrite Hsp. constructor; assumption.
  - assert (Ht' : noLineMatch h true t') by exact (proj2 (proj2 Ht)).
    destruct (splitLines_cases LF t') as [[_ Hs']|[[[=] _]|([] & _)]];
      try reflexivity.
    destruct (IH true (proj2 Ht)) as (p & ps & Hsp & Hp & Hps).
    rewrite Hs' in Hsp. injection Hsp as <- <-.
    exists [], (splitLines t'). rewrite Hs. repeat split; [discriminate|].
    exact Hps.
  - destruct (IH _ (proj2 Ht)) as (p & ps & Hsp & Hp & Hps).
    destruct (splitLines_inv t) as (p0 & ps0 & tail & Hsp0 & Htl & Htail & _).
    rewrite Hsp in Hsp0. injection Hsp0 as <- <-.
    exists (c :: p), ps. rewrite Hs, Hsp. repeat split; [|exact Hps].
    intros Hblank. rewrite isBlank_trimEnd in Hblank.
    assert (Hte : trimEnd (c :: p) = c :: trimEnd p).
    { simpl in Hblank |- *.
      destruct (isWhiteSpace c && isEmpty (trimEnd p));
        [discriminate|reflexivity]. }
    rewrite Hte. split.
    + intros Hb.
      destruct (trimEnd_split (c :: p)) as (w & Hw & Hws).
      change (h (dropWhile isWhiteSpace ((c :: trimEnd p) ++ [LF])) = false).
      rewrite <- Hte.
      rewrite (head_ext h (trimEnd (c :: p)) [LF] (w ++ tail)); try assumption.
      * rewrite app_assoc, <- Hw. simpl app. rewrite <- Htl.
        exact (proj1 Ht Hb).
      * rewrite Hte. discriminate.
      * apply trimEnd_endsClean.
      * reflexivity.
      * apply startsBlank_app; assumption.
    + destruct (isBlank p) eqn:Hbp.
      * rewrite isBlank_trimEnd in Hbp.
        destruct (trimEnd p); [|discriminate]. simpl.
        split; [|exact I]. intros _. apply (head_nil h Hh).
      * apply Hp. reflexivity.
Qed.

Lemma Forall_filter_bool {A : Type} (P : A -> Prop) (f : A -> bool)
    (l : list A) :
  Forall (fun x => f x = true -> P x) l -> Forall P (List.filter f l).
Proof.
  induction 1 as [|x l Hx Hl IH]; simpl; [constructor|].
  destruct (f x) eqn:Hf; [constructor; auto|exact IH].
Qed.

(** The kept lines are clean lines. *)
Lemma keptLines_clean (t : jsstring) : Forall cleanLine (keptLines t).
Proof.
  unfold keptLines. apply Forall_filter_bool.
  apply Forall_map. eapply Forall_impl; [apply splitLines_no_LF|].
  intros p Hp Hblank. apply negb_true_iff in Hblank.
  rewrite isBlank_trimEnd, trimEnd_idem in Hblank.
  split; [|split].
  - intros Hnil. rewrite Hnil in Hblank. discriminate.
  - apply Forall_trimEnd. exact Hp.
  - apply trimEnd_endsClean.
Qed.

(** The kept lines of a text without a match have no match. *)
Lemma keptLines_noLineMatch (h : jsstring -> bool) (t : jsstring) :
  CommentHead h -> noLineMatch h true t ->
  Forall (fun l => noLineMatch h true (l ++ [LF])) (keptLines t).
Proof.
  intros Hh Ht.
  destruct (noLineMatch_splitLines h t Hh true Ht) as (p & ps & Hs & Hp & Hps).
  unfold keptLines. rewrite Hs. apply Forall_filter_bool, Forall_map.
  assert (Hall : Forall (fun p => isBlank p = false ->
                                  noLineMatch h true (trimEnd p ++ [LF]))
                   (p :: ps)) by (constructor; assumption).
  eapply Forall_impl; [exact Hall|]. intros q Hq Hblank. apply Hq.
  apply negb_true_iff in Hblank.
  rewrite isBlank_trimEnd, trimEnd_idem in Hblank.
  rewrite isBlank_trimEnd. exact Hblank.
Qed.

Lemma join_cons (sep l : jsstring) (l2 : jsstring) (L : list jsstring) :
  join sep (l :: l2 :: L) = l ++ sep ++ join sep (l2 :: L).
Proof. reflexivity. Qed.

Lemma join_nonempty (L : list jsstring) :
  L <> [] -> Forall cleanLine L -> join [LF] L <> [].
Proof.
  destruct L as [|l L]; [congruence|]. intros _ HL.
  apply Forall_cons in HL as [(Hl & _) _].
  destruct L; simpl; destruct l; simpl; congruence.
Qed.

(** Clean lines without a match, joined by line feeds, have no match. *)
Lemma noLineMatch_join (h : jsstring -> bool) (L : list jsstring) :
  CommentHead h -> Forall cleanLine L ->
  Forall (fun l => noLineMatch h true (l ++ [LF])) L ->
  noLineMatch h true (join [LF] L).
Proof.
  intros Hh. induction L as [|l L IH]; intros Hc Hn; [exact I|].
  apply Forall_cons in Hc as [(Hl & _ & Hend) Hc].
  apply Forall_cons in Hn as [Hnl Hn].
  destruct L as [|l2 L].
  - simpl. rewrite <- (app_nil_r l).
    exact (noLineMatch_app_ext h l [LF] [] Hh eq_refl I I true Hl Hend Hnl).
  - rewrite join_cons.
    refine (noLineMatch_app_ext h l [LF] ([LF] ++ join [LF] (l2 :: L))
              Hh eq_refl eq_refl _ true Hl Hend Hnl).
    split; [discriminate|]. apply IH; assumption.
Qed.

Lemma noLineMatch_dropWhile (h : jsstring -> bool) (s : jsstring) :
  noLineMatch h true s -> noLineMatch h true (dropWhile isWhiteSpace s).
Proof.
  induction s as [|c s IH]; [trivial|]. intros [Hc Hs]. simpl.
  destruct (isWhiteSpace c) eqn:Hw.
  - apply IH. destruct s as [|d s]; [exact I|]. split; [|exact (proj2 Hs)].
    intros _. specialize (Hc eq_refl). simpl in Hc. rewrite Hw in Hc.
    exact Hc.
  - split; [exact Hc|exact Hs].
Qed.

Lemma endsClean_app (a b : jsstring) :
  b <> [] -> endsClean b -> endsClean (a ++ b).
Proof.
  intros Hb Hend c Hc. apply Hend. destruct b as [|d b]; [congruence|].
  rewrite last_app in Hc. destruct (last (d :: b)) eqn:Hl; [exact Hc|].
  apply last_None in Hl. discriminate.
Qed.

Lemma endsClean_join (L : list jsstring) :
  Forall cleanLine L -> endsClean (join [LF] L).
Proof.
  induction L as [|l L IH]; intros HL; [intros c [=]|].
  apply Forall_cons in HL as [(Hl & _ & Hend) HL].
  destruct L as [|l2 L]; [exact Hend|].
  rewrite join_cons, app_assoc. apply endsClean_app; [|apply IH; exact HL].
  apply join_nonempty; [discriminate|exact HL].
Qed.

Lemma dropWhile_idem (p : N -> bool) (s : jsstring) :
  dropWhile p (dropWhile p s) = dropWhile p s.
Proof.
  induction s as [|c s IH]; [reflexivity|]. simpl.
  destruct (p c) eqn:Hc; [exact IH|]. simpl. rewrite Hc. reflexivity.
Qed.

(** The first line of the lines of a cleaned text, without the white
    space in front of it. *)
Lemma cleanLine_dropWhile (l : jsstring) :
  cleanLine l -> cleanLine (dropWhile isWhiteSpace l).
Proof.
  intros (Hne & Hlf & Hend). split; [|split].
  - apply dropWhile_nonempty_endsClean; assumption.
  - apply Forall_dropWhile. exact Hlf.
  - intros c Hc. apply Hend.
    eapply last_suffix; [apply dropWhile_suffix|exact Hc].
Qed.

(** [trim] of clean lines joined by line feeds only cuts the white space
    in front of the first line. *)
Lemma trim_join (l : jsstring) (L : list jsstring) :
  Forall cleanLine (l :: L) ->
  trim (join [LF] (l :: L)) = join [LF] (dropWhile isWhiteSpace l :: L)
  /\ cleanLines (dropWhile isWhiteSpace l :: L).
Proof.
  intros HL. split.
  - unfold trim, trimStart.
    rewrite (trimEnd_fixed _ (endsClean_join _ HL)).
    apply Forall_cons in HL as [(Hne & _ & Hend) _].
    pose proof (dropWhile_nonempty_endsClean l Hne Hend) as Hd.
    destruct L as [|l2 L]; [reflexivity|].
    rewrite !join_cons. apply dropWhile_app_nonempty. exact Hd.
  - apply Forall_cons in HL as [Hl HL]. split.
    + constructor; [apply cleanLine_dropWhile; exact Hl|exact HL].
    + apply dropWhile_idem.
Qed.

Lemma splitLines_cleanLine_only (l : jsstring) :
  Forall (fun c => c <> LF) l -> splitLines l = [l].
Proof.
  induction 1 as [|c l Hc Hl IH]; [reflexivity|].
  destruct (splitLines_cases c l)
    as [[-> _]|[[_ (t' & -> & _)]|(_ & _ & Hs)]]; [congruence| |].
  - apply Forall_cons in Hl as [[] _]. reflexivity.
  - rewrite Hs, IH. reflexivity.
Qed.

Lemma splitLines_cleanLine (l rest : jsstring) :
  cleanLine l -> splitLines (l ++ LF :: rest) = l :: splitLines rest.
Proof.
  intros (Hne & Hlf & Hend). induction l as [|c l IH]; [congruence|].
  apply Forall_cons in Hlf as [Hc Hlf]. simpl app.
  destruct (splitLines_cases c (l ++ LF :: rest))
    as [[-> _]|[[-> (t' & Ht & _)]|(_ & _ & Hs)]]; [congruence| |].
  - destruct l as [|d l].
    + apply endsClean_single in Hend. discriminate.
    + apply Forall_cons in Hlf as [Hd _]. simpl in Ht. congruence.
  - rewrite Hs. destruct l as [|d l].
    + reflexivity.
    + rewrite IH; [reflexivity|discriminate|exact Hlf|].
      exact (endsClean_tail _ _ _ Hend).
Qed.

Lemma splitLines_join (L : list jsstring) :
  L <> [] -> Forall cleanLine L -> splitLines (join [LF] L) = L.
Proof.
  induction L as [|l L IH]; intros Hne HL; [congruence|].
  apply Forall_cons in HL as [Hl HL]. destruct L as [|l2 L].
  - apply splitLines_cleanLine_only. exact (proj1 (proj2 Hl)).
  - rewrite join_cons.
    change ([LF] ++ join [LF] (l2 :: L)) with (LF :: join [LF] (l2 :: L)).
    rewrite splitLines_cleanLine by exact Hl.
    rewrite IH; [reflexivity|discriminate|exact HL].
Qed.

Lemma map_trimEnd_clean (L : list jsstring) :
  Forall cleanLine L -> map trimEnd L = L.
Proof.
  induction 1 as [|l L (_ & _ & Hend) HL IH]; [reflexivity|].
  simpl. rewrite IH, (trimEnd_fixed l Hend). reflexivity.
Qed.

Lemma filter_clean (L : list jsstring) :
  Forall cleanLine L ->
  List.filter (fun line => negb (isBlank line)) L = L.
Proof.
  induction 1 as [|l L (Hne & _ & Hend) HL IH]; [reflexivity|].
  simpl. rewrite IH, isBlank_trimEnd, (trimEnd_fixed l Hend).
  destruct l; [congruence|reflexivity].
Qed.

(** The clean-up chain changes no text that is already cleaned. *)
Lemma cleanUp_join (L : list jsstring) :
  cleanLines L -> cleanUp (join [LF] L) = join [LF] L.
Proof.
  intros [HL Hfirst]. destruct L as [|l L]; [reflexivity|].
  unfold cleanUp.
  rewrite splitLines_join, map_trimEnd_clean, filter_clean;
    try assumption; [|discriminate].
  rewrite (proj1 (trim_join l L HL)), Hfirst. reflexivity.
Qed.

(** The result of the clean-up chain is a cleaned text. *)
Lemma cleanUp_normal (t : jsstring) :
  exists L, cleanUp t = join [LF] L /\ cleanLines L.
Proof.
  change (cleanUp t) with (trim (join [LF] (keptLines t))).
  pose proof (keptLines_clean t) as HL.
  destruct (keptLines t) as [|l L].
  - exists []. split; [reflexivity|]. split; [constructor|exact I].
  - exists (dropWhile isWhiteSpace l :: L). apply trim_join. exact HL.
Qed.

Lemma cleanUp_noLineMatch (h : jsstring -> bool) (t : jsstring) :
  CommentHead h -> noLineMatch h true t -> noLineMatch h true (cleanUp t).
Proof.
  intros Hh Ht.
  change (cleanUp t) with (trim (join [LF] (keptLines t))).
  unfold trim, trimStart.
  rewrite (trimEnd_fixed _ (endsClean_join _ (keptLines_clean t))).
  apply noLineMatch_dropWhile, noLineMatch_join;
    [exact Hh|apply keptLines_clean|].
  apply keptLines_noLineMatch; assumption.
Qed.

(** *** The span expressions *)

Lemma indexOf_None_cons (needle : jsstring) (c : N) (s : jsstring) :
  indexOf needle (c :: s) = None ->
  startsWith needle (c :: s) = false /\ indexOf needle s = None.
Proof.
  cbn [indexOf]. destruct (startsWith needle (c :: s)); [discriminate|].
  destruct (indexOf needle s); [discriminate|auto].
Qed.

Lemma indexOf_Some_cons (needle : jsstring) (c : N) (s : jsstring) (i : nat) :
  indexOf needle (c :: s) = Some (S i) ->
  startsWith needle (c :: s) = false /\ indexOf needle s = Some i.
Proof.
  cbn [indexOf]. destruct (startsWith needle (c :: s)); [discriminate|].
  destruct (indexOf needle s); [|discriminate]. intros [= ->]. auto.
Qed.

(** A text without the opening marker is not changed. *)
Lemma removeSpans_absent (open close s : jsstring) :
  indexOf open s = None -> removeSpans open close 0 s = s.
Proof.
  induction s as [|c s IH]; [reflexivity|].
  intros [Hs Hi]%indexOf_None_cons. cbn [removeSpans].
  rewrite Hs, (IH Hi). reflexivity.
Qed.

Lemma removeSpans_skip (open close : jsstring) (k : nat) :
  forall s, removeSpans open close k s = removeSpans open close 0 (drop k s).
Proof.
  induction k as [|k IH]; intros [|c s]; try reflexivity.
  change (removeSpans open close (S k) (c :: s))
    with (removeSpans open close k s).
  rewrite IH. reflexivity.
Qed.

(** The leftmost span, from the first opening marker to the first
    closing marker behind it, is deleted, and the scan goes on behind
    it. *)
Lemma removeSpans_first (open close a b c : jsstring) :
  open <> [] ->
  indexOf open (a ++ open ++ b ++ close ++ c) = Some (length a) ->
  indexOf close (b ++ close ++ c) = Some (length b) ->
  removeSpans open close 0 (a ++ open ++ b ++ close ++ c)
  = a ++ removeSpans open close 0 c.
Proof.
  intros Hopen Ha Hb. induction a as [|x a IH].
  - clear Ha. destruct open as [|o open']; [congruence|].
    simpl app. cbn [removeSpans].
    assert (Hsw : startsWith (o :: open') (o :: open' ++ b ++ close ++ c)
                  = true) by apply (startsWith_app (o :: open')).
    assert (Hdr : drop (length (o :: open')) (o :: open' ++ b ++ close ++ c)
                  = b ++ close ++ c) by apply (drop_app_length (o :: open')).
    rewrite Hsw, Hdr, Hb, removeSpans_skip. f_equal.
    simpl length.
    replace (S (length open') + length b + length close - 1)%nat
      with (length (open' ++ b ++ close)) by (rewrite !length_app; lia).
    replace (open' ++ b ++ close ++ c) with ((open' ++ b ++ close) ++ c)
      by (rewrite <- !app_assoc; reflexivity).
    apply drop_app_length.
  - simpl in Ha. apply indexOf_Some_cons in Ha as [Hs Ha].
    simpl app. cbn [removeSpans]. rewrite Hs, (IH Ha). reflexivity.
Qed.

(** *** The result of [stripComments] *)

Lemma stripComments_noLineMatch (h : jsstring -> bool) (text : jsstring) :
  h = isSlashHead \/ h = isHashHead ->
  noLineMatch h true (stripComments text).
Proof.
  intros Hh. unfold stripComments.
  destruct (isEmpty text); [exact I|].
  set (t2 := removeBlockComments (removeHtmlComments text)).
  pose proof (removeLines_noLineMatch isSlashHead t2 isSlashHead_head) as H3.
  fold (removeSlashLines t2) in H3.
  destruct Hh as [-> | ->].
  - apply cleanUp_noLineMatch; [apply isSlashHead_head|].
    apply removeLines_preserves;
      [apply isSlashHead_head|apply isHashHead_head|exact H3].
  - apply cleanUp_noLineMatch; [apply isHashHead_head|].
    apply removeLines_noLineMatch, isHashHead_head.
Qed.

Lemma stripComments_normal (text : jsstring) :
  exists L, stripComments text = join [LF] L /\ cleanLines L.
Proof.
  unfold stripComments. destruct (isEmpty text); [|apply cleanUp_normal].
  exists []. split; [reflexivity|]. split; [constructor|exact I].
Qed.

Lemma stripComments_fixed (y : jsstring) :
  indexOf (js "<!--") y = None -> indexOf (js "/*") y = None ->
  noLineMatch isSlashHead true y -> noLineMatch isHashHead true y ->
  (exists L, y = join [LF] L /\ cleanLines L) ->
  stripComments y = y.
Proof.
  intros Hhtml Hblock Hslash Hhash (L & HL & Hclean).
  unfold stripComments. destruct y as [|c y]; [reflexivity|].
  cbn [isEmpty].
  unfold removeHtmlComments, removeBlockComments, removeSlashLines,
    removeHashLines.
  rewrite (removeSpans_absent _ _ _ Hhtml), (removeSpans_absent _ _ _ Hblock).
  rewrite (removeLines_fixed _ _ _ Hslash), (removeLines_fixed _ _ _ Hhash).
  rewrite HL. apply cleanUp_join. exact Hclean.
Qed.

(** ** The fence unwrapper *)

(** C5.  The fence with a language tag and the text without a fence give
    what the specification says.  The fence without a tag does not: the
    empty first line and the line [code] behind it are taken together
    for the language tag line, and nothing is left.  A line with a
    character outside the tag class is not lost. *)
Theorem unwrapCodeFence_untagged_fence_loses_code :
  unwrapCodeFence (join [LF] [js "```ts"; js "code"; js "```"]) = js "code"
  /\ unwrapCodeFence (join [LF] [js "```"; js "code"; js "```"]) = []
  /\ unwrapCodeFence (js "  x  ") = js "x"
  /\ unwrapCodeFence (join [LF] [js "```"; js "console.log(1);"; js "```"])
     = js "console.log(1);".
Proof. repeat split; vm_compute; reflexivity. Qed.

(** The unwrappers of [src/utils/textProcessor.ts] and
    [src/lib/textUtils.ts] are the same function. *)
Lemma TextUtils_unwrapCodeFence_eq (text : jsstring) :
  TextUtils.unwrapCodeFence text = unwrapCodeFence text.
Proof. reflexivity. Qed.

(** * Further properties of the code *)

(** ** White space *)

Lemma takeWhile_dropWhile (p : N -> bool) (s : jsstring) :
  takeWhile p s ++ dropWhile p s = s.
Proof.
  induction s as [|c s IH]; [reflexivity|]. simpl.
  destruct (p c); simpl; [rewrite IH|]; reflexivity.
Qed.

Lemma takeWhile_all (p : N -> bool) (s : jsstring) :
  forallb p (takeWhile p s) = true.
Proof.
  induction s as [|c s IH]; [reflexivity|]. simpl.
  destruct (p c) eqn:Hc; simpl; [rewrite Hc, IH|]; reflexivity.
Qed.

Lemma dropWhile_all_app (p : N -> bool) (w s : jsstring) :
  forallb p w = true -> dropWhile p (w ++ s) = dropWhile p s.
Proof.
  induction w as [|c w IH]; [reflexivity|]. simpl.
  intros [-> Hw]%andb_true_iff. auto.
Qed.

Lemma trimEnd_all (w : jsstring) :
  forallb isWhiteSpace w = true -> trimEnd w = [].
Proof.
  induction w as [|c w IH]; [reflexivity|]. simpl.
  intros [-> Hw]%andb_true_iff. rewrite (IH Hw). reflexivity.
Qed.

Lemma trimEnd_app (a s : jsstring) :
  trimEnd (a ++ s) = if isEmpty (trimEnd s) then trimEnd a else a ++ trimEnd s.
Proof.
  induction a as [|c a IH]; simpl.
  - destruct (trimEnd s); reflexivity.
  - rewrite IH. destruct (isEmpty (trimEnd s)) eqn:He; [reflexivity|].
    destruct (a ++ trimEnd s) eqn:Ha; [|rewrite andb_false_r; reflexivity].
    apply app_eq_nil in Ha as [_ Ha]. rewrite Ha in He. discriminate.
Qed.

Lemma trim_all_app (w s : jsstring) :
  forallb isWhiteSpace w = true -> trim (w ++ s) = trim s.
Proof.
  intros Hw. unfold trim, trimStart. rewrite trimEnd_app.
  destruct (trimEnd s) eqn:Hs; simpl isEmpty; cbv iota.
  - rewrite (trimEnd_all w Hw). reflexivity.
  - apply dropWhile_all_app. exact Hw.
Qed.

Lemma trim_app_all (s w : jsstring) :
  forallb isWhiteSpace w = true -> trim (s ++ w) = trim s.
Proof.
  intros Hw. unfold trim. rewrite trimEnd_app, (trimEnd_all w Hw).
  reflexivity.
Qed.

Lemma trim_dropWhile (s : jsstring) :
  trim (dropWhile isWhiteSpace s) = trim s.
Proof.
  rewrite <- (takeWhile_dropWhile isWhiteSpace s) at 2.
  symmetry. apply trim_all_app, takeWhile_all.
Qed.

Lemma trim_endsClean (s : jsstring) : endsClean (trim s).
Proof. intros c. apply trim_last. Qed.

Lemma trim_idem (s : jsstring) : trim (trim s) = trim s.
Proof.
  unfold trim at 1. rewrite (trimEnd_fixed _ (trim_endsClean s)).
  unfold trim, trimStart. apply dropWhile_idem.
Qed.

Lemma trim_head (s : jsstring) (c : N) :
  head (trim s) = Some c -> isWhiteSpace c = false.
Proof.
  unfold trim, trimStart.
  destruct (dropWhile isWhiteSpace (trimEnd s)) as [|d r] eqn:Hd;
    [discriminate|].
  intros [= <-]. exact (dropWhile_head _ _ _ _ Hd).
Qed.

(** [trim s] is a part of [s]. *)
Lemma trim_within (s : jsstring) : exists a b, s = a ++ trim s ++ b.
Proof.
  destruct (trimEnd_split s) as (w & Hw & _).
  destruct (dropWhile_suffix isWhiteSpace (trimEnd s)) as [k Hk].
  exists k, w. unfold trim, trimStart. rewrite app_assoc, <- Hk. exact Hw.
Qed.

(** ** The fence unwrapper, in general *)

Lemma stripLanguageTag_suffix (codeContent : jsstring) :
  exists a, codeContent = a ++ stripLanguageTag codeContent.
Proof.
  unfold stripLanguageTag.
  set (w1 := takeWhile isWhiteSpace codeContent).
  set (r1 := dropWhile isWhiteSpace codeContent).
  set (r2 := dropWhile isTagChar r1).
  set (w2 := takeWhile isWhiteSpace r2).
  set (r3 := dropWhile isWhiteSpace r2).
  destruct (lastIndexOf [LF] w2) as [k|].
  - exists (w1 ++ takeWhile isTagChar r1 ++ take (S k) w2).
    rewrite <- !app_assoc, (app_assoc (take (S k) w2)), take_drop.
    subst w2 r3. rewrite takeWhile_dropWhile. subst r2.
    rewrite takeWhile_dropWhile. subst w1 r1.
    rewrite takeWhile_dropWhile. reflexivity.
  - destruct (lastIndexOf [LF] w1) as [k|].
    + exists (take (S k) codeContent). rewrite take_drop. reflexivity.
    + exists []. reflexivity.
Qed.

Lemma within_trans (s t u : jsstring) :
  (exists a b, s = a ++ t ++ b) -> (exists a b, t = a ++ u ++ b) ->
  exists a b, s = a ++ u ++ b.
Proof.
  intros (a & b & ->) (a' & b' & ->). exists (a ++ a'), (b' ++ b).
  rewrite <- !app_assoc. reflexivity.
Qed.

Lemma unwrapCodeFence_part (text : jsstring) :
  exists a b, text = a ++ unwrapCodeFence text ++ b.
Proof.
  unfold unwrapCodeFence. destruct (isEmpty text) eqn:He.
  { destruct text; [|discriminate]. exists [], []. reflexivity. }
  destruct (indexOf fenceMarker text) as [startPos|];
    [|apply trim_within].
  destruct (lastIndexOf fenceMarker text) as [endPos|];
    [|apply trim_within].
  destruct (startPos <? endPos)%nat; [|apply trim_within].
  set (a := (startPos + length fenceMarker)%nat).
  apply within_trans with (t := slice a endPos text).
  - exists (take a text), (drop (endPos - a) (drop a text)).
    unfold slice. rewrite take_drop, take_drop. reflexivity.
  - apply within_trans with (t := stripLanguageTag (slice a endPos text)).
    + destruct (stripLanguageTag_suffix (slice a endPos text)) as [k Hk].
      exists k, []. rewrite app_nil_r. exact Hk.
    + apply trim_within.
Qed.

(** X1.  What [unwrapCodeFence] returns is a part of its input, in one
    piece: it adds nothing and joins nothing. *)
Theorem unwrapCodeFence_within (text : jsstring) :
  exists a b, text = a ++ unwrapCodeFence text ++ b.
Proof.
  apply unwrapCodeFence_part.
Qed.

(** X2.  What [unwrapCodeFence] returns neither starts nor ends with
    white space. *)
Theorem unwrapCodeFence_trimmed (text : jsstring) :
  trim (unwrapCodeFence text) = unwrapCodeFence text
  /\ (forall c, head (unwrapCodeFence text) = Some c ->
                isWhiteSpace c = false)
  /\ (forall c, last (unwrapCodeFence text) = Some c ->
                isWhiteSpace c = false).
Proof.
  assert (H : exists s, unwrapCodeFence text = trim s).
  { unfold unwrapCodeFence. destruct (isEmpty text); [exists []; reflexivity|].
    destruct (indexOf fenceMarker text); [|eauto].
    destruct (lastIndexOf fenceMarker text); [|eauto].
    destruct (_ <? _)%nat; eauto. }
  destruct H as [s ->]. split; [apply trim_idem|]. split.
  - apply trim_head.
  - apply trim_last.
Qed.

Lemma indexOf_fresh (c : N) (needle pre rest : jsstring) :
  Forall (fun x => x <> c) pre ->
  indexOf (c :: needle) (pre ++ (c :: needle) ++ rest) = Some (length pre).
Proof.
  induction 1 as [|x pre Hx Hpre IH].
  - pose proof (startsWith_app (c :: needle) rest) as Hs.
    simpl app in Hs |- *. cbn [indexOf]. rewrite Hs. reflexivity.
  - simpl app. cbn [indexOf startsWith].
    destruct (c =? x) eqn:Hcx; [apply N.eqb_eq in Hcx; congruence|].
    simpl in IH |- *. rewrite IH. reflexivity.
Qed.

Lemma lastIndexOf_app_Some (needle x y : jsstring) (i : nat) :
  lastIndexOf needle y = Some i ->
  lastIndexOf needle (x ++ y) = Some (length x + i)%nat.
Proof.
  intros Hy. induction x as [|c x IH]; [exact Hy|].
  simpl. rewrite IH. reflexivity.
Qed.

Lemma lastIndexOf_fresh (c : N) (needle s : jsstring) :
  Forall (fun x => x <> c) s -> lastIndexOf (c :: needle) s = None.
Proof.
  induction 1 as [|x s Hx Hs IH]; [reflexivity|].
  cbn [lastIndexOf startsWith]. rewrite IH.
  destruct (c =? x) eqn:Hcx; [apply N.eqb_eq in Hcx; congruence|reflexivity].
Qed.

Lemma lastIndexOf_fence (post : jsstring) :
  Forall (fun x => x <> 96) post ->
  lastIndexOf fenceMarker (fenceMarker ++ post) = Some 0%nat.
Proof.
  intros Hpost. pose proof (lastIndexOf_fresh 96 [96; 96] post Hpost) as Hn.
  change fenceMarker with [96; 96; 96] in *. simpl app.
  assert (H1 : startsWith [96] post = false).
  { destruct Hpost as [|x post Hx _]; [reflexivity|].
    cbn [startsWith]. destruct (96 =? x) eqn:E;
      [apply N.eqb_eq in E; congruence|reflexivity]. }
  assert (H2 : startsWith [96; 96] post = false).
  { destruct post as [|x post]; [reflexivity|]. cbn [startsWith] in H1 |- *.
    destruct (96 =? x); [discriminate|reflexivity]. }
  cbn [lastIndexOf]. rewrite Hn.
  change (startsWith [96; 96; 96] (96 :: post))
    with ((96 =? 96) && startsWith [96; 96] post).
  rewrite H2, andb_false_r.
  change (startsWith [96; 96; 96] (96 :: 96 :: post))
    with ((96 =? 96) && ((96 =? 96) && startsWith [96] post)).
  rewrite H1, !andb_false_r.
  change (startsWith [96; 96; 96] (96 :: 96 :: 96 :: post)) with true.
  reflexivity.
Qed.

(** The text between the fences is what gets unwrapped, whatever it
    holds, when the prose around the fences has no backtick. *)
Lemma unwrapCodeFence_fenced (pre body post : jsstring) :
  Forall (fun x => x <> 96) pre -> Forall (fun x => x <> 96) post ->
  unwrapCodeFence (pre ++ fenceMarker ++ body ++ fenceMarker ++ post)
  = trim (stripLanguageTag body).
Proof.
  intros Hpre Hpost. unfold unwrapCodeFence.
  set (text := pre ++ fenceMarker ++ body ++ fenceMarker ++ post).
  assert (He : isEmpty text = false).
  { subst text. destruct pre; reflexivity. }
  assert (Hi : indexOf fenceMarker text = Some (length pre))
    by (apply (indexOf_fresh 96 [96; 96]); exact Hpre).
  assert (Hl : lastIndexOf fenceMarker text
               = Some (length (pre ++ fenceMarker ++ body) + 0)%nat).
  { subst text.
    replace (pre ++ fenceMarker ++ body ++ fenceMarker ++ post)
      with ((pre ++ fenceMarker ++ body) ++ fenceMarker ++ post)
      by (rewrite <- !app_assoc; reflexivity).
    apply lastIndexOf_app_Some, lastIndexOf_fence. exact Hpost. }
  rewrite He, Hi, Hl.
  assert (Hlt : (length pre <? length (pre ++ fenceMarker ++ body) + 0)%nat
                = true).
  { apply Nat.ltb_lt. rewrite !length_app. simpl. lia. }
  rewrite Hlt. cbv zeta. f_equal. f_equal.
  unfold slice.
  replace (length (pre ++ fenceMarker ++ body) + 0
           - (length pre + length fenceMarker))%nat
    with (length body) by (rewrite !length_app; lia).
  subst text.
  replace (pre ++ fenceMarker ++ body ++ fenceMarker ++ post)
    with ((pre ++ fenceMarker) ++ body ++ fenceMarker ++ post)
    by (rewrite <- !app_assoc; reflexivity).
  rewrite <- length_app, drop_app_length. apply take_app_length.
Qed.

Lemma isTagChar_not_isWhiteSpace (c : N) :
  isTagChar c = true -> isWhiteSpace c = false.
Proof.
  unfold isTagChar, isWhiteSpace. intros Hc.
  repeat rewrite orb_true_iff in Hc. repeat rewrite andb_true_iff in Hc.
  repeat rewrite N.leb_le in Hc. repeat rewrite N.eqb_eq in Hc.
  repeat rewrite orb_false_iff. repeat rewrite andb_false_iff.
  repeat rewrite N.leb_gt. repeat rewrite N.eqb_neq.
  repeat split; lia.
Qed.

Lemma lastIndexOf_head (c : N) (s : jsstring) :
  exists k, lastIndexOf [c] (c :: s) = Some k /\ (k < length (c :: s))%nat.
Proof.
  induction s as [|d s IH] using rev_ind.
  - exists 0%nat. simpl. rewrite N.eqb_refl. auto.
  - destruct IH as (k & Hk & Hlt).
    destruct (lastIndexOf [c] (c :: s ++ [d])) as [j|] eqn:Hj.
    + exists j. split; [reflexivity|].
      clear -Hj. revert j Hj. generalize (c :: s ++ [d]) as t.
      induction t as [|x t IH]; intros j; simpl.
      * discriminate.
      * destruct (lastIndexOf [c] t) as [i|].
        -- intros [= <-]. specialize (IH i eq_refl). lia.
        -- destruct (c =? x); [intros [= <-]; lia|discriminate].
    + exfalso. simpl in Hj.
      destruct (lastIndexOf [c] (s ++ [d])); [discriminate|].
      rewrite N.eqb_refl in Hj. discriminate.
Qed.

(** X3.  Between the fences, the white space in front, the run of tag
    characters behind it and the rest of that line are dropped, and the
    rest is trimmed.  Without white space in front this is the language
    tag line; with a line feed in front (a fence without a tag) it is the
    first line of the code, which is lost when it is made of tag
    characters only. *)
Theorem unwrapCodeFence_tag_line_dropped
    (pre lead word code post : jsstring) :
  Forall (fun x => x <> 96) pre -> Forall (fun x => x <> 96) post ->
  forallb isWhiteSpace lead = true ->
  word <> [] -> forallb isTagChar word = true ->
  unwrapCodeFence
    (pre ++ fenceMarker ++ (lead ++ word ++ LF :: code) ++ fenceMarker ++ post)
  = trim code.
Proof.
  intros Hpre Hpost Hlead Hne Hword.
  rewrite unwrapCodeFence_fenced by assumption.
  unfold stripLanguageTag.
  destruct word as [|t word]; [congruence|].
  apply andb_true_iff in Hword as [Ht Hword].
  assert (Hr1 : dropWhile isWhiteSpace (lead ++ (t :: word) ++ LF :: code)
                = (t :: word) ++ LF :: code).
  { rewrite dropWhile_all_app by exact Hlead. simpl.
    rewrite (isTagChar_not_isWhiteSpace t Ht). reflexivity. }
  assert (Hr2 : dropWhile isTagChar ((t :: word) ++ LF :: code)
                = LF :: code).
  { rewrite dropWhile_all_app by (simpl; rewrite Ht; exact Hword).
    reflexivity. }
  rewrite Hr1, Hr2.
  change (takeWhile isWhiteSpace (LF :: code))
    with (LF :: takeWhile isWhiteSpace code).
  change (dropWhile isWhiteSpace (LF :: code))
    with (dropWhile isWhiteSpace code).
  destruct (lastIndexOf_head LF (takeWhile isWhiteSpace code))
    as (k & -> & _).
  rewrite trim_all_app; [apply trim_dropWhile|].
  assert (Hall : forallb isWhiteSpace (LF :: takeWhile isWhiteSpace code)
                 = true) by (simpl; apply takeWhile_all).
  rewrite <- (take_drop (S k) (LF :: takeWhile isWhiteSpace code)) in Hall.
  rewrite forallb_app in Hall. apply andb_true_iff in Hall. tauto.
Qed.

Lemma unwrapCodeFence_tag_line_dropped_witness :
  unwrapCodeFence
    (js "Here: " ++ fenceMarker
     ++ ([LF] ++ js "main" ++ LF :: js "run()" ++ [LF])
     ++ fenceMarker ++ js " done")
  = trim (js "run()" ++ [LF]).
Proof.
  apply (unwrapCodeFence_tag_line_dropped (js "Here: ") [LF] (js "main")
           (js "run()" ++ [LF]) (js " done")).
  - repeat constructor; discriminate.
  - repeat constructor; discriminate.
  - reflexivity.
  - discriminate.
  - reflexivity.
Defined.

(** ** The comment stripper only deletes *)

Lemma removeSpans_sublist (open close : jsstring) (s : jsstring) :
  forall k, sublist (removeSpans open close k s) s.
Proof.
  induction s as [|c s IH]; intros k; [reflexivity|]. cbn [removeSpans].
  destruct k as [|k]; [|apply sublist_cons, IH].
  destruct (startsWith open (c :: s)); [|apply sublist_skip, IH].
  destruct (indexOf close (drop (length open) (c :: s)));
    [apply sublist_cons, IH|reflexivity].
Qed.

Lemma removeLines_sublist (h : jsstring -> bool) (s : jsstring) :
  forall b k, sublist (removeLines h b k s) s.
Proof.
  induction s as [|c s IH]; intros b k; [reflexivity|]. cbn [removeLines].
  destruct k as [|k]; [|apply sublist_cons, IH].
  destruct (b && h (dropWhile isWhiteSpace (c :: s)));
    [apply sublist_cons, IH|apply sublist_skip, IH].
Qed.

Lemma trim_sublist (s : jsstring) : sublist (trim s) s.
Proof.
  destruct (trim_within s) as (a & b & Hs). rewrite Hs at 2.
  apply sublist_inserts_l, sublist_inserts_r. reflexivity.
Qed.

Lemma join_consHead (c : N) (x : jsstring) (R : list jsstring) :
  join [LF] ((c :: x) :: R) = c :: join [LF] (x :: R).
Proof. destruct R; reflexivity. Qed.

Lemma keptLines_cons (p : jsstring) (ps : list jsstring) :
  List.filter (fun line => negb (isBlank line)) (map trimEnd (p :: ps))
  = (if isEmpty (trimEnd p) then [] else [trimEnd p])
    ++ List.filter (fun line => negb (isBlank line)) (map trimEnd ps).
Proof.
  simpl. rewrite isBlank_trimEnd, trimEnd_idem.
  destruct (isEmpty (trimEnd p)); reflexivity.
Qed.

(** The kept lines, joined, are a subsequence of the text; so are the
    kept lines behind the first piece with a line feed in front. *)
Lemma keptLines_sublist (t : jsstring) :
  match splitLines t with
  | p :: ps =>
      let rest :=
        List.filter (fun line => negb (isBlank line)) (map trimEnd ps) in
      sublist (join [LF] (keptLines t)) t
      /\ sublist (join [LF] ([] :: rest)) t
  | [] => True
  end.
Proof.
  unfold keptLines. induction t as [|c t IH]; [split; reflexivity|].
  destruct (splitLines_cases c t)
    as [[-> Hs]|[[-> (t' & -> & Hs)]|(Hc & _ & Hs)]]; rewrite Hs.
  - destruct (splitLines t) as [|p ps] eqn:Hsp;
      [destruct (splitLines_inv t) as (? & ? & ? & Hx & _); congruence|].
    destruct IH as [IHa IHb]. cbv zeta. split.
    + apply sublist_cons. exact IHa.
    + change (map trimEnd ([] :: p :: ps)) with ([] :: map trimEnd (p :: ps))
        in *.
      destruct (List.filter _ (map trimEnd (p :: ps))) as [|l R] eqn:Hk.
      * apply sublist_nil_l.
      * change (join [LF] ([] :: l :: R)) with (LF :: join [LF] (l :: R)).
        apply sublist_skip. exact IHa.
  - destruct (splitLines_cases LF t') as [[_ Hs']|[[[=] _]|([] & _)]];
      try reflexivity.
    rewrite Hs' in IH. destruct IH as [IHa IHb]. cbv zeta in *. split.
    + apply sublist_cons. exact IHa.
    + apply sublist_cons. exact IHb.
  - destruct (splitLines t) as [|p ps] eqn:Hsp;
      [destruct (splitLines_inv t) as (? & ? & ? & Hx & _); congruence|].
    destruct IH as [IHa IHb]. cbv zeta in *. simpl consHead. split.
    + rewrite keptLines_cons. rewrite keptLines_cons in IHa.
      simpl trimEnd.
      destruct (isWhiteSpace c && isEmpty (trimEnd p)) eqn:Hcp.
      * apply andb_true_iff in Hcp as [_ Hp]. rewrite Hp in IHa.
        simpl. apply sublist_cons. exact IHa.
      * simpl isEmpty. cbv iota. simpl app. rewrite join_consHead.
        apply sublist_skip.
        destruct (trimEnd p) as [|d r]; [exact IHb|exact IHa].
    + apply sublist_cons. exact IHb.
Qed.

Lemma cleanUp_sublist (t : jsstring) : sublist (cleanUp t) t.
Proof.
  change (cleanUp t) with (trim (join [LF] (keptLines t))).
  etransitivity; [apply trim_sublist|].
  pose proof (keptLines_sublist t) as Hk.
  destruct (splitLines t) as [|p ps] eqn:Hs.
  - destruct (splitLines_inv t) as (p & ps & _ & Hs' & _). congruence.
  - exact (proj1 Hk).
Qed.

Lemma stripComments_only_deletes (text : jsstring) :
  sublist (stripComments text) text.
Proof.
  unfold stripComments. destruct (isEmpty text); [apply sublist_nil_l|].
  etransitivity; [apply cleanUp_sublist|].
  etransitivity; [apply removeLines_sublist|].
  etransitivity; [apply removeLines_sublist|].
  etransitivity; apply removeSpans_sublist.
Qed.

(** X4.  [stripComments] only deletes: its result is a subsequence of the
    text, the characters it keeps in their order. *)
Theorem stripComments_sublist (text : jsstring) :
  sublist (stripComments text) text.
Proof.
  apply stripComments_only_deletes.
Qed.

Lemma indexOf_absent_char (c : N) (needle s : jsstring) :
  Forall (fun x => x <> c) s -> indexOf (c :: needle) s = None.
Proof.
  induction 1 as [|x s Hx Hs IH]; [reflexivity|].
  cbn [indexOf startsWith]. rewrite IH.
  destruct (c =? x) eqn:Hcx; [apply N.eqb_eq in Hcx; congruence|reflexivity].
Qed.

Lemma noLineMatch_absent_char (h : jsstring -> bool) (c : N) (s : jsstring) :
  (forall r, h r = true -> exists r', r = c :: r') ->
  Forall (fun x => x <> c) s -> forall b, noLineMatch h b s.
Proof.
  intros Hh Hs. induction Hs as [|x s Hx Hs IH]; intros b; [exact I|].
  split; [|apply IH]. intros _.
  destruct (h (dropWhile isWhiteSpace (x :: s))) eqn:Hr; [|reflexivity].
  destruct (Hh _ Hr) as [r' Hr'].
  assert (Hall : Forall (fun x => x <> c) (dropWhile isWhiteSpace (x :: s)))
    by (apply Forall_dropWhile; constructor; assumption).
  rewrite Hr' in Hall. apply Forall_cons in Hall as [Hc _]. congruence.
Qed.

Lemma Forall_join (P : N -> Prop) (lines : list jsstring) :
  P LF -> Forall (Forall P) lines -> Forall P (join [LF] lines).
Proof.
  intros HLF. induction 1 as [|l lines Hl Hlines IH]; [constructor|].
  destruct lines as [|l2 lines]; [exact Hl|].
  rewrite join_cons. apply Forall_app. split; [exact Hl|].
  constructor; [exact HLF|exact IH].
Qed.

(** X5.  Lines that are already clean (not empty, no white space at the
    end, none in front of the first) and hold none of the characters [<],
    [/] and [#] pass through [stripComments] unchanged. *)
Theorem stripComments_plain_lines (lines : list jsstring) :
  cleanLines lines ->
  Forall (Forall (fun c => c <> 60 /\ c <> 47 /\ c <> 35)) lines ->
  stripComments (join [LF] lines) = join [LF] lines.
Proof.
  intros Hclean Hplain.
  assert (Hall : Forall (fun c => c <> 60 /\ c <> 47 /\ c <> 35)
                   (join [LF] lines)).
  { apply Forall_join; [|exact Hplain]. repeat split; discriminate. }
  apply stripComments_fixed.
  - apply (indexOf_absent_char 60). eapply Forall_impl; [exact Hall|].
    intros c Hc. simpl in Hc. tauto.
  - apply (indexOf_absent_char 47). eapply Forall_impl; [exact Hall|].
    intros c Hc. simpl in Hc. tauto.
  - apply (noLineMatch_absent_char isSlashHead 47).
    + intros [|x r]; [discriminate|]. unfold isSlashHead.
      change (js "//") with [47; 47]. cbn [startsWith].
      intros [Hx _]%andb_true_iff. apply N.eqb_eq in Hx. subst x. eauto.
    + eapply Forall_impl; [exact Hall|]. intros c Hc. simpl in Hc. tauto.
  - apply (noLineMatch_absent_char isHashHead 35).
    + intros [|x r]; [discriminate|]. unfold isHashHead.
      intros [Hx _]%andb_true_iff. apply N.eqb_eq in Hx. subst x. eauto.
    + eapply Forall_impl; [exact Hall|]. intros c Hc. simpl in Hc. tauto.
  - exists lines. auto.
Qed.

Lemma stripComments_plain_lines_witness :
  stripComments (join [LF] [js "let a = 1;"; js "  return a;"])
  = join [LF] [js "let a = 1;"; js "  return a;"].
Proof.
  apply (stripComments_plain_lines [js "let a = 1;"; js "  return a;"]).
  - split; [|reflexivity].
    repeat constructor; try discriminate; intros c [= <-]; reflexivity.
  - repeat constructor; discriminate.
Defined.

(** ** The stripper of [src/lib/textUtils.ts] *)

Lemma filterBlankRuns_nonblank (arr : list jsstring) :
  forall b,
    List.filter (fun l => negb (isBlank l)) (TextUtils.filterBlankRuns b arr)
    = List.filter (fun l => negb (isBlank l)) arr.
Proof.
  induction arr as [|l arr IH]; intros b; [reflexivity|].
  cbn [TextUtils.filterBlankRuns].
  destruct (isBlank l) eqn:Hl; destruct b; simpl; rewrite ?Hl; simpl;
    rewrite IH; reflexivity.
Qed.

Lemma filterBlankRuns_runs (arr : list jsstring) :
  forall b,
    (b = true ->
     forall l, head (TextUtils.filterBlankRuns b arr) = Some l ->
               isBlank l = false)
    /\ (forall i l1 l2,
           TextUtils.filterBlankRuns b arr !! i = Some l1 ->
           TextUtils.filterBlankRuns b arr !! S i = Some l2 ->
           isBlank l1 = true -> isBlank l2 = false).
Proof.
  induction arr as [|l arr IH]; intros b.
  { split; [intros _ l [=]|intros i l1 l2 [=]]. }
  cbn [TextUtils.filterBlankRuns].
  destruct (IH (isBlank l)) as [IHh IHa].
  destruct (negb (isBlank l) || negb b) eqn:Hkeep.
  - split.
    + intros -> l0 [= <-]. rewrite orb_false_r in Hkeep.
      apply negb_true_iff in Hkeep. exact Hkeep.
    + intros [|i] l1 l2; simpl.
      * intros [= <-] H2 Hb. apply IHh; [exact Hb|].
        destruct (TextUtils.filterBlankRuns (isBlank l) arr); [discriminate|].
        simpl in H2 |- *. exact H2.
      * apply IHa.
  - apply orb_false_iff in Hkeep as [Hl Hb].
    apply negb_false_iff in Hl, Hb. subst b. rewrite Hl in IHh, IHa.
    rewrite Hl. split; [intros _; exact (IHh eq_refl)|exact IHa].
Qed.

(** X6.  The filter of the stripper of [src/lib/textUtils.ts] keeps every
    line that is not blank, in order, as the one of
    [src/utils/textProcessor.ts] does; of the blank lines it keeps only
    one behind a line that is not blank: its result does not start with
    a blank line and has no two blank lines in a row. *)
Theorem filterBlankRuns_keeps_one_blank (arr : list jsstring) :
  let kept := TextUtils.filterBlankRuns true arr in
  List.filter (fun l => negb (isBlank l)) kept
  = List.filter (fun l => negb (isBlank l)) arr
  /\ (forall l, head kept = Some l -> isBlank l = false)
  /\ (forall i l1 l2,
         kept !! i = Some l1 -> kept !! S i = Some l2 ->
         isBlank l1 = true -> isBlank l2 = false).
Proof.
  intros kept. split; [apply filterBlankRuns_nonblank|].
  destruct (filterBlankRuns_runs arr true) as [Hh Ha].
  split; [exact (Hh eq_refl)|exact Ha].
Qed.

(** ** Paths *)

Lemma splitOnSlashes_no_slash (s : jsstring) :
  forall b,
    Forall (Forall (fun c => isSlash c = false)) (splitOnSlashes b s).
Proof.
  induction s as [|c s IH]; intros b; [repeat constructor|].
  cbn [splitOnSlashes]. destruct (isSlash c) eqn:Hc.
  - destruct b; [apply IH|]. constructor; [constructor|apply IH].
  - specialize (IH false).
    destruct (splitOnSlashes false s) as [|x xs]; simpl.
    + repeat constructor. exact Hc.
    + apply Forall_cons in IH as [Hx Hxs].
      constructor; [constructor; assumption|exact Hxs].
Qed.

Lemma splitOnSlashes_flag (s : jsstring) :
  List.filter (fun segment => negb (isEmpty segment)) (splitOnSlashes true s)
  = pathSegmentsOf s.
Proof.
  unfold pathSegmentsOf. destruct s as [|c s]; [reflexivity|].
  cbn [splitOnSlashes]. destruct (isSlash c); reflexivity.
Qed.

Lemma pathSegmentsOf_sanitizeFilePath (p : jsstring) :
  pathSegmentsOf (sanitizeFilePath p) = pathSegmentsOf p.
Proof.
  induction p as [|c p IH]; [reflexivity|].
  unfold sanitizeFilePath in *. simpl dropWhile.
  destruct (isSlash c) eqn:Hc; [|reflexivity].
  rewrite IH. unfold pathSegmentsOf at 2. cbn [splitOnSlashes].
  rewrite Hc. simpl. apply eq_sym, splitOnSlashes_flag.
Qed.

(** X7.  The segments handed to [joinPath] are never empty and hold no
    slash and no backslash; and cutting the leading slashes first changes
    nothing: the segments of the sanitized path are those of the
    path. *)
Theorem pathSegments_clean (p : jsstring) :
  Forall (fun segment =>
            segment <> [] /\ Forall (fun c => isSlash c = false) segment)
    (pathSegmentsOf (sanitizeFilePath p))
  /\ pathSegmentsOf (sanitizeFilePath p) = pathSegmentsOf p.
Proof.
  pose proof (pathSegmentsOf_sanitizeFilePath p) as Hsame.
  split; [|exact Hsame]. rewrite Hsame.
  unfold pathSegmentsOf. apply Forall_filter_bool.
  eapply Forall_impl; [apply splitOnSlashes_no_slash|].
  intros segment Hs Hne. split; [|exact Hs].
  destruct segment; [discriminate|discriminate].
Qed.

Lemma splitOnSlashes_segment_only (seg : jsstring) :
  seg <> [] -> Forall (fun c => isSlash c = false) seg ->
  forall b, splitOnSlashes b seg = [seg].
Proof.
  intros Hne Hseg. induction Hseg as [|c seg Hc Hseg IH]; [congruence|].
  intros b. cbn [splitOnSlashes]. rewrite Hc.
  destruct seg as [|d seg]; [reflexivity|].
  rewrite IH by discriminate. reflexivity.
Qed.

Lemma splitOnSlashes_segment (seg rest : jsstring) :
  seg <> [] -> Forall (fun c => isSlash c = false) seg ->
  forall b,
    splitOnSlashes b (seg ++ 47 :: rest) = seg :: splitOnSlashes true rest.
Proof.
  intros Hne Hseg. induction Hseg as [|c seg Hc Hseg IH]; [congruence|].
  intros b. simpl app. cbn [splitOnSlashes]. rewrite Hc.
  destruct seg as [|d seg]; [reflexivity|].
  rewrite IH by discriminate. reflexivity.
Qed.

(** X8.  Splitting undoes joining: a path made of segments (not empty,
    without slash or backslash) joined by [/], with any number of slashes
    and backslashes in front, has exactly these segments. *)
Theorem pathSegments_of_join (lead : jsstring) (segments : list jsstring) :
  forallb isSlash lead = true ->
  Forall (fun segment =>
            segment <> [] /\ Forall (fun c => isSlash c = false) segment)
    segments ->
  pathSegmentsOf (sanitizeFilePath (lead ++ join (js "/") segments))
  = segments.
Proof.
  intros Hlead Hsegs. unfold sanitizeFilePath.
  rewrite (dropWhile_all_app isSlash lead _ Hlead).
  fold (sanitizeFilePath (join (js "/") segments)).
  rewrite pathSegmentsOf_sanitizeFilePath.
  rewrite <- splitOnSlashes_flag. change (js "/") with [47].
  induction Hsegs as [|seg segs [Hne Hseg] Hsegs IH]; [reflexivity|].
  destruct segs as [|seg2 segs].
  - simpl join. rewrite splitOnSlashes_segment_only by assumption.
    destruct seg; [congruence|reflexivity].
  - change (join [47] (seg :: seg2 :: segs))
      with (seg ++ 47 :: join [47] (seg2 :: segs)).
    rewrite splitOnSlashes_segment by assumption.
    destruct seg as [|c0 seg0]; [congruence|].
    cbn [List.filter isEmpty negb]. rewrite IH. reflexivity.
Qed.

Lemma pathSegments_of_join_witness :
  pathSegmentsOf
    (sanitizeFilePath (js "//" ++ join (js "/") [js "src"; js "new.ts"]))
  = [js "src"; js "new.ts"].
Proof.
  apply (pathSegments_of_join (js "//") [js "src"; js "new.ts"]).
  - reflexivity.
  - repeat constructor; discriminate.
Defined.

(** X9.  For a root whose path does not end with a separator, the files
    within the workspace are those whose path is the root's path, a
    slash, and something more; a path that goes on behind the root's
    path with another character, as the one of a sibling folder whose
    name starts with the root's name, is not within it. *)
Theorem isPathWithinWorkspace_separator (root filePath : Uri) :
  endsWith (js "/") (uri_path root) = false ->
  (isPathWithinWorkspace filePath root = true
   <-> exists r, uri_path filePath = uri_path root ++ js "/" ++ r)
  /\ (forall c r, c <> 47 ->
        uri_path filePath = uri_path root ++ c :: r ->
        isPathWithinWorkspace filePath root = false).
Proof.
  intros Hend. unfold isPathWithinWorkspace, workspaceRootPath.
  rewrite Hend. change (js "/") with [47]. split.
  - rewrite startsWith_spec. split; intros [r Hr]; exists r;
      rewrite Hr, <- ?app_assoc; reflexivity.
  - intros c r Hc Hf. apply not_true_is_false.
    intros [r' Hr']%startsWith_spec. rewrite Hf, <- app_assoc in Hr'.
    apply app_inv_head in Hr'. injection Hr' as Hc' _. congruence.
Qed.

Lemma isPathWithinWorkspace_separator_witness :
  isPathWithinWorkspace (mkUri (js "/ws-backup/notes.txt")) sampleRoot
  = false.
Proof.
  apply (proj2 (isPathWithinWorkspace_separator sampleRoot
                  (mkUri (js "/ws-backup/notes.txt")) eq_refl)
           45 (js "backup/notes.txt")).
  - discriminate.
  - reflexivity.
Defined.

(** ** The executor, on every path through the code *)

Section Executor.
Context `{Host}.

(** X10.  The executor never writes outside the workspace.  Whatever the
    action and the state, and whether the run returns or throws: a file
    whose bytes differ after the run, and the file of every [writeFile]
    call of the run, is the target of the action, and this target has
    passed the test of [isPathWithinWorkspace] against the first
    workspace folder. *)
Theorem executor_writes_only_the_checked_target (a : ModelAction)
    (w : World) (u : Uri) :
  let w' := worldOf (executeModelAction a w) in
  files w' !! u <> files w !! u
  \/ (exists t, WriteFile u t ∈ fsCalls w' /\ ~ WriteFile u t ∈ fsCalls w) ->
  exists p root rest,
    action a <> insert_code
    /\ workspaceFolders w = Some (root :: rest)
    /\ path a = Some p
    /\ u = joinPath root (pathSegmentsOf (sanitizeFilePath p))
    /\ isPathWithinWorkspace u root = true.
Proof.
  intros w' Hchg. subst w'.
  destruct (decide (action a = insert_code)) as [Ha|Ha].
  { exfalso. unfold executeModelAction, handleCodeInsertion in Hchg.
    rewrite Ha in Hchg.
    destruct (activeTextEditor w) as [editor|]; [destruct (isEmpty _)|];
      destruct Hchg as [Hf|(t & Hin & Hout)]; auto. }
  destruct (handleFileOperation_cases a w)
    as [[m Hm]|[Hm|(p & root & rest & Hw & Hp & Hne & Hin)]].
  1,2: exfalso; rewrite executeModelAction_file, Hm in Hchg by assumption;
       destruct Hchg as [Hf|(t & Hi & Ho)]; auto.
  exists p, root, rest.
  split; [exact Ha|]. split; [exact Hw|]. split; [exact Hp|].
  set (target := joinPath root (pathSegmentsOf (sanitizeFilePath p))) in *.
  assert (Hu : u = target); [|split; [exact Hu|rewrite Hu; exact Hin]].
  destruct (decide (u = target)) as [|Hne']; [assumption|exfalso].
  rewrite (fileAction_run a p root rest w Ha Hw Hp Hne Hin) in Hchg.
  fold target in Hchg. cbv zeta in Hchg.
  repeat match type of Hchg with
         | context [if ?b then _ else _] =>
             destruct b; cbn [existsb orb worldOf files fsCalls] in Hchg
         end;
    cbn [worldOf files fsCalls] in Hchg;
    destruct Hchg as [Hf|(t & Hi & Ho)];
    try (apply Hf; rewrite ?lookup_insert_ne by congruence; reflexivity);
    apply Ho; destruct (action a);
    rewrite ?elem_of_app, ?list_elem_of_singleton, ?elem_of_nil in Hi;
    intuition congruence.
Qed.

End Executor.

Lemma executor_writes_only_the_checked_target_witness :
  let a := mkModelAction create_file (Some (js "docs/a.txt")) (Some (js "x")) in
  exists p root rest,
    action a <> insert_code
    /\ workspaceFolders sampleWorld = Some (root :: rest)
    /\ path a = Some p
    /\ mkUri (js "/ws/docs/a.txt")
       = joinPath root (pathSegmentsOf (sanitizeFilePath p))
    /\ isPathWithinWorkspace (mkUri (js "/ws/docs/a.txt")) root = true.
Proof.
  intros a.
  apply (@executor_writes_only_the_checked_target referenceHost a sampleWorld
           (mkUri (js "/ws/docs/a.txt"))).
  left. vm_compute. discriminate.
Defined.

Section ExecutorResults.
Context `{Host}.

(** X11.  A [create_file] action whose target lies in the workspace
    first creates the parent directory, and only when the path has more
    than one segment, then writes the bytes of the content (of the empty
    text, when the action has none) to the target.  When both calls are
    accepted, the file holds these bytes whatever was there before, no
    other file has changed, the file is reported created under its last
    path component, and the document is shown if it can be.  When one of
    them rejects, the executor throws its error at once: no later call
    is made, no file has changed, nothing is reported and no document is
    shown.  The editor is never touched. *)
Theorem create_file_result (a : ModelAction) (p : jsstring)
    (root : Uri) (rest : list Uri) (w : World) :
  action a = create_file ->
  workspaceFolders w = Some (root :: rest) ->
  path a = Some p -> p <> [] ->
  let pathSegments := pathSegmentsOf (sanitizeFilePath p) in
  let target := joinPath root pathSegments in
  let parent := joinPath root (removelast pathSegments) in
  let mkdir :=
    if (1 <? length pathSegments)%nat then [CreateDirectory parent] else [] in
  let data := TextEncoder_encode (default [] (content a)) in
  let w' := worldOf (executeModelAction a w) in
  isPathWithinWorkspace target root = true ->
  edits w' = edits w
  /\ (existsb (rejects w) mkdir = false ->
      rejects w (WriteFile target data) = false ->
      executeModelAction a w = Returned w'
      /\ files w' = <[target := data]> (files w)
      /\ fsCalls w' = fsCalls w ++ mkdir ++ [WriteFile target data]
      /\ notices w'
         = notices w ++ [(Information, MsgCreatedFile (fileName target))]
      /\ opened w'
         = opened w ++ (if cannotShow w target then [] else [target]))
  /\ (existsb (rejects w) mkdir = true ->
      executeModelAction a w = Thrown (CreateDirectory parent) w'
      /\ files w' = files w
      /\ fsCalls w' = fsCalls w ++ mkdir
      /\ notices w' = notices w
      /\ opened w' = opened w)
  /\ (existsb (rejects w) mkdir = false ->
      rejects w (WriteFile target data) = true ->
      executeModelAction a w = Thrown (WriteFile target data) w'
      /\ files w' = files w
      /\ fsCalls w' = fsCalls w ++ mkdir ++ [WriteFile target data]
      /\ notices w' = notices w
      /\ opened w' = opened w).
Proof.
  intros Ha Hw Hp Hne pathSegments target parent mkdir data w' Hin.
  subst w'.
  rewrite (fileAction_run a p root rest w) by (assumption || congruence).
  fold pathSegments target parent mkdir. rewrite Ha. fold data. cbv zeta.
  split; [|split; [|split]].
  - destruct (existsb _ _), (rejects w (WriteFile target data)); reflexivity.
  - intros -> ->. cbn [worldOf files fsCalls notices opened].
    rewrite app_nil_l. repeat split.
  - intros ->. repeat split.
  - intros -> ->. cbn [worldOf files fsCalls notices opened].
    rewrite app_nil_l. repeat split.
Qed.

Lemma notices_executeModelAction (a : ModelAction) (w : World) :
  match executeModelAction a w with
  | Returned w' =>
      exists severity message,
        notices w' = notices w ++ [(severity, message)]
  | Thrown call w' =>
      notices w' = notices w
      /\ posted w' = posted w
      /\ action a <> insert_code
      /\ rejects w call = true
      /\ last (fsCalls w') = Some call
      /\ forall uri, call <> ReadFile uri
  end.
Proof.
  destruct (decide (action a = insert_code)) as [Ha|Ha].
  { unfold executeModelAction, handleCodeInsertion. rewrite Ha.
    destruct (activeTextEditor w) as [editor|];
      [destruct (isEmpty _)|]; simpl; eauto. }
  destruct (handleFileOperation_cases a w)
    as [[m Hm]|[Hm|(p & root & rest & Hw & Hp & Hne & Hin)]].
  1,2: rewrite executeModelAction_file, Hm by assumption; simpl; eauto.
  rewrite (fileAction_run a p root rest w Ha Hw Hp Hne Hin). cbv zeta.
  destruct (1 <? length _)%nat; cbn [existsb orb].
  - destruct (rejects w (CreateDirectory _)) eqn:Hmk; cbn [orb].
    + cbn [notices posted fsCalls]. rewrite last_snoc.
      repeat split; auto; discriminate.
    + destruct (rejects w (WriteFile _ _)) eqn:Hwr.
      * cbn [notices posted fsCalls].
        rewrite !app_assoc, last_snoc. repeat split; auto; discriminate.
      * cbn [notices]. eauto.
  - destruct (rejects w (WriteFile _ _)) eqn:Hwr.
    + cbn [notices posted fsCalls].
      rewrite !app_assoc, last_snoc. repeat split; auto; discriminate.
    + cbn [notices]. eauto.
Qed.

(** X12.  One run of the executor shows at most one message: exactly one
    when it returns, and none when it throws.  Only a file action
    throws, and what it throws is the error of the [createDirectory] or
    [writeFile] call that rejected, the last call it made; a rejected
    [readFile] is never thrown. *)
Theorem executor_message_or_error (a : ModelAction) (w : World) :
  match executeModelAction a w with
  | Returned w' =>
      exists severity message,
        notices w' = notices w ++ [(severity, message)]
  | Thrown call w' =>
      notices w' = notices w
      /\ posted w' = posted w
      /\ action a <> insert_code
      /\ rejects w call = true
      /\ last (fsCalls w') = Some call
      /\ forall uri, call <> ReadFile uri
  end.
Proof.
  apply notices_executeModelAction.
Qed.

(** X13.  The two kinds of action keep to their side: an [insert_code]
    action returns, calls nothing on the file system, changes no file
    and shows no document; a file action inserts nothing in the editor,
    whether it returns or throws. *)
Theorem executor_sides (a : ModelAction) (w : World) :
  let w' := worldOf (executeModelAction a w) in
  (action a = insert_code ->
   executeModelAction a w = Returned w'
   /\ files w' = files w /\ fsCalls w' = fsCalls w /\ opened w' = opened w)
  /\ (action a <> insert_code -> edits w' = edits w).
Proof.
  intros w'. subst w'. split.
  - intros Ha. unfold executeModelAction, handleCodeInsertion. rewrite Ha.
    destruct (activeTextEditor w) as [editor|];
      [destruct (isEmpty _)|]; repeat split.
  - intros Ha.
    destruct (handleFileOperation_cases a w)
      as [[m Hm]|[Hm|(p & root & rest & Hw & Hp & Hne & Hin)]].
    1,2: rewrite executeModelAction_file, Hm by assumption; reflexivity.
    rewrite (fileAction_run a p root rest w Ha Hw Hp Hne Hin). cbv zeta.
    destruct (existsb _ _); [reflexivity|].
    destruct (rejects w _); reflexivity.
Qed.

(** X14.  [appendToFile] reads the file once and then writes it once.  The
    bytes it writes are those of the text it has read (what
    [TextDecoder] makes of the bytes of the file), a separator and the
    content, where the separator is one line feed, or nothing when the
    text read is empty or ends with a line feed.  A write that is
    accepted leaves these bytes in the file, a rejected one leaves the
    file as it was, and no other file changes.  A read that rejects counts
    as an empty file, also when the file exists: the accepted write then
    replaces it by the content alone. *)
Theorem appendToFile_writes_combined (fileUri : Uri) (added : jsstring)
    (w : World) :
  let old := existingContentOf w fileUri in
  let separator := if isEmpty old || endsWith [LF] old then [] else [LF] in
  let data := TextEncoder_encode (old ++ separator ++ added) in
  let w' := worldOf (appendToFile fileUri added w) in
  fsCalls w' = fsCalls w ++ [ReadFile fileUri; WriteFile fileUri data]
  /\ files w' !! fileUri
     = (if rejects w (WriteFile fileUri data) then files w !! fileUri
        else Some data)
  /\ (forall u, u <> fileUri -> files w' !! u = files w !! u)
  /\ (rejects w (ReadFile fileUri) = true ->
      data = TextEncoder_encode added).
Proof.
  intros old separator data w'.
  assert (Hdata : data = TextEncoder_encode (combinedContentOf old added)).
  { subst data separator. unfold combinedContentOf.
    destruct (isEmpty old || endsWith [LF] old); reflexivity. }
  subst w'. rewrite appendToFile_run. fold old. rewrite <- Hdata.
  unfold writeFile. fs_simpl.
  destruct (rejects w (WriteFile fileUri data)) eqn:Hwr; fs_simpl.
  - split; [rewrite <- app_assoc; reflexivity|]. split; [reflexivity|].
    split; [reflexivity|].
    intros Hrd. subst data separator old. unfold existingContentOf.
    rewrite Hrd. reflexivity.
  - split; [rewrite <- app_assoc; reflexivity|].
    split; [apply lookup_insert_eq|].
    split; [intros u Hu; apply lookup_insert_ne; congruence|].
    intros Hrd. subst data separator old. unfold existingContentOf.
    rewrite Hrd. reflexivity.
Qed.

End ExecutorResults.

Lemma create_file_result_witness :
  let made := mkModelAction create_file (Some (js "docs/a.txt")) None in
  let refused := mkModelAction create_file (Some (js "notes")) (Some (js "x")) in
  let w1 := worldOf (executeModelAction made sampleWorld) in
  let w2 := worldOf (executeModelAction refused sampleWorld) in
  (executeModelAction made sampleWorld = Returned w1
   /\ files w1 = <[mkUri (js "/ws/docs/a.txt") := []]> (files sampleWorld)
   /\ fsCalls w1
      = [CreateDirectory (mkUri (js "/ws/docs"));
         WriteFile (mkUri (js "/ws/docs/a.txt")) []]
   /\ notices w1 = [(Information, MsgCreatedFile (js "a.txt"))]
   /\ opened w1 = [mkUri (js "/ws/docs/a.txt")])
  /\ (executeModelAction refused sampleWorld
      = Thrown (WriteFile (mkUri (js "/ws/notes")) (js "x")) w2
      /\ files w2 = files sampleWorld
      /\ fsCalls w2 = [WriteFile (mkUri (js "/ws/notes")) (js "x")]
      /\ notices w2 = []
      /\ opened w2 = []).
Proof.
  intros made refused w1 w2. split.
  - pose proof (@create_file_result referenceHost made (js "docs/a.txt")
                  sampleRoot [] sampleWorld eq_refl eq_refl eq_refl
                  ltac:(discriminate)) as Hthm.
    cbv zeta in Hthm.
    destruct (Hthm ltac:(vm_compute; reflexivity)) as (_ & Hok & _).
    apply Hok; vm_compute; reflexivity.
  - pose proof (@create_file_result referenceHost refused (js "notes")
                  sampleRoot [] sampleWorld eq_refl eq_refl eq_refl
                  ltac:(discriminate)) as Hthm.
    cbv zeta in Hthm.
    destruct (Hthm ltac:(vm_compute; reflexivity)) as (_ & _ & _ & Hno).
    apply Hno; vm_compute; reflexivity.
Defined.

Lemma executor_sides_witness :
  let a := mkModelAction append_file (Some (js "notes/log.txt")) (Some (js "B")) in
  edits (worldOf (executeModelAction a sampleWorld)) = edits sampleWorld.
Proof.
  intros a.
  apply (proj2 (@executor_sides referenceHost a sampleWorld)). discriminate.
Defined.

Lemma appendToFile_writes_combined_witness :
  let unreadable :=
    mkWorld None None {[ mkUri (js "/ws/a.txt") := js "A" ]}
      (fun call => match call with ReadFile _ => true | _ => false end)
      (fun _ => false) [] [] [] [] [] in
  TextEncoder_encode
    (existingContentOf unreadable (mkUri (js "/ws/a.txt"))
     ++ (if isEmpty (existingContentOf unreadable (mkUri (js "/ws/a.txt")))
            || endsWith [LF]
                 (existingContentOf unreadable (mkUri (js "/ws/a.txt")))
         then [] else [LF])
     ++ js "B")
  = TextEncoder_encode (js "B").
Proof.
  intros unreadable.
  apply (proj2 (proj2 (proj2
           (@appendToFile_writes_combined referenceHost
              (mkUri (js "/ws/a.txt")) (js "B") unreadable)))).
  reflexivity.
Defined.

(** ** The parser and the dispatch, at the edges *)

Section ParserEdges.
Context `{Host}.

(** X15.  White space around the response does not matter to
    [parseModelAction]. *)
Theorem parseModelAction_outer_space (w1 t w2 : jsstring) :
  forallb isWhiteSpace w1 = true -> forallb isWhiteSpace w2 = true ->
  parseModelAction (w1 ++ t ++ w2) = parseModelAction t.
Proof.
  intros H1 H2. unfold parseModelAction.
  rewrite (trim_all_app w1 _ H1), (trim_app_all t w2 H2). reflexivity.
Qed.

Lemma Forall_trim (P : N -> Prop) (s : jsstring) :
  Forall P s -> Forall P (trim s).
Proof. intros Hs. apply Forall_dropWhile, Forall_trimEnd, Hs. Qed.

(** X16.  A response without an opening brace, or without a closing
    brace, is never taken for an action. *)
Theorem parseModelAction_needs_braces (text : jsstring) :
  Forall (fun c => c <> 123) text \/ Forall (fun c => c <> 125) text ->
  parseModelAction text = None.
Proof.
  intros Hno. unfold parseModelAction.
  destruct (isEmpty (trim text)); [reflexivity|].
  destruct Hno as [Hno|Hno].
  - change (js "{") with [123].
    rewrite (indexOf_absent_char 123 [] _ (Forall_trim _ _ Hno)).
    reflexivity.
  - change (js "}") with [125].
    rewrite (lastIndexOf_fresh 125 [] _ (Forall_trim _ _ Hno)).
    destruct (indexOf _ _); reflexivity.
Qed.

Lemma posted_executeModelAction (a : ModelAction) (w : World) :
  posted (worldOf (executeModelAction a w)) = posted w.
Proof.
  destruct (decide (action a = insert_code)) as [Ha|Ha].
  { unfold executeModelAction, handleCodeInsertion. rewrite Ha.
    destruct (activeTextEditor w) as [editor|];
      [destruct (isEmpty _)|]; reflexivity. }
  destruct (handleFileOperation_cases a w)
    as [[m Hm]|[Hm|(p & root & rest & Hw & Hp & Hne & Hin)]].
  1,2: rewrite executeModelAction_file, Hm by assumption; reflexivity.
  rewrite (fileAction_run a p root rest w Ha Hw Hp Hne Hin). cbv zeta.
  destruct (existsb _ _); [reflexivity|].
  destruct (rejects w _); reflexivity.
Qed.

(** X17.  What one request does, whatever comes back: it shows exactly
    one message.  A blank prompt only brings a warning and a failed
    request only its error: the state is otherwise unchanged.  A response
    that is no action is inserted and then posted to the webview, raw and
    once.  A response that is an action is posted in the same way when
    the executor returns; when the executor throws, the error of the
    rejected call is the message shown and nothing is posted. *)
Theorem handleUserPrompt_outcomes (userPrompt modelName : jsstring)
    (w : World) :
  let w' := handleUserPrompt userPrompt modelName w in
  (isEmpty (trim userPrompt) = true ->
   w' = showWarningMessage MsgEnterPrompt w)
  /\ (isEmpty (trim userPrompt) = false ->
      generateResponseForUser (trim userPrompt) modelName = None ->
      w' = showErrorMessage MsgGenerationFailed w)
  /\ (forall raw,
        isEmpty (trim userPrompt) = false ->
        generateResponseForUser (trim userPrompt) modelName = Some raw ->
        (exists severity message,
           notices w' = notices w ++ [(severity, message)])
        /\ match parseModelAction raw with
           | None => posted w' = posted w ++ [raw]
           | Some modelAction =>
               match executeModelAction modelAction w with
               | Returned _ => posted w' = posted w ++ [raw]
               | Thrown call _ =>
                   posted w' = posted w
                   /\ notices w' = notices w ++ [(Error, MsgActionFailed call)]
               end
           end).
Proof.
  intros w'. subst w'. unfold handleUserPrompt. split; [|split].
  - intros ->. reflexivity.
  - intros -> ->. reflexivity.
  - intros raw -> ->. destruct (parseModelAction raw) as [modelAction|].
    + pose proof (notices_executeModelAction modelAction w) as Hn.
      pose proof (posted_executeModelAction modelAction w) as Hp.
      destruct (executeModelAction modelAction w) as [w1|call w1];
        cbn [worldOf] in Hp.
      * cbn [notices posted postMessage]. rewrite Hp. split; [exact Hn|].
        reflexivity.
      * destruct Hn as (Hn & _).
        cbn [notices posted showErrorMessage showMessage].
        rewrite Hn, Hp. eauto.
    + unfold insertCodeResponse.
      destruct (activeTextEditor w) as [editor|];
        [destruct (isEmpty _)|]; (split; [simpl; eauto|reflexivity]).
Qed.

End ParserEdges.

Lemma parseModelAction_outer_space_witness :
  @parseModelAction referenceHost
    ([LF; 32] ++ jsq "{'action':'insert_code','content':'x'}" ++ [LF])
  = @parseModelAction referenceHost
      (jsq "{'action':'insert_code','content':'x'}").
Proof.
  apply (@parseModelAction_outer_space referenceHost [LF; 32] _ [LF]);
    reflexivity.
Defined.

Lemma parseModelAction_needs_braces_witness :
  @parseModelAction referenceHost (js "let x = [1, 2];") = None.
Proof.
  apply (@parseModelAction_needs_braces referenceHost). left.
  repeat constructor; discriminate.
Defined.

Lemma handleUserPrompt_outcomes_witness :
  let model := js "llama3.2:latest" in
  let written := jsq "{'action':'create_file','path':'docs/a.txt'}" in
  let rejected := jsq "{'action':'create_file','path':'notes'}" in
  let code := js "x = 1;" in
  let run prompt model := handleUserPrompt prompt model sampleWorld in
  run (js "   ") model = showWarningMessage MsgEnterPrompt sampleWorld
  /\ run code [] = showErrorMessage MsgGenerationFailed sampleWorld
  /\ posted (run code model) = [code]
  /\ posted (run written model) = [written]
  /\ (posted (run rejected model) = []
      /\ notices (run rejected model)
         = [(Error, MsgActionFailed (WriteFile (mkUri (js "/ws/notes")) []))]).
Proof.
  intros model written rejected code run.
  pose proof (fun prompt m =>
                @handleUserPrompt_outcomes referenceHost prompt m sampleWorld)
    as Hthm.
  cbv zeta in Hthm.
  split; [exact (proj1 (Hthm (js "   ") model) eq_refl)|].
  split; [exact (proj1 (proj2 (Hthm code [])) eq_refl eq_refl)|].
  split; [|split].
  - exact (proj2 (proj2 (proj2 (Hthm code model)) code eq_refl eq_refl)).
  - exact (proj2 (proj2 (proj2 (Hthm written model)) written
                    eq_refl eq_refl)).
  - exact (proj2 (proj2 (proj2 (Hthm rejected model)) rejected
                    eq_refl eq_refl)).
Defined.

(** ** The summary of a response *)

Lemma replaceBackslashS_absent (s : jsstring) :
  Forall (fun c => c <> 92) s -> replaceBackslashS false s = s.
Proof.
  induction 1 as [|c s Hc Hs IH]; [reflexivity|].
  cbn [replaceBackslashS andb].
  destruct (c =? 92) eqn:E; [apply N.eqb_eq in E; congruence|].
  cbn [andb]. rewrite IH. reflexivity.
Qed.

(** X18.  The summary of a response has at most 50 code units; a response
    without a backslash whose trimmed text is that short is summarized by
    its trimmed text, line feeds and all (the expression of the source
    replaces a backslash and letters [s], not white space). *)
Theorem summarizeResponse_bound (response : jsstring) :
  (length (summarizeResponse response) <= 50)%nat
  /\ (Forall (fun c => c <> 92) response ->
      (length (trim response) <= 50)%nat ->
      summarizeResponse response = trim response).
Proof.
  unfold summarizeResponse. split.
  - destruct (50 <? length _)%nat eqn:Hl.
    + apply Nat.ltb_lt in Hl. change (js "...") with [46; 46; 46].
      rewrite length_app, length_take. simpl length. lia.
    + apply Nat.ltb_ge in Hl. exact Hl.
  - intros Hno Hlen. rewrite (replaceBackslashS_absent _ Hno).
    apply Nat.ltb_ge in Hlen. rewrite Hlen. reflexivity.
Qed.

Lemma summarizeResponse_bound_witness :
  summarizeResponse (js "a" ++ [LF] ++ js "  b ") = js "a" ++ [LF] ++ js "  b".
Proof.
  apply (proj2 (summarizeResponse_bound (js "a" ++ [LF] ++ js "  b "))).
  - repeat constructor; discriminate.
  - vm_compute. lia.
Defined.

(** ** The prompt *)

Lemma buildPromptForModel_header (userRequest : jsstring) :
  buildPromptForModel userRequest = buildPromptForModel [] ++ userRequest.
Proof.
  unfold buildPromptForModel. cbn [join].
  rewrite app_nil_r, <- !app_assoc. reflexivity.
Qed.

(** X19.  The prompt is a fixed header and then the user's request,
    verbatim and last: two requests with the same prompt are the same
    request.  The builder of [src/lib/textUtils.ts] gives the same
    prompt. *)
Theorem buildPromptForModel_injective (u1 u2 : jsstring) :
  (buildPromptForModel u1 = buildPromptForModel u2 <-> u1 = u2)
  /\ u1 `suffix_of` buildPromptForModel u1
  /\ buildModelPrompt u1 = buildPromptForModel u1.
Proof.
  split; [|split].
  - split; [|intros ->; reflexivity].
    rewrite (buildPromptForModel_header u1), (buildPromptForModel_header u2).
    apply app_inv_head.
  - rewrite buildPromptForModel_header. apply suffix_app_r. reflexivity.
  - reflexivity.
Qed.

(** ** The answer of the backend *)

Section OllamaResponse.
Context `{Host}.
Variable jsToString : JValue -> jsstring.
Variable numberIsZero : jsstring -> bool.

Lemma lineResponse_string (line : jsstring) (v : JValue) (r : jsstring) :
  JSON_parse line = Some v ->
  getProperty v (js "response") = Some (JString r) ->
  lineResponse jsToString numberIsZero line = r.
Proof.
  intros Hparse Hr. unfold lineResponse. rewrite Hparse.
  destruct v; try discriminate. rewrite Hr. simpl.
  destruct r; reflexivity.
Qed.

(** X20.  An answer that parses to an object with a string [response]
    gives that string, the empty one too; an answer on one line that does
    not parse gives the error of the unexpected format. *)
Theorem parseOllamaResponse_single (responseText : jsstring) :
  (forall v r,
      JSON_parse responseText = Some v ->
      getProperty v (js "response") = Some (JString r) ->
      parseOllamaResponse jsToString numberIsZero responseText = Some r)
  /\ (JSON_parse responseText = None ->
      Forall (fun c => c <> LF) responseText ->
      parseOllamaResponse jsToString numberIsZero responseText = None).
Proof.
  unfold parseOllamaResponse. split.
  - intros v r -> ->. reflexivity.
  - intros -> Hline. rewrite (splitLines_cleanLine_only _ Hline).
    simpl. destruct (negb (isBlank responseText)); reflexivity.
Qed.

(** X21.  A streamed answer: two or more lines (not blank, without white
    space at the end), each an object with a string [response], while the
    whole text is no such object, give the strings of the lines put
    together in order; when they are all empty the code throws. *)
Theorem parseOllamaResponse_stream (lines : list jsstring)
    (parts : list jsstring) :
  Forall cleanLine lines -> (2 <= length lines)%nat ->
  Forall2 (fun line part =>
             exists v, JSON_parse line = Some v
                       /\ getProperty v (js "response")
                          = Some (JString part))
    lines parts ->
  (forall v, JSON_parse (join [LF] lines) = Some v ->
             asString (getProperty v (js "response")) = None) ->
  parseOllamaResponse jsToString numberIsZero (join [LF] lines)
  = if isEmpty (List.concat parts) then None
    else Some (List.concat parts).
Proof.
  intros Hclean Hlen Hparts Hwhole. unfold parseOllamaResponse.
  assert (Hfirst :
    match JSON_parse (join [LF] lines) with
    | Some jsonResponse => asString (getProperty jsonResponse (js "response"))
    | None => None
    end = None).
  { destruct (JSON_parse (join [LF] lines)) as [v|] eqn:Hp; [|reflexivity].
    apply Hwhole. reflexivity. }
  rewrite Hfirst.
  assert (Hne : lines <> []) by (intros ->; simpl in Hlen; lia).
  rewrite (splitLines_join lines Hne Hclean).
  rewrite (filter_clean lines Hclean).
  assert (Hl : (1 <? length lines)%nat = true) by (apply Nat.ltb_lt; lia).
  rewrite Hl. cbv zeta.
  assert (Hmap : map (lineResponse jsToString numberIsZero) lines = parts).
  { clear -Hparts. induction Hparts as [|line part lines parts (v & Hv & Hr) _ IH];
      [reflexivity|].
    simpl. rewrite (lineResponse_string line v part Hv Hr), IH. reflexivity. }
  rewrite Hmap. reflexivity.
Qed.

End OllamaResponse.

Lemma parseOllamaResponse_single_witness :
  @parseOllamaResponse referenceHost (fun _ => []) (fun _ => false)
    (jsq "{'model':'m','response':'let a;','done':true}")
  = Some (js "let a;").
Proof.
  apply (proj1 (@parseOllamaResponse_single referenceHost (fun _ => [])
                  (fun _ => false)
                  (jsq "{'model':'m','response':'let a;','done':true}"))
           (JObject [(js "model", JString (js "m"));
                     (js "response", JString (js "let a;"));
                     (js "done", JBool true)])).
  - vm_compute. reflexivity.
  - reflexivity.
Defined.

Lemma parseOllamaResponse_stream_witness :
  @parseOllamaResponse referenceHost (fun _ => []) (fun _ => false)
    (join [LF] [jsq "{'response':'let '}"; jsq "{'response':'a;'}"])
  = Some (js "let a;").
Proof.
  apply (@parseOllamaResponse_stream referenceHost (fun _ => [])
           (fun _ => false)
           [jsq "{'response':'let '}"; jsq "{'response':'a;'}"]
           [js "let "; js "a;"]).
  - repeat constructor; try discriminate; intros c [= <-]; reflexivity.
  - simpl. lia.
  - constructor; [|constructor; [|constructor]].
    + exists (JObject [(js "response", JString (js "let "))]).
      split; [vm_compute; reflexivity|reflexivity].
    + exists (JObject [(js "response", JString (js "a;"))]).
      split; [vm_compute; reflexivity|reflexivity].
  - intros v Hv. vm_compute in Hv. discriminate.
Defined.

(** ** What gets inserted *)

Lemma within_sublist (s u : jsstring) :
  (exists a b, s = a ++ u ++ b) -> sublist u s.
Proof.
  intros (a & b & ->). apply sublist_inserts_l, sublist_inserts_r.
  reflexivity.
Qed.

(** X22.  The extension inserts nothing the model did not write: every
    text [insertCodeResponse] inserts is a subsequence of the response,
    not empty, with one line feed added at its end. *)
Theorem insertCodeResponse_inserts_from_response (response : jsstring)
    (w : World) (position : Position) (text : jsstring) :
  (position, text) ∈ edits (insertCodeResponse response w) ->
  (position, text) ∈ edits w
  \/ exists c, text = c ++ [LF] /\ c <> [] /\ sublist c response.
Proof.
  unfold insertCodeResponse.
  destruct (activeTextEditor w) as [editor|]; [|left; assumption].
  destruct (isEmpty (stripComments (unwrapCodeFence response))) eqn:He;
    [left; assumption|].
  simpl. rewrite stripComments_not_endsWith_LF.
  intros [Hin|Hin]%elem_of_app; [left; exact Hin|right].
  apply list_elem_of_fmap in Hin as (selection & [= _ ->] & _).
  exists (stripComments (unwrapCodeFence response)).
  split; [reflexivity|]. split; [apply isEmpty_false; exact He|].
  etransitivity; [apply stripComments_only_deletes|].
  apply within_sublist, unwrapCodeFence_part.
Qed.

Lemma insertCodeResponse_inserts_from_response_witness :
  let response := js "```js" ++ [LF] ++ js "f(); // go" ++ [LF] ++ js "```" in
  (mkPosition 0 0, js "f(); // go" ++ [LF]) ∈ edits sampleWorld
  \/ exists c, js "f(); // go" ++ [LF] = c ++ [LF] /\ c <> []
               /\ sublist c response.
Proof.
  intros response.
  apply (insertCodeResponse_inserts_from_response response sampleWorld
           (mkPosition 0 0) (js "f(); // go" ++ [LF])).
  vm_compute. left.
Defined.

(** * The comment stripper: a second pass *)

Lemma removeSpans_length (open close s : jsstring) (k : nat) :
  (length (removeSpans open close k s) <= length s)%nat.
Proof. apply sublist_length, removeSpans_sublist. Qed.

Lemma hasSpan_skip (open close : jsstring) (c : N) (s : jsstring) :
  startsWith open (c :: s) = false ->
  hasSpan open close (c :: s) = hasSpan open close s.
Proof.
  intros Hs. unfold hasSpan. cbn [indexOf]. rewrite Hs.
  destruct (indexOf open s) as [i|]; reflexivity.
Qed.

(** A text with a complete span gets shorter, a text without one is not
    changed. *)
Lemma removeSpans_hasSpan (open close s : jsstring) :
  open <> [] ->
  if hasSpan open close s
  then (length (removeSpans open close 0 s) < length s)%nat
  else removeSpans open close 0 s = s.
Proof.
  intros Hopen. induction s as [|c s IH].
  - destruct open; [congruence|reflexivity].
  - cbn [removeSpans]. destruct (startsWith open (c :: s)) eqn:Hs.
    + unfold hasSpan. cbn [indexOf]. rewrite Hs.
      change (0 + length open)%nat with (length open).
      destruct (indexOf close (drop (length open) (c :: s))) as [j|];
        [|reflexivity].
      pose proof (removeSpans_length open close s
                    (length open + j + length close - 1)).
      simpl. lia.
    + rewrite (hasSpan_skip _ _ _ _ Hs).
      destruct (hasSpan open close s); simpl; [lia|congruence].
Qed.

Lemma indexOf_Some_split (n s : jsstring) :
  forall i, indexOf n s = Some i ->
            s = take i s ++ n ++ drop (i + length n) s.
Proof.
  induction s as [|c s IH]; intros i.
  - cbn [indexOf]. destruct (startsWith n []) eqn:Hs; [|discriminate].
    intros [= <-]. apply startsWith_spec in Hs as [r Hr].
    destruct n; [reflexivity|discriminate].
  - cbn [indexOf]. destruct (startsWith n (c :: s)) eqn:Hs.
    + intros [= <-]. apply startsWith_spec in Hs as [r Hr].
      rewrite Hr at 1. simpl take. simpl Nat.add. rewrite Hr.
      rewrite drop_app_length. reflexivity.
    + destruct (indexOf n s) as [j|]; [|discriminate].
      intros [= <-]. simpl. f_equal. apply IH. reflexivity.
Qed.

Lemma indexOf_contained (n a c : jsstring) :
  exists i, indexOf n (a ++ n ++ c) = Some i /\ (i <= length a)%nat.
Proof.
  induction a as [|x a (i & Hi & Hle)].
  - exists 0%nat. split; [|simpl; lia]. simpl app.
    destruct (n ++ c) as [|y r] eqn:Hr.
    + cbn [indexOf]. destruct n; [reflexivity|discriminate].
    + cbn [indexOf]. rewrite <- Hr, startsWith_app. reflexivity.
  - simpl app. cbn [indexOf].
    destruct (startsWith n (x :: a ++ n ++ c)).
    + exists 0%nat. split; [reflexivity|simpl; lia].
    + exists (S i). rewrite Hi. split; [reflexivity|simpl; lia].
Qed.

Lemma hasSpan_spec (open close s : jsstring) :
  hasSpan open close s = true <-> containsSpan open close s.
Proof.
  unfold hasSpan, containsSpan. split.
  - destruct (indexOf open s) as [i|] eqn:Hi; [|discriminate].
    destruct (indexOf close (drop (i + length open) s)) as [j|] eqn:Hj;
      [|discriminate].
    intros _. apply indexOf_Some_split in Hi, Hj.
    exists (take i s), (take j (drop (i + length open) s)),
      (drop (j + length close) (drop (i + length open) s)).
    rewrite <- Hj. exact Hi.
  - intros (a & b & c & ->).
    destruct (indexOf_contained open a (b ++ close ++ c)) as (i & -> & Hle).
    replace (a ++ open ++ b ++ close ++ c)
      with ((a ++ open) ++ b ++ close ++ c)
      by (rewrite <- !app_assoc; reflexivity).
    rewrite drop_app_le by (rewrite length_app; lia).
    replace (drop (i + length open) (a ++ open) ++ b ++ close ++ c)
      with ((drop (i + length open) (a ++ open) ++ b) ++ close ++ c)
      by (rewrite <- !app_assoc; reflexivity).
    destruct (indexOf_contained close
                (drop (i + length open) (a ++ open) ++ b) c) as (j & -> & _).
    reflexivity.
Qed.

Lemma removeSpans_no_span (open close s : jsstring) :
  open <> [] -> ~ containsSpan open close s ->
  removeSpans open close 0 s = s.
Proof.
  intros Hopen Hno. pose proof (removeSpans_hasSpan open close s Hopen) as Hr.
  destruct (hasSpan open close s) eqn:Hs; [|exact Hr].
  exfalso. apply Hno, hasSpan_spec, Hs.
Qed.

Lemma stripComments_fixed_spans (y : jsstring) :
  removeHtmlComments y = y -> removeBlockComments y = y ->
  noLineMatch isSlashHead true y -> noLineMatch isHashHead true y ->
  (exists L, y = join [LF] L /\ cleanLines L) ->
  stripComments y = y.
Proof.
  intros Hhtml Hblock Hslash Hhash (L & HL & Hclean).
  unfold stripComments. destruct y as [|c y]; [reflexivity|].
  cbn [isEmpty]. rewrite Hhtml, Hblock.
  unfold removeSlashLines, removeHashLines.
  rewrite (removeLines_fixed _ _ _ Hslash), (removeLines_fixed _ _ _ Hhash).
  rewrite HL. apply cleanUp_join. exact Hclean.
Qed.

Lemma stripComments_shorter (y : jsstring) :
  (hasSpan (js "<!--") (js "-->") y = true
   \/ hasSpan (js "/*") (js "*/") y = true) ->
  stripComments y <> y.
Proof.
  intros Hspan Heq. apply (f_equal length) in Heq.
  assert (Hne : isEmpty y = false).
  { destruct y; [|reflexivity]. destruct Hspan as [H|H]; discriminate. }
  unfold stripComments in Heq. rewrite Hne in Heq.
  set (t1 := removeHtmlComments y) in *.
  set (t2 := removeBlockComments t1) in *.
  pose proof (sublist_length _ _ (cleanUp_sublist
                (removeHashLines (removeSlashLines t2)))) as H5.
  pose proof (sublist_length _ _ (removeLines_sublist isHashHead
                (removeSlashLines t2) true 0)) as H4.
  pose proof (sublist_length _ _ (removeLines_sublist isSlashHead
                t2 true 0)) as H3.
  fold (removeHashLines (removeSlashLines t2)) in H4.
  fold (removeSlashLines t2) in H3.
  pose proof (removeSpans_length (js "/*") (js "*/") t1 0) as H2.
  fold (removeBlockComments t1) in H2. fold t2 in H2.
  pose proof (removeSpans_length (js "<!--") (js "-->") y 0) as H1.
  fold (removeHtmlComments y) in H1. fold t1 in H1.
  pose proof (removeSpans_hasSpan (js "<!--") (js "-->") y
                ltac:(discriminate)) as Ha.
  fold (removeHtmlComments y) in Ha. fold t1 in Ha.
  destruct (hasSpan (js "<!--") (js "-->") y) eqn:Hh; [lia|].
  destruct Hspan as [Hs|Hs]; [discriminate|].
  pose proof (removeSpans_hasSpan (js "/*") (js "*/") y
                ltac:(discriminate)) as Hb.
  rewrite Hs in Hb. fold (removeBlockComments y) in Hb.
  subst t2. rewrite Ha in *. lia.
Qed.

(** C7, amended.  A second pass of [stripComments] changes nothing
    exactly when the result of the first holds no complete [<!-- -->]
    span and no complete [/* */] span: an opening marker with the
    closing marker somewhere behind it. *)
Theorem stripComments_idempotent_iff_no_span (text : jsstring) :
  stripComments (stripComments text) = stripComments text
  <-> ~ containsSpan (js "<!--") (js "-->") (stripComments text)
      /\ ~ containsSpan (js "/*") (js "*/") (stripComments text).
Proof.
  split.
  - intros Heq. split; intros Hc%hasSpan_spec;
      apply (stripComments_shorter (stripComments text)); auto.
  - intros [Hhtml Hblock]. apply stripComments_fixed_spans.
    + pose proof (removeSpans_hasSpan (js "<!--") (js "-->")
                    (stripComments text) ltac:(discriminate)) as Ha.
      destruct (hasSpan _ _ _) eqn:Hh; [|exact Ha].
      exfalso. apply Hhtml, hasSpan_spec, Hh.
    + pose proof (removeSpans_hasSpan (js "/*") (js "*/")
                    (stripComments text) ltac:(discriminate)) as Hb.
      destruct (hasSpan _ _ _) eqn:Hh; [|exact Hb].
      exfalso. apply Hblock, hasSpan_spec, Hh.
    + apply stripComments_noLineMatch. left; reflexivity.
    + apply stripComments_noLineMatch. right; reflexivity.
    + apply stripComments_normal.
Qed.

Lemma stripComments_idempotent_iff_no_span_witness :
  let text := join [LF] [js "// all sources"; js "glob('src/*.ts')   "] in
  stripComments text = js "glob('src/*.ts')"
  /\ stripComments (stripComments text) = stripComments text.
Proof.
  intros text.
  assert (Hr : stripComments text = js "glob('src/*.ts')")
    by (vm_compute; reflexivity).
  split; [exact Hr|].
  apply (proj2 (stripComments_idempotent_iff_no_span text)).
  rewrite Hr. split; intros Hc%hasSpan_spec; vm_compute in Hc; discriminate.
Defined.

(** The claim C7 as the specification states it, for every text, fails
    where the first pass joins the two halves of a marker: deleting the
    block comment of [<!/**/---->] leaves [<!---->], which the second
    pass deletes. *)
Lemma stripComments_not_idempotent :
  let x := js "<!/**/---->" in
  stripComments x = js "<!---->"
  /\ stripComments (stripComments x) = []
  /\ stripComments (stripComments x) <> stripComments x.
Proof.
  intros x.
  assert (H1 : stripComments x = js "<!---->") by (vm_compute; reflexivity).
  assert (H2 : stripComments (stripComments x) = [])
    by (vm_compute; reflexivity).
  split; [exact H1|]. split; [exact H2|]. rewrite H2, H1. discriminate.
Qed.

(** * The comment stripper: what it removes *)

Lemma Forall_sublist {A : Type} (P : A -> Prop) (l1 l2 : list A) :
  sublist l1 l2 -> Forall P l2 -> Forall P l1.
Proof.
  induction 1 as [|x l1 l2 _ IH|x l1 l2 _ IH]; intros Hl.
  - constructor.
  - apply Forall_cons in Hl as [Hx Hl]. constructor; auto.
  - apply Forall_cons in Hl as [_ Hl]. auto.
Qed.

(** ** The spans *)

Lemma startsWith_app_le (n s c : jsstring) :
  (length n <= length s)%nat -> startsWith n (s ++ c) = startsWith n s.
Proof.
  revert s. induction n as [|x n IH]; intros [|y s] Hle; try reflexivity.
  - simpl in Hle. lia.
  - simpl. rewrite IH by (simpl in Hle; lia). reflexivity.
Qed.

Lemma indexOf_Some_length (n s : jsstring) (i : nat) :
  indexOf n s = Some i -> (i + length n <= length s)%nat.
Proof.
  intros Hi. pose proof (indexOf_Some_split n s i Hi) as Hs.
  apply (f_equal length) in Hs. rewrite !length_app, length_take in Hs.
  assert (i <= length s)%nat; [|lia].
  clear Hs. revert i Hi. induction s as [|c s IH]; intros i.
  - cbn [indexOf]. destruct (startsWith n []); [|discriminate].
    intros [= <-]. lia.
  - cbn [indexOf]. destruct (startsWith n (c :: s)); [intros [= <-]; lia|].
    destruct (indexOf n s) as [j|]; [|discriminate].
    intros [= <-]. specialize (IH j eq_refl). simpl. lia.
Qed.

(** What follows a text does not move the first marker in it. *)
Lemma indexOf_app_Some (n s c : jsstring) :
  forall i, indexOf n s = Some i -> indexOf n (s ++ c) = Some i.
Proof.
  induction s as [|x s IH]; intros i.
  - cbn [indexOf]. destruct (startsWith n []) eqn:Hs; [|discriminate].
    intros [= <-]. destruct n; [|discriminate].
    simpl app. destruct c; reflexivity.
  - intros Hi. pose proof (indexOf_Some_length _ _ _ Hi) as Hlen.
    pose proof (startsWith_app_le n (x :: s) c ltac:(lia)) as Hsw.
    revert Hi. simpl app in *. cbn [indexOf]. rewrite Hsw.
    destruct (startsWith n (x :: s)); [trivial|].
    destruct (indexOf n s) as [j|]; [|discriminate].
    intros [= <-]. rewrite (IH j eq_refl). reflexivity.
Qed.

(** In front of the first opening marker nothing is deleted. *)
Lemma removeSpans_prefix (open close a c : jsstring) :
  (forall i, indexOf open (a ++ c) = Some i -> (length a <= i)%nat) ->
  removeSpans open close 0 (a ++ c) = a ++ removeSpans open close 0 c.
Proof.
  induction a as [|x a IH]; intros Hno; [reflexivity|].
  simpl app. cbn [removeSpans].
  destruct (startsWith open (x :: a ++ c)) eqn:Hs.
  - exfalso. specialize (Hno 0%nat). simpl app in Hno.
    cbn [indexOf] in Hno. rewrite Hs in Hno.
    specialize (Hno eq_refl). simpl in Hno. lia.
  - rewrite IH; [reflexivity|]. intros i Hi. specialize (Hno (S i)).
    simpl app in Hno. cbn [indexOf] in Hno. rewrite Hs, Hi in Hno.
    specialize (Hno eq_refl). simpl in Hno. lia.
Qed.

Lemma removeSpans_span (open close a b c : jsstring) :
  open <> [] ->
  indexOf open (a ++ open ++ b ++ close ++ c) = Some (length a) ->
  indexOf close (b ++ close) = Some (length b) ->
  (forall i, indexOf open (a ++ c) = Some i -> (length a <= i)%nat) ->
  removeSpans open close 0 (a ++ open ++ b ++ close ++ c)
  = removeSpans open close 0 (a ++ c).
Proof.
  intros Hopen Ha Hb Hno.
  rewrite removeSpans_first; [|assumption|assumption|].
  - rewrite removeSpans_prefix by exact Hno. reflexivity.
  - rewrite app_assoc. apply indexOf_app_Some. exact Hb.
Qed.

Lemma indexOf_Some_parts (n s : jsstring) (i : nat) :
  indexOf n s = Some i -> exists a r, s = a ++ n ++ r /\ length a = i.
Proof.
  intros Hi. exists (take i s), (drop (i + length n) s).
  split; [apply indexOf_Some_split; exact Hi|].
  rewrite length_take. pose proof (indexOf_Some_length _ _ _ Hi). lia.
Qed.

(** The span pass of the code cuts the spans as the specification has
    it, and every text has its cut. *)
Lemma spansCut_removeSpans (open close s r : jsstring) :
  open <> [] -> spansCut open close s r -> removeSpans open close 0 s = r.
Proof.
  intros Hopen. induction 1 as [s Hno|a b c r Ha Hb _ IH].
  - apply removeSpans_no_span; assumption.
  - rewrite (removeSpans_first open close a b c Hopen Ha Hb), IH.
    reflexivity.
Qed.

Lemma spansCut_total (open close s : jsstring) :
  open <> [] -> spansCut open close s (removeSpans open close 0 s).
Proof.
  intros Hopen. remember (length s) as n eqn:Hn. revert s Hn.
  induction n as [n IH] using lt_wf_ind. intros s Hn.
  destruct (hasSpan open close s) eqn:Hs.
  - unfold hasSpan in Hs.
    destruct (indexOf open s) as [i|] eqn:Hi; [|discriminate].
    destruct (indexOf close (drop (i + length open) s)) as [j|] eqn:Hj;
      [|discriminate].
    destruct (indexOf_Some_parts _ _ _ Hi) as (a & rest & -> & <-).
    replace (drop (length a + length open) (a ++ open ++ rest)) with rest
      in Hj
      by (rewrite app_assoc, <- length_app, drop_app_length; reflexivity).
    destruct (indexOf_Some_parts _ _ _ Hj) as (b & c & -> & <-).
    rewrite (removeSpans_first open close a b c Hopen Hi Hj).
    apply spansCut_first; [exact Hi|exact Hj|].
    apply (IH (length c)); [|reflexivity].
    subst n. rewrite !length_app. destruct open; [congruence|simpl; lia].
  - pose proof (removeSpans_hasSpan open close s Hopen) as Hr.
    rewrite Hs in Hr. rewrite Hr. apply spansCut_none.
    intros Hc%hasSpan_spec. congruence.
Qed.

Lemma stripComments_html_span (a b c : jsstring) :
  indexOf (js "<!--") (a ++ js "<!--" ++ b ++ js "-->" ++ c)
  = Some (length a) ->
  indexOf (js "-->") (b ++ js "-->") = Some (length b) ->
  (forall i, indexOf (js "<!--") (a ++ c) = Some i -> (length a <= i)%nat) ->
  stripComments (a ++ js "<!--" ++ b ++ js "-->" ++ c)
  = stripComments (a ++ c).
Proof.
  intros Ha Hb Hno. unfold stripComments.
  assert (He : isEmpty (a ++ js "<!--" ++ b ++ js "-->" ++ c) = false)
    by (destruct a; reflexivity).
  rewrite He. unfold removeHtmlComments.
  rewrite removeSpans_span by (assumption || discriminate).
  destruct (isEmpty (a ++ c)) eqn:Hac; [|reflexivity].
  destruct a; [|discriminate]. destruct c; [|discriminate]. reflexivity.
Qed.

Lemma stripComments_block_span (a b c : jsstring) :
  ~ containsSpan (js "<!--") (js "-->")
      (a ++ js "/*" ++ b ++ js "*/" ++ c) ->
  ~ containsSpan (js "<!--") (js "-->") (a ++ c) ->
  indexOf (js "/*") (a ++ js "/*" ++ b ++ js "*/" ++ c) = Some (length a) ->
  indexOf (js "*/") (b ++ js "*/") = Some (length b) ->
  (forall i, indexOf (js "/*") (a ++ c) = Some i -> (length a <= i)%nat) ->
  stripComments (a ++ js "/*" ++ b ++ js "*/" ++ c) = stripComments (a ++ c).
Proof.
  intros Hh1 Hh2 Ha Hb Hno. unfold stripComments.
  assert (He : isEmpty (a ++ js "/*" ++ b ++ js "*/" ++ c) = false)
    by (destruct a; reflexivity).
  rewrite He. unfold removeHtmlComments.
  rewrite (removeSpans_no_span (js "<!--") (js "-->") _
             ltac:(discriminate) Hh1).
  rewrite (removeSpans_no_span (js "<!--") (js "-->") _
             ltac:(discriminate) Hh2).
  unfold removeBlockComments.
  rewrite removeSpans_span by (assumption || discriminate).
  destruct (isEmpty (a ++ c)) eqn:Hac; [|reflexivity].
  destruct a; [|discriminate]. destruct c; [|discriminate]. reflexivity.
Qed.

(** ** The lines *)

Lemma isBlank_all (l : jsstring) :
  isBlank l = true -> forallb isWhiteSpace l = true.
Proof.
  rewrite isBlank_trimEnd. intros He.
  destruct (trimEnd_split l) as (w & Hw & Hws).
  destruct (trimEnd l); [|discriminate]. simpl in Hw. subst l. exact Hws.
Qed.

Lemma dropWhile_nil_all (p : N -> bool) (l : jsstring) :
  dropWhile p l = [] -> forallb p l = true.
Proof.
  induction l as [|c l IH]; [reflexivity|]. simpl.
  destruct (p c); [exact IH|discriminate].
Qed.

Lemma isBlank_false_dropWhile (l : jsstring) :
  isBlank l = false -> dropWhile isWhiteSpace l <> [].
Proof.
  intros Hb Hd. apply dropWhile_nil_all in Hd.
  rewrite isBlank_trimEnd, (trimEnd_all l Hd) in Hb. discriminate.
Qed.

Lemma dropWhile_plainLine (l rest : jsstring) (c : N) :
  plainLine l -> isLineTerminator c = true ->
  dropWhile notLineTerminator (l ++ c :: rest) = c :: rest.
Proof.
  intros Hl Hc. induction Hl as [|d l Hd Hl IH].
  - cbn [app dropWhile]. unfold notLineTerminator. rewrite Hc. reflexivity.
  - cbn [app dropWhile]. unfold notLineTerminator at 1. rewrite Hd. exact IH.
Qed.

Lemma dropWhile_plainLine_nil (l : jsstring) :
  plainLine l -> dropWhile notLineTerminator l = [].
Proof.
  induction 1 as [|c l Hc Hl IH]; [reflexivity|]. simpl.
  unfold notLineTerminator at 1. rewrite Hc. exact IH.
Qed.

Lemma splitLines_plainLine (l rest : jsstring) :
  plainLine l -> splitLines (l ++ LF :: rest) = l :: splitLines rest.
Proof.
  induction 1 as [|c l Hc Hl IH]; [reflexivity|]. simpl app.
  destruct (splitLines_cases c (l ++ LF :: rest))
    as [[-> _]|[[-> _]|(_ & _ & Hs)]]; [discriminate|discriminate|].
  rewrite Hs, IH. reflexivity.
Qed.

Lemma splitLines_plainLine_only (l : jsstring) :
  plainLine l -> splitLines l = [l].
Proof.
  intros Hl. apply splitLines_cleanLine_only.
  eapply Forall_impl; [exact Hl|]. intros c Hc ->. discriminate.
Qed.

Lemma keptLines_line (l rest : jsstring) :
  plainLine l ->
  keptLines (l ++ LF :: rest)
  = (if isBlank l then [] else [trimEnd l]) ++ keptLines rest.
Proof.
  intros Hl. unfold keptLines. rewrite (splitLines_plainLine l rest Hl).
  rewrite keptLines_cons, isBlank_trimEnd. reflexivity.
Qed.

Lemma keptLines_last (l : jsstring) :
  plainLine l -> keptLines l = if isBlank l then [] else [trimEnd l].
Proof.
  intros Hl. unfold keptLines. rewrite (splitLines_plainLine_only l Hl).
  rewrite keptLines_cons, isBlank_trimEnd.
  destruct (isEmpty (trimEnd l)); reflexivity.
Qed.

(** *** Carriage returns at the end of a line

    The clean-up splits at [\r?\n], the line expressions at every line
    terminator.  A carriage return in front of a line feed, or in front
    of a run of carriage returns that a line feed or the end of the text
    follows, is white space at the end of a line for the former and a
    line terminator for the latter. *)

Lemma replicate_CR_white (k : nat) :
  forallb isWhiteSpace (replicate k CR) = true.
Proof. induction k as [|k IH]; [reflexivity|exact IH]. Qed.

Lemma trimEnd_CR_run (l : jsstring) (k : nat) :
  trimEnd (l ++ replicate k CR) = trimEnd l.
Proof.
  rewrite trimEnd_app, (trimEnd_all _ (replicate_CR_white k)). reflexivity.
Qed.

Lemma splitLines_CR_LF (l : jsstring) (k : nat) (rest : jsstring) :
  plainLine l ->
  splitLines (l ++ replicate (S k) CR ++ LF :: rest)
  = (l ++ replicate k CR) :: splitLines rest.
Proof.
  induction 1 as [|c l Hc Hl IH].
  - induction k as [|k IH]; [reflexivity|].
    change ([] ++ replicate (S (S k)) CR ++ LF :: rest)
      with (CR :: ([] ++ replicate (S k) CR ++ LF :: rest)).
    destruct (splitLines_cases CR ([] ++ replicate (S k) CR ++ LF :: rest))
      as [[Hx _]|[(_ & t' & Hx & _)|(_ & _ & Hs)]];
      [discriminate Hx|simpl in Hx; discriminate Hx|].
    rewrite Hs, IH. reflexivity.
  - rewrite <- app_comm_cons.
    destruct (splitLines_cases c (l ++ replicate (S k) CR ++ LF :: rest))
      as [[-> _]|[[-> _]|(_ & _ & Hs)]]; [discriminate|discriminate|].
    rewrite Hs, IH. reflexivity.
Qed.

Lemma keptLines_CR_LF (l : jsstring) (k : nat) (rest : jsstring) :
  plainLine l ->
  keptLines (l ++ replicate (S k) CR ++ LF :: rest)
  = (if isBlank l then [] else [trimEnd l]) ++ keptLines rest.
Proof.
  intros Hl. unfold keptLines. rewrite (splitLines_CR_LF l k rest Hl).
  rewrite keptLines_cons, trimEnd_CR_run, isBlank_trimEnd. reflexivity.
Qed.

Lemma keptLines_CR_end (l : jsstring) (k : nat) :
  plainLine l ->
  keptLines (l ++ replicate k CR) = if isBlank l then [] else [trimEnd l].
Proof.
  intros Hl. unfold keptLines. rewrite splitLines_cleanLine_only.
  - rewrite keptLines_cons, trimEnd_CR_run, isBlank_trimEnd.
    destruct (isEmpty (trimEnd l)); reflexivity.
  - apply Forall_app. split.
    + eapply Forall_impl; [exact Hl|]. intros c Hc ->. discriminate.
    + apply Forall_replicate. discriminate.
Qed.

Lemma breakStart_CR (c : N) (s : jsstring) :
  (c =? LF) || ((c =? CR) && breakStart s) = true ->
  c = LF \/ (c = CR /\ breakStart s = true).
Proof.
  intros H.
  apply orb_true_iff in H as [H|H]; [left; apply N.eqb_eq; exact H|].
  apply andb_true_iff in H as [H1 H2]. right.
  split; [apply N.eqb_eq; exact H1|exact H2].
Qed.

Lemma keptLines_CR_run (O : jsstring) :
  lineEnds O = true -> breakStart O = true ->
  forall (l : jsstring) (k : nat),
    plainLine l ->
    keptLines (l ++ replicate (S k) CR ++ O)
    = (if isBlank l then [] else [trimEnd l]) ++ keptLines O.
Proof.
  induction O as [|c O IH]; intros He Hb l k Hl.
  - rewrite !app_nil_r. rewrite (keptLines_CR_end l (S k) Hl). reflexivity.
  - cbn [lineEnds] in He. apply andb_true_iff in He as [Hc HeO].
    cbn [breakStart] in Hb.
    apply orb_true_iff in Hb as [Hb|Hb]; apply N.eqb_eq in Hb; subst c.
    + rewrite (keptLines_CR_LF l k O Hl). reflexivity.
    + assert (HbO : breakStart O = true) by exact Hc.
      replace (l ++ replicate (S k) CR ++ CR :: O)
        with (l ++ replicate (S (S k)) CR ++ O).
      * rewrite (IH HeO HbO l (S k) Hl). f_equal.
        symmetry. exact (IH HeO HbO [] 0%nat ltac:(constructor)).
      * f_equal. rewrite (replicate_S_end (S k)), <- app_assoc. reflexivity.
Qed.

(** A line and its end, in front of a text. *)
Lemma keptLines_line_end (l : jsstring) (c : N) (O : jsstring) :
  plainLine l -> c = LF \/ (c = CR /\ breakStart O = true) ->
  lineEnds O = true ->
  keptLines (l ++ c :: O)
  = (if isBlank l then [] else [trimEnd l]) ++ keptLines O.
Proof.
  intros Hl [->|[-> Hb]] He; [apply keptLines_line; exact Hl|].
  exact (keptLines_CR_run O He Hb l 0%nat Hl).
Qed.

Lemma lineEnds_plainLine (l : jsstring) : plainLine l -> lineEnds l = true.
Proof.
  induction 1 as [|c l Hc Hl IH]; [reflexivity|].
  cbn [lineEnds]. rewrite Hc, IH. reflexivity.
Qed.

Lemma lineEnds_line_end (l : jsstring) (c : N) (O : jsstring) :
  plainLine l -> c = LF \/ (c = CR /\ breakStart O = true) ->
  lineEnds O = true -> lineEnds (l ++ c :: O) = true.
Proof.
  intros Hl Hc He. induction Hl as [|d l Hd Hl IH].
  - cbn [app lineEnds]. rewrite He.
    destruct Hc as [->|[-> ->]]; reflexivity.
  - cbn [app lineEnds]. rewrite Hd, IH. reflexivity.
Qed.

(** The first line of such a text and its end. *)
Lemma lineEnds_split (t : jsstring) :
  lineEnds t = true ->
  exists l tail,
    t = l ++ tail /\ plainLine l
    /\ (tail = []
        \/ exists c rest,
             tail = c :: rest
             /\ (c = LF \/ (c = CR /\ breakStart rest = true))
             /\ lineEnds rest = true).
Proof.
  induction t as [|c t IH]; intros He.
  - exists [], []. split; [reflexivity|]. split; [constructor|left; reflexivity].
  - cbn [lineEnds] in He. apply andb_true_iff in He as [Hc He].
    destruct (isLineTerminator c) eqn:Hlt.
    + exists [], (c :: t). split; [reflexivity|]. split; [constructor|].
      right. exists c, t. split; [reflexivity|]. cbn [negb orb] in Hc.
      split; [exact (breakStart_CR c t Hc)|exact He].
    + destruct (IH He) as (l & tail & -> & Hl & Htail).
      exists (c :: l), tail. split; [reflexivity|].
      split; [constructor; assumption|exact Htail].
Qed.

Lemma breakStart_line (l : jsstring) (c : N) (a b : jsstring) :
  breakStart (l ++ c :: a) = breakStart (l ++ c :: b).
Proof. destruct l; reflexivity. Qed.

Section LinePass.
Variable h : jsstring -> bool.
Hypothesis Hh : CommentHead h.

Lemma removeLines_plainLine (l rest : jsstring) :
  plainLine l ->
  removeLines h false 0 (l ++ rest) = l ++ removeLines h false 0 rest.
Proof.
  induction 1 as [|c l Hc Hl IH]; [reflexivity|]. simpl app.
  rewrite removeLines_keep by reflexivity. rewrite Hc, IH. reflexivity.
Qed.

Lemma removeLines_line_kept (l : jsstring) (c : N) (rest : jsstring) :
  plainLine l -> isLineTerminator c = true ->
  h (dropWhile isWhiteSpace (l ++ c :: rest)) = false ->
  removeLines h true 0 (l ++ c :: rest)
  = l ++ c :: removeLines h true 0 rest.
Proof.
  intros Hl Hc Hno. destruct Hl as [|d l Hd Hl]; simpl app in *.
  - rewrite removeLines_keep by (rewrite Hno; reflexivity).
    rewrite Hc. reflexivity.
  - rewrite removeLines_keep by (rewrite Hno; reflexivity).
    rewrite Hd, (removeLines_plainLine l _ Hl).
    rewrite removeLines_keep by reflexivity. rewrite Hc. reflexivity.
Qed.

Lemma removeLines_last_kept (l : jsstring) :
  plainLine l -> h (dropWhile isWhiteSpace l) = false ->
  removeLines h true 0 l = l.
Proof.
  intros Hl Hno. destruct Hl as [|c l Hc Hl]; [reflexivity|].
  rewrite removeLines_keep by (rewrite Hno; reflexivity). rewrite Hc.
  pose proof (removeLines_plainLine l [] Hl) as Hp.
  rewrite app_nil_r in Hp. rewrite Hp. simpl. rewrite app_nil_r.
  reflexivity.
Qed.

Lemma removeLines_line_removed (l : jsstring) (c : N) (rest : jsstring) :
  plainLine l -> isLineTerminator c = true ->
  dropWhile isWhiteSpace l <> [] ->
  h (dropWhile isWhiteSpace (l ++ c :: rest)) = true ->
  removeLines h true 0 (l ++ c :: rest) = c :: removeLines h true 0 rest.
Proof.
  intros Hl Hc Hnb Hm.
  destruct (removeLines_match h (l ++ c :: rest) Hm Hh) as (Hr & _).
  rewrite Hr, (dropWhile_app_nonempty _ _ _ Hnb).
  rewrite dropWhile_plainLine
    by (assumption || (apply Forall_dropWhile; exact Hl)).
  rewrite removeLines_keep by reflexivity. rewrite Hc. reflexivity.
Qed.

Lemma removeLines_last_removed (l : jsstring) :
  plainLine l -> h (dropWhile isWhiteSpace l) = true ->
  removeLines h true 0 l = [].
Proof.
  intros Hl Hm. destruct (removeLines_match h l Hm Hh) as (Hr & _).
  rewrite Hr, dropWhile_plainLine_nil by (apply Forall_dropWhile; exact Hl).
  reflexivity.
Qed.

Lemma removeLines_blank_line (l : jsstring) (c : N) (rest : jsstring) :
  forallb isWhiteSpace l = true -> isWhiteSpace c = true ->
  h (dropWhile isWhiteSpace rest) = true ->
  removeLines h true 0 (l ++ c :: rest) = removeLines h true 0 rest.
Proof.
  intros Hl Hc Hm.
  assert (Hd : dropWhile isWhiteSpace (l ++ c :: rest)
               = dropWhile isWhiteSpace rest)
    by (rewrite (dropWhile_all_app _ _ _ Hl); cbn [dropWhile];
        rewrite Hc; reflexivity).
  destruct (removeLines_match h (l ++ c :: rest)) as (Hr1 & _);
    [rewrite Hd; exact Hm|exact Hh|].
  destruct (removeLines_match h rest Hm Hh) as (Hr2 & _).
  rewrite Hr1, Hr2, Hd. reflexivity.
Qed.

(** What follows a line that is not blank does not matter to its head,
    as long as it starts with white space. *)
Lemma head_of_line (l tail : jsstring) :
  isBlank l = false -> startsBlank tail ->
  h (dropWhile isWhiteSpace (l ++ tail))
  = h (dropWhile isWhiteSpace (trimEnd l)).
Proof.
  intros Hb Ht. destruct (trimEnd_split l) as (w & Hw & Hws).
  rewrite Hw at 1. rewrite <- app_assoc.
  rewrite isBlank_trimEnd in Hb.
  rewrite (head_ext h (trimEnd l) (w ++ tail) []);
    [rewrite app_nil_r; reflexivity|exact Hh| |apply trimEnd_endsClean|
     apply startsBlank_app; assumption|exact I].
  destruct (trimEnd l); [discriminate|discriminate].
Qed.

(** The line pass, line by line: it deletes the comment lines from the
    lines the clean-up keeps, and nothing else, and it leaves the lines
    with ends of the same kind. *)
Lemma removeLines_lineEnds (t : jsstring) :
  lineEnds t = true ->
  keptLines (removeLines h true 0 t)
  = List.filter (fun l => negb (h (dropWhile isWhiteSpace l))) (keptLines t)
  /\ lineEnds (removeLines h true 0 t) = true
  /\ (breakStart t = true \/ h (dropWhile isWhiteSpace t) = true ->
      breakStart (removeLines h true 0 t) = true).
Proof.
  remember (length t) as n eqn:Hn. revert t Hn.
  induction n as [n IH] using lt_wf_ind. intros t Hn Ht.
  destruct (lineEnds_split t Ht) as (l & tail & -> & Hl & Htail).
  destruct Htail as [->|(c & rest & -> & Hc & Hrest)].
  - rewrite app_nil_r in *. rewrite (keptLines_last l Hl).
    destruct (isBlank l) eqn:Hb.
    + assert (Hm : h (dropWhile isWhiteSpace l) = false)
        by (rewrite (dropWhile_all _ _ (isBlank_all l Hb));
            apply (head_nil h Hh)).
      rewrite (removeLines_last_kept l Hl Hm), (keptLines_last l Hl), Hb.
      split; [reflexivity|]. split; [exact Ht|].
      intros [Hs|Hs]; [exact Hs|congruence].
    + pose proof (head_of_line l [] Hb I) as Hhd. rewrite app_nil_r in Hhd.
      cbn [List.filter]. rewrite <- Hhd.
      destruct (h (dropWhile isWhiteSpace l)) eqn:Hm; cbn [negb].
      * rewrite (removeLines_last_removed l Hl Hm).
        split; [reflexivity|]. split; reflexivity.
      * rewrite (removeLines_last_kept l Hl Hm), (keptLines_last l Hl), Hb.
        split; [reflexivity|]. split; [exact Ht|].
        intros [Hs|Hs]; [exact Hs|congruence].
  - assert (Hlt : isLineTerminator c = true)
      by (destruct Hc as [->|[-> _]]; reflexivity).
    assert (Hcw : isWhiteSpace c = true)
      by (destruct Hc as [->|[-> _]]; reflexivity).
    destruct (IH (length rest)
                ltac:(subst n; rewrite length_app; simpl; lia)
                rest eq_refl Hrest) as (IHk & IHe & IHb).
    assert (Hc' : c = LF
                  \/ (c = CR
                      /\ breakStart (removeLines h true 0 rest) = true)).
    { destruct Hc as [->|[-> Hb]]; [left; reflexivity|right].
      split; [reflexivity|]. apply IHb. left. exact Hb. }
    rewrite (keptLines_line_end l c rest Hl Hc Hrest).
    destruct (isBlank l) eqn:Hb.
    + pose proof (isBlank_all l Hb) as Hws. cbn [app].
      assert (Hd : dropWhile isWhiteSpace (l ++ c :: rest)
                   = dropWhile isWhiteSpace rest)
        by (rewrite (dropWhile_all_app _ _ _ Hws); cbn [dropWhile];
            rewrite Hcw; reflexivity).
      rewrite Hd.
      destruct (h (dropWhile isWhiteSpace rest)) eqn:Hm.
      * rewrite (removeLines_blank_line l c rest Hws Hcw Hm).
        split; [exact IHk|]. split; [exact IHe|].
        intros _. apply IHb. right. reflexivity.
      * rewrite (removeLines_line_kept l c rest Hl Hlt)
          by (rewrite Hd; exact Hm).
        rewrite (keptLines_line_end l c _ Hl Hc' IHe), Hb.
        split; [exact IHk|].
        split; [exact (lineEnds_line_end l c _ Hl Hc' IHe)|].
        intros [Hs|Hs]; [|discriminate Hs].
        rewrite (breakStart_line l c _ rest). exact Hs.
    + pose proof (head_of_line l (c :: rest) Hb Hcw) as Hhd.
      cbn [app List.filter]. rewrite <- Hhd.
      destruct (h (dropWhile isWhiteSpace (l ++ c :: rest))) eqn:Hm;
        cbn [negb].
      * rewrite (removeLines_line_removed l c rest Hl Hlt
                   (isBlank_false_dropWhile l Hb) Hm).
        pose proof (keptLines_line_end [] c _ ltac:(constructor) Hc' IHe)
          as Hk.
        change (isBlank []) with true in Hk. cbn [app] in Hk.
        rewrite Hk. split; [exact IHk|].
        split; [exact (lineEnds_line_end [] c _ ltac:(constructor) Hc' IHe)|].
        intros _. destruct Hc as [->|[-> _]]; reflexivity.
      * rewrite (removeLines_line_kept l c rest Hl Hlt Hm).
        rewrite (keptLines_line_end l c _ Hl Hc' IHe), Hb, IHk.
        split; [reflexivity|].
        split; [exact (lineEnds_line_end l c _ Hl Hc' IHe)|].
        intros [Hs|Hs]; [|discriminate Hs].
        rewrite (breakStart_line l c _ rest). exact Hs.
Qed.

End LinePass.

Lemma filter_filter_bool {A : Type} (f g : A -> bool) (l : list A) :
  List.filter f (List.filter g l) = List.filter (fun x => g x && f x) l.
Proof.
  induction l as [|x l IH]; [reflexivity|]. cbn [List.filter].
  destruct (g x); cbn [andb List.filter]; [|exact IH].
  destruct (f x); rewrite IH; reflexivity.
Qed.

(** On a line that is not blank, the head behind the white space in
    front is the head of the trimmed content. *)
Lemma head_trim (h : jsstring -> bool) (l : jsstring) :
  CommentHead h -> isBlank l = false ->
  h (dropWhile isWhiteSpace l) = h (trim l).
Proof.
  intros Hh Hb. pose proof (head_of_line h Hh l [] Hb I) as Hhd.
  rewrite app_nil_r in Hhd. exact Hhd.
Qed.

(** The two line passes and the clean-up, on a text whose lines end as
    above. *)
Lemma cleanUp_removeLines (t : jsstring) :
  lineEnds t = true ->
  cleanUp (removeHashLines (removeSlashLines t)) = linesWithoutComments t.
Proof.
  intros Hlf.
  change (cleanUp (removeHashLines (removeSlashLines t)))
    with (trim (join [LF] (keptLines (removeHashLines
                                        (removeSlashLines t))))).
  unfold removeHashLines, removeSlashLines, linesWithoutComments.
  destruct (removeLines_lineEnds isSlashHead isSlashHead_head t Hlf)
    as (Hk1 & He1 & _).
  destruct (removeLines_lineEnds isHashHead isHashHead_head _ He1)
    as (Hk2 & _).
  rewrite Hk2, Hk1.
  unfold keptLines. rewrite !filter_filter_bool.
  f_equal. f_equal. apply filter_ext. intros line.
  destruct (isBlank line) eqn:Hb; [reflexivity|]. cbn [negb andb].
  unfold isCommentLine.
  rewrite (head_trim isSlashHead line isSlashHead_head Hb).
  rewrite (head_trim isHashHead line isHashHead_head Hb).
  rewrite negb_orb. reflexivity.
Qed.

(** The result on a text whose cut has lines that end as above: the
    lines of the cut, without those that are blank and those that are
    comment lines. *)
Lemma stripComments_cut (text t1 t2 : jsstring) :
  spansCut (js "<!--") (js "-->") text t1 ->
  spansCut (js "/*") (js "*/") t1 t2 ->
  lineEnds t2 = true ->
  stripComments text = linesWithoutComments t2.
Proof.
  intros H1 H2 Hlf.
  apply spansCut_removeSpans in H1; [|discriminate].
  apply spansCut_removeSpans in H2; [|discriminate].
  unfold stripComments. destruct (isEmpty text) eqn:He.
  { destruct text; [|discriminate]. cbn in H1. subst t1.
    cbn in H2. subst t2. reflexivity. }
  unfold removeHtmlComments, removeBlockComments. rewrite H1, H2.
  apply cleanUp_removeLines. exact Hlf.
Qed.

Lemma stripComments_lines (text : jsstring) :
  ~ containsSpan (js "<!--") (js "-->") text ->
  ~ containsSpan (js "/*") (js "*/") text ->
  lineEnds text = true ->
  stripComments text
  = trim (join [LF]
            (List.filter
               (fun line => negb (isBlank line) && negb (isCommentLine line))
               (map trimEnd (splitLines text)))).
Proof.
  intros Hhtml Hblock Hlf.
  apply (stripComments_cut text text text);
    [apply spansCut_none; exact Hhtml|apply spansCut_none; exact Hblock|
     exact Hlf].
Qed.

(** ** The clean-up chain and white space around the text *)

Lemma filter_replicate_blank (n : nat) :
  List.filter (fun l => negb (isBlank l)) (replicate n []) = [].
Proof. induction n as [|n IH]; [reflexivity|exact IH]. Qed.

Lemma trimEnd_cons_white (c : N) (p : jsstring) :
  isWhiteSpace c = true -> trimEnd p = [] -> trimEnd (c :: p) = [].
Proof. intros Hc Hp. simpl. rewrite Hc, Hp. reflexivity. Qed.

Lemma trimEnd_cons_congr (c : N) (p q : jsstring) :
  trimEnd p = trimEnd q -> trimEnd (c :: p) = trimEnd (c :: q).
Proof. intros Hpq. simpl. rewrite Hpq. reflexivity. Qed.

Lemma splitLines_LF (t : jsstring) :
  splitLines (LF :: t) = [] :: splitLines t.
Proof. reflexivity. Qed.

(** The lines of white space are blank. *)
Lemma splitLines_white (w : jsstring) :
  forallb isWhiteSpace w = true ->
  exists n, map trimEnd (splitLines w) = [] :: replicate n [].
Proof.
  induction w as [|c w IH]; intros Hw.
  - exists 0%nat. reflexivity.
  - cbn [forallb] in Hw. apply andb_true_iff in Hw as [Hc Hw].
    destruct (IH Hw) as [n Hn].
    destruct (splitLines_cases c w)
      as [[-> Hs]|[[-> (t' & -> & Hs)]|(_ & _ & Hs)]]; rewrite Hs.
    + exists (S n). cbn [map]. rewrite Hn. reflexivity.
    + rewrite splitLines_LF in Hn. cbn [map] in Hn. injection Hn as Hn.
      exists n. cbn [map]. rewrite Hn. reflexivity.
    + destruct (splitLines w) as [|p ps]; [discriminate Hn|].
      cbn [map] in Hn. injection Hn as Hp Hps. exists n.
      cbn [consHead map]. rewrite (trimEnd_cons_white c p Hc Hp), Hps.
      reflexivity.
Qed.

(** White space behind a text adds blank lines only. *)
Lemma splitLines_app_white (Y w : jsstring) :
  forallb isWhiteSpace w = true ->
  exists n,
    map trimEnd (splitLines (Y ++ w))
    = map trimEnd (splitLines Y) ++ replicate n [].
Proof.
  intros Hw. induction Y as [|c Y (n & IH)].
  - destruct (splitLines_white w Hw) as [n Hn]. exists n.
    simpl app. rewrite Hn. reflexivity.
  - change ((c :: Y) ++ w) with (c :: Y ++ w).
    destruct (splitLines_cases c Y)
      as [[-> Hs]|[[-> (t' & -> & Hs)]|(Hne & Hcr & Hs)]].
    + exists n. rewrite !splitLines_LF. cbn [map]. rewrite IH. reflexivity.
    + change ((LF :: t') ++ w) with (LF :: t' ++ w) in IH. rewrite !splitLines_LF in IH. cbn [map] in IH.
      injection IH as IH. exists n.
      enough (map trimEnd (splitLines (CR :: LF :: t' ++ w))
              = map trimEnd ([] :: splitLines t') ++ replicate n [])
        as Hgoal by exact Hgoal.
      destruct (splitLines_cases CR (LF :: t' ++ w))
        as [[[=] _]|[[_ (t2 & [= <-] & Hs2)]|(_ & Hno & _)]].
      * rewrite Hs2. cbn [map]. rewrite IH. reflexivity.
      * exfalso. exact (Hno eq_refl _ eq_refl).
    + destruct (splitLines_cases c (Y ++ w))
        as [[-> _]|[[-> (t2 & Ht2 & Hs2)]|(_ & _ & Hs2)]]; [congruence| |].
      * destruct Y as [|d Y].
        -- simpl in Ht2. subst w. rewrite Hs2.
           cbn [forallb] in Hw. apply andb_true_iff in Hw as [_ Hw].
           destruct (splitLines_white t2 Hw) as [m Hm].
           exists (S m). cbn [map]. rewrite Hm. reflexivity.
        -- exfalso. simpl in Ht2. injection Ht2 as -> _.
           exact (Hcr eq_refl _ eq_refl).
      * rewrite Hs, Hs2.
        destruct (splitLines_inv Y) as (p & ps & _ & HsY & _).
        destruct (splitLines_inv (Y ++ w)) as (p1 & ps1 & _ & HsYw & _).
        rewrite HsY, HsYw in *. cbn [map app] in IH. injection IH as Hp Hps.
        exists n. cbn [consHead map app].
        rewrite (trimEnd_cons_congr c p1 p Hp), Hps. reflexivity.
Qed.

(** White space in front of a text adds blank lines, and white space in
    front of its first line. *)
Lemma splitLines_white_app (w Y k : jsstring) (R : list jsstring) :
  forallb isWhiteSpace w = true ->
  map trimEnd (splitLines Y) = k :: R -> k <> [] ->
  exists n indent,
    forallb isWhiteSpace indent = true
    /\ map trimEnd (splitLines (w ++ Y))
       = replicate n [] ++ (indent ++ k) :: R.
Proof.
  intros Hw Hk Hne. induction w as [|c w IH].
  - exists 0%nat, []. split; [reflexivity|exact Hk].
  - cbn [forallb] in Hw. apply andb_true_iff in Hw as [Hc Hw].
    destruct (IH Hw) as (n & indent & Hi & Hm). simpl app.
    destruct (splitLines_cases c (w ++ Y))
      as [[-> Hs]|[[-> (t' & Ht & Hs)]|(_ & _ & Hs)]]; rewrite Hs.
    + exists (S n), indent. split; [exact Hi|].
      cbn [map replicate app]. rewrite Hm. reflexivity.
    + rewrite Ht, splitLines_LF in Hm. exists n, indent.
      split; [exact Hi|exact Hm].
    + destruct (splitLines (w ++ Y)) as [|q qs];
        [destruct n; discriminate Hm|].
      cbn [consHead map]. cbn [map] in Hm.
      destruct n as [|n]; cbn [replicate app] in Hm; injection Hm as Hq Hqs.
      * exists 0%nat, (c :: indent).
        split; [cbn [forallb]; rewrite Hc, Hi; reflexivity|].
        cbn [replicate app]. f_equal; [|exact Hqs].
        simpl trimEnd. rewrite Hq.
        destruct (indent ++ k) eqn:E;
          [apply app_eq_nil in E as [_ E]; congruence|].
        rewrite andb_false_r. reflexivity.
      * exists (S n), indent. split; [exact Hi|].
        cbn [replicate app]. rewrite (trimEnd_cons_white c q Hc Hq), Hqs.
        reflexivity.
Qed.

Lemma cleanUp_app_white (Y w : jsstring) :
  forallb isWhiteSpace w = true -> cleanUp (Y ++ w) = cleanUp Y.
Proof.
  intros Hw. unfold cleanUp.
  destruct (splitLines_app_white Y w Hw) as [n Hn].
  rewrite Hn, List.filter_app, filter_replicate_blank, app_nil_r.
  reflexivity.
Qed.

Lemma join_head_app (indent k : jsstring) (K : list jsstring) :
  join [LF] ((indent ++ k) :: K) = indent ++ join [LF] (k :: K).
Proof. destruct K; simpl; rewrite <- ?app_assoc; reflexivity. Qed.

Lemma isBlank_trimEnd_nonempty (x : jsstring) :
  trimEnd x <> [] -> isBlank (trimEnd x) = false.
Proof.
  intros Hne. rewrite isBlank_trimEnd, trimEnd_idem.
  destruct (trimEnd x); [congruence|reflexivity].
Qed.

Lemma cleanUp_white_app_start (w Z : jsstring) :
  forallb isWhiteSpace w = true ->
  match Z with [] => True | d :: _ => isWhiteSpace d = false end ->
  cleanUp (w ++ Z) = cleanUp Z.
Proof.
  intros Hw HZ. destruct Z as [|d Z].
  - rewrite app_nil_r. unfold cleanUp.
    destruct (splitLines_white w Hw) as [n Hn]. rewrite Hn.
    change ([] :: replicate n []) with (replicate (S n) (@nil N)).
    rewrite filter_replicate_blank. reflexivity.
  - destruct (splitLines_inv (d :: Z)) as (p & ps & _ & Hsp & _).
    assert (Hp : trimEnd p <> []).
    { destruct (splitLines_cases d Z)
        as [[-> _]|[[-> _]|(_ & _ & Hs)]]; [discriminate|discriminate|].
      rewrite Hs in Hsp.
      destruct (splitLines Z) as [|q qs]; injection Hsp as <- _;
        simpl; rewrite HZ; discriminate. }
    destruct (splitLines_white_app w (d :: Z) (trimEnd p) (map trimEnd ps) Hw)
      as (n & indent & Hi & Hm); [rewrite Hsp; reflexivity|exact Hp|].
    unfold cleanUp. rewrite Hm, Hsp, List.filter_app, filter_replicate_blank.
    cbn [app map List.filter].
    rewrite (isBlank_trimEnd_nonempty p Hp).
    assert (Hb : isBlank (indent ++ trimEnd p) = false).
    { rewrite isBlank_trimEnd, trimEnd_app, trimEnd_idem.
      destruct (trimEnd p) eqn:E; [congruence|].
      cbn [isEmpty]. destruct indent; reflexivity. }
    rewrite Hb. cbn [negb]. rewrite join_head_app.
    apply trim_all_app. exact Hi.
Qed.

Lemma forallb_app_true (p : N -> bool) (a b : jsstring) :
  forallb p a = true -> forallb p b = true -> forallb p (a ++ b) = true.
Proof.
  intros Ha Hb. induction a as [|c a IH]; [exact Hb|].
  cbn [forallb app] in *. apply andb_true_iff in Ha as [-> Ha]. auto.
Qed.

Lemma dropWhile_start (p : N -> bool) (s : jsstring) :
  match dropWhile p s with [] => True | d :: _ => p d = false end.
Proof.
  destruct (dropWhile p s) as [|d r] eqn:Hd; [exact I|].
  exact (dropWhile_head p s d r Hd).
Qed.

Lemma cleanUp_white_app (w Y : jsstring) :
  forallb isWhiteSpace w = true -> cleanUp (w ++ Y) = cleanUp Y.
Proof.
  intros Hw.
  rewrite <- (takeWhile_dropWhile isWhiteSpace Y) at 2.
  rewrite <- (takeWhile_dropWhile isWhiteSpace Y) at 1.
  rewrite app_assoc.
  rewrite !cleanUp_white_app_start;
    [reflexivity|apply takeWhile_all|apply dropWhile_start|
     apply forallb_app_true; [exact Hw|apply takeWhile_all]|
     apply dropWhile_start].
Qed.

(** The clean-up chain does not see a trim before it. *)
Lemma cleanUp_trim (t : jsstring) : cleanUp (trim t) = cleanUp t.
Proof.
  destruct (trimEnd_split t) as (w & Hw & Hws).
  rewrite Hw at 2. rewrite cleanUp_app_white by exact Hws.
  unfold trim, trimStart.
  rewrite <- (takeWhile_dropWhile isWhiteSpace (trimEnd t)) at 2.
  rewrite cleanUp_white_app by apply takeWhile_all. reflexivity.
Qed.

(** ** The two strippers *)

Lemma splitLines_join_tidy (L : list jsstring) :
  L <> [] -> Forall tidyLine L -> splitLines (join [LF] L) = L.
Proof.
  induction L as [|l L IH]; intros Hne HL; [congruence|].
  apply Forall_cons in HL as [[Hlf Hend] HL]. destruct L as [|l2 L].
  - apply splitLines_cleanLine_only. exact Hlf.
  - rewrite join_cons.
    change ([LF] ++ join [LF] (l2 :: L)) with (LF :: join [LF] (l2 :: L)).
    rewrite <- (IH ltac:(discriminate) HL) at 2.
    destruct l as [|c l]; [reflexivity|].
    apply splitLines_cleanLine. split; [discriminate|split; assumption].
Qed.

Lemma keptLines_join_tidy (L : list jsstring) :
  Forall tidyLine L ->
  keptLines (join [LF] L) = List.filter (fun l => negb (isBlank l)) L.
Proof.
  intros HL. destruct L as [|l L]; [reflexivity|].
  unfold keptLines. rewrite splitLines_join_tidy by (discriminate || exact HL).
  f_equal. induction HL as [|x X [_ Hx] _ IH]; [reflexivity|].
  cbn [map]. rewrite (trimEnd_fixed x Hx), IH. reflexivity.
Qed.

Lemma tidyLine_lines (t : jsstring) :
  Forall tidyLine (map trimEnd (splitLines t)).
Proof.
  apply Forall_map. eapply Forall_impl; [apply splitLines_no_LF|].
  intros p Hp. split; [apply Forall_trimEnd; exact Hp|apply trimEnd_endsClean].
Qed.

Lemma Forall_filterBlankRuns (P : jsstring -> Prop) (arr : list jsstring) :
  Forall P arr -> forall b, Forall P (TextUtils.filterBlankRuns b arr).
Proof.
  induction 1 as [|l arr Hl Harr IH]; intros b; [constructor|].
  cbn [TextUtils.filterBlankRuns].
  destruct (negb (isBlank l) || negb b); [constructor|]; auto.
Qed.

(** The stripper of [src/lib/textUtils.ts] differs from the one of
    [src/utils/textProcessor.ts] by blank lines only: the clean-up
    chain of the latter, run on the result of the former, gives the
    result of the latter. *)
Lemma TextUtils_stripComments_cleanUp (text : jsstring) :
  cleanUp (TextUtils.stripComments text) = stripComments text.
Proof.
  unfold TextUtils.stripComments, stripComments.
  destruct (isEmpty text); [reflexivity|]. cbv zeta.
  set (out := removeHashLines
                (removeSlashLines
                   (removeBlockComments (removeHtmlComments text)))).
  rewrite cleanUp_trim.
  change (cleanUp (join [LF] (TextUtils.filterBlankRuns true
                                (map trimEnd (splitLines out)))))
    with (trim (join [LF]
                  (keptLines (join [LF] (TextUtils.filterBlankRuns true
                                           (map trimEnd (splitLines out))))))).
  rewrite keptLines_join_tidy
    by (apply Forall_filterBlankRuns, tidyLine_lines).
  rewrite filterBlankRuns_nonblank. reflexivity.
Qed.

(** C6, amended.  For [stripComments] of [src/utils/textProcessor.ts]:
    - the [<!-- -->] spans are cut from the text, then the [/* */] spans
      from what is left, each time from the first opening marker to the
      first closing marker behind it and on behind that span
      ([spansCut]); when the lines of what is left end with LF or with
      CR LF (or with more carriage returns in front of the line feed or
      of the end of the text, [lineEnds]), the result is made of these
      lines, each without the white space at its end, in their order,
      without the lines that are blank and without those whose trimmed
      content starts with [//] or with a [#] that no [!] follows, joined
      by single line feeds and trimmed ([linesWithoutComments]); a line
      starting with [#!] is kept;
    - every text has such a cut;
    - a [<!-- -->] span, from the first opening marker to the first
      closing marker behind it, is removed, whatever the line ends: the
      result is that of the text without the span, as long as cutting
      the span does not join the two halves of a new opening marker;
    - so is a [/* */] span, in a text without a complete [<!-- -->]
      span;
    - of a text without a complete span of either kind, whose lines end
      as above, the result is made of its lines as above;
    - for every text, no line of the result starts, behind optional
      white space, with [//] or with such a [#], and the result is made
      of lines joined by single line feeds, each not empty and without
      white space at its end, the first without white space in front;
    - the text [a=1;], three line feeds, [b=2;], two line feeds, gives
      [a=1;], a line feed, [b=2;].
    The copy in [src/lib/textUtils.ts] gives two line feeds between
    them; it differs by blank lines only: for every text, the clean-up
    chain above (lines split, white space at their end cut, blank lines
    dropped, joined, trimmed), run on the result of the copy, gives the
    result of [stripComments]. *)
Theorem stripComments_removes_comments :
  (forall text t1 t2 : jsstring,
      spansCut (js "<!--") (js "-->") text t1 ->
      spansCut (js "/*") (js "*/") t1 t2 ->
      lineEnds t2 = true ->
      stripComments text = linesWithoutComments t2)
  /\ (forall text : jsstring,
         exists t1 t2,
           spansCut (js "<!--") (js "-->") text t1
           /\ spansCut (js "/*") (js "*/") t1 t2)
  /\ (forall a b c : jsstring,
      indexOf (js "<!--") (a ++ js "<!--" ++ b ++ js "-->" ++ c)
      = Some (length a) ->
      indexOf (js "-->") (b ++ js "-->") = Some (length b) ->
      (forall i, indexOf (js "<!--") (a ++ c) = Some i ->
                 (length a <= i)%nat) ->
      stripComments (a ++ js "<!--" ++ b ++ js "-->" ++ c)
      = stripComments (a ++ c))
  /\ (forall a b c : jsstring,
         ~ containsSpan (js "<!--") (js "-->")
             (a ++ js "/*" ++ b ++ js "*/" ++ c) ->
         ~ containsSpan (js "<!--") (js "-->") (a ++ c) ->
         indexOf (js "/*") (a ++ js "/*" ++ b ++ js "*/" ++ c)
         = Some (length a) ->
         indexOf (js "*/") (b ++ js "*/") = Some (length b) ->
         (forall i, indexOf (js "/*") (a ++ c) = Some i ->
                    (length a <= i)%nat) ->
         stripComments (a ++ js "/*" ++ b ++ js "*/" ++ c)
         = stripComments (a ++ c))
  /\ (forall text : jsstring,
         ~ containsSpan (js "<!--") (js "-->") text ->
         ~ containsSpan (js "/*") (js "*/") text ->
         lineEnds text = true ->
         stripComments text
         = trim (join [LF]
                   (List.filter
                      (fun line =>
                         negb (isBlank line) && negb (isCommentLine line))
                      (map trimEnd (splitLines text)))))
  /\ (forall text a r : jsstring,
         stripComments text = a ++ r -> atLineStart a ->
         isSlashHead (dropWhile isWhiteSpace r) = false
         /\ isHashHead (dropWhile isWhiteSpace r) = false)
  /\ (forall text : jsstring,
         exists lines, stripComments text = join [LF] lines
                       /\ cleanLines lines)
  /\ stripComments (js "a=1;" ++ [LF; LF; LF] ++ js "b=2;" ++ [LF; LF])
     = js "a=1;" ++ [LF] ++ js "b=2;"
  /\ TextUtils.stripComments
       (js "a=1;" ++ [LF; LF; LF] ++ js "b=2;" ++ [LF; LF])
     = js "a=1;" ++ [LF; LF] ++ js "b=2;"
  /\ (forall text : jsstring,
         cleanUp (TextUtils.stripComments text) = stripComments text).
Proof.
  split; [exact stripComments_cut|].
  split.
  { intros text. eexists _, _.
    split; apply spansCut_total; discriminate. }
  split; [|split; [|split; [|split; [|split; [|split; [|split]]]]]].
  8: apply TextUtils_stripComments_cleanUp.
  - apply stripComments_html_span.
  - apply stripComments_block_span.
  - apply stripComments_lines.
  - intros text a r Htext Ha. split.
    + apply (noLineMatch_at isSlashHead a isSlashHead_head true
               (stripComments text) r); auto.
      apply stripComments_noLineMatch. left; reflexivity.
    + apply (noLineMatch_at isHashHead a isHashHead_head true
               (stripComments text) r); auto.
      apply stripComments_noLineMatch. right; reflexivity.
  - apply stripComments_normal.
  - vm_compute. reflexivity.
  - vm_compute. reflexivity.
Qed.

Lemma stripComments_removes_comments_witness :
  let a := js "#!/bin/sh" ++ [LF] in
  let b := js " one" ++ [LF] ++ js "// two " in
  let c :=
    [LF] ++ js "/* three */" ++ [LF] ++ js "  // four" ++ [LF]
    ++ js "# five" ++ [CR; LF] ++ js "x = 1;  " ++ [LF; LF]
    ++ js "y = x // q" in
  let a2 := a ++ [LF] in
  let b2 := js " three " in
  let c2 :=
    [LF] ++ js "  // four" ++ [LF] ++ js "# five" ++ [CR; LF]
    ++ js "x = 1;  " ++ [LF; LF] ++ js "y = x // q" in
  stripComments (a ++ js "<!--" ++ b ++ js "-->" ++ c)
  = join [LF] [js "#!/bin/sh"; js "x = 1;"; js "y = x // q"]
  /\ stripComments
       (js "<!" ++ js "/*" ++ js "*/" ++ js "---->" ++ [LF] ++ js "// c"
        ++ [CR; LF] ++ js "y")
     = js "<!---->" ++ [LF] ++ js "y".
Proof.
  intros a b c a2 b2 c2.
  destruct stripComments_removes_comments
    as (Hcut & _ & Hhtml & Hblock & Hlines & _).
  split.
  2:{ rewrite (Hcut _
                 (js "<!" ++ js "/*" ++ js "*/" ++ js "---->" ++ [LF]
                  ++ js "// c" ++ [CR; LF] ++ js "y")
                 (js "<!" ++ js "---->" ++ [LF] ++ js "// c" ++ [CR; LF]
                  ++ js "y"));
        [vm_compute; reflexivity| | |vm_compute; reflexivity].
      { apply spansCut_none. intros Hs%hasSpan_spec. vm_compute in Hs.
        discriminate Hs. }
      apply (spansCut_first (js "/*") (js "*/") (js "<!") []
               (js "---->" ++ [LF] ++ js "// c" ++ [CR; LF] ++ js "y"));
        [vm_compute; reflexivity|vm_compute; reflexivity|].
      apply spansCut_none. intros Hs%hasSpan_spec. vm_compute in Hs.
      discriminate Hs. }
  rewrite (Hhtml a b c);
    [|vm_compute; reflexivity|vm_compute; reflexivity|
     intros i Hi; vm_compute in Hi; discriminate].
  change (a ++ c) with (a2 ++ js "/*" ++ b2 ++ js "*/" ++ c2).
  rewrite (Hblock a2 b2 c2);
    [|intros Hs%hasSpan_spec; vm_compute in Hs; discriminate Hs|
     intros Hs%hasSpan_spec; vm_compute in Hs; discriminate Hs|
     vm_compute; reflexivity|vm_compute; reflexivity|
     intros i Hi; vm_compute in Hi; discriminate].
  rewrite (Hlines (a2 ++ c2));
    [|intros Hs%hasSpan_spec; vm_compute in Hs; discriminate Hs|
     intros Hs%hasSpan_spec; vm_compute in Hs; discriminate Hs|
     vm_compute; reflexivity].
  vm_compute. reflexivity.
Defined.

(** The claim C6 names the stripper of [src/lib/textUtils.ts] too, which
    does not drop every line that is empty: it keeps a blank line that
    follows a line that is not blank, and gives two line feeds between
    [a=1;] and [b=2;] where the claim has one. *)
Lemma TextUtils_stripComments_keeps_blank_line :
  TextUtils.stripComments
    (js "a=1;" ++ [LF; LF; LF] ++ js "b=2;" ++ [LF; LF])
  = js "a=1;" ++ [LF; LF] ++ js "b=2;"
  /\ TextUtils.stripComments
       (js "a=1;" ++ [LF; LF; LF] ++ js "b=2;" ++ [LF; LF])
     <> js "a=1;" ++ [LF] ++ js "b=2;".
Proof. split; vm_compute; [reflexivity|discriminate]. Qed.
